(** * expo-build-preflight: the validator scripts, embedded and verified

    The repository ships Node.js scripts that audit an Expo project before a
    production build: [validate_expo_config.js] and [check_assets.js].
    Every script prints findings tagged [PASS], [WARN] or [FAIL] through
    [logStatus], records in the global flag [hasFails] whether a [FAIL] was
    printed, and ends with [process.exit].

    The sources hold three revisions of [validate_expo_config.js].  Two of
    them are embedded here: the one that reads and parses app.json itself
    (module [DirectParse]) and the one that lets the Expo CLI compile the
    configuration and accepts both envelopes of its output (module
    [CompiledResolve]).  The third one compiles the configuration too, accepts
    the wrapped envelope only, and decides severities as [DirectParse] does;
    of it the function that resolves the configuration is embedded (module
    [WrappedResolve]).  Both revisions of [check_assets.js] are embedded: the
    one that reads app.json (module [CheckAssets]) and the one that asks the
    Expo CLI (module [CheckAssetsCompiled]).

    The scripts are embedded as computations in a small monad that threads
    the console and the flag and that distinguishes returning, leaving
    through [process.exit] and throwing.  Everything the scripts observe of
    their surroundings (arguments, file system, child processes, the optional
    image-size module) is a field of the record [World]. *)

From Stdlib Require Import String Ascii List ZArith Lia Bool DecimalString.
Import ListNotations.
Local Open Scope string_scope.
Local Open Scope Z_scope.
#[local] Set Warnings "-register-all".

(** ** JavaScript values *)

(** A value as [JSON.parse] builds it, plus [undefined], which property
    lookups produce.  Numbers are the integer-valued ones (SDK levels, pixel
    counts), below the size from which JavaScript prints an exponent.
    Strings are sequences of characters of one code unit each.  [JObj] lists
    the own properties of an object in enumeration order, with distinct
    names. *)
Inductive jsval : Type :=
| JUndefined
| JNull
| JBool (b : bool)
| JNum (n : Z)
| JStr (s : string)
| JArr (items : list jsval)
| JObj (props : list (string * jsval)).

Module Js.

(** ToBoolean. *)
Definition truthy (v : jsval) : bool :=
  match v with
  | JUndefined | JNull => false
  | JBool b => b
  | JNum n => negb (n =? 0)
  | JStr s => negb (String.eqb s EmptyString)
  | JArr _ | JObj _ => true
  end.

Fixpoint lookup (k : string) (props : list (string * jsval)) : jsval :=
  match props with
  | [] => JUndefined
  | (k', v) :: rest => if String.eqb k k' then v else lookup k rest
  end.

(** [v?.k]: the property [k] of [v], [undefined] when [v] is [null] or
    [undefined].  None of the names the scripts read is a property of the
    prototype of a string, number, boolean or array, so only objects
    answer with something else than [undefined]. *)
Definition get (v : jsval) (k : string) : jsval :=
  match v with
  | JObj props => lookup k props
  | _ => JUndefined
  end.

(** [a || b] *)
Definition or (a b : jsval) : jsval := if truthy a then a else b.

Definition string_of_Z (n : Z) : string :=
  NilZero.string_of_int (Z.to_int n).

(** ToString, as a template literal or [RegExp.prototype.test] applies it. *)
Fixpoint toString (v : jsval) : string :=
  match v with
  | JUndefined => "undefined"
  | JNull => "null"
  | JBool true => "true"
  | JBool false => "false"
  | JNum n => string_of_Z n
  | JStr s => s
  | JArr items =>
      String.concat ","
        (map (fun x => match x with
                       | JUndefined | JNull => EmptyString
                       | _ => toString x
                       end) items)
  | JObj _ => "[object Object]"
  end.

(** [typeof v === 'object'] *)
Definition typeof_object (v : jsval) : bool :=
  match v with
  | JNull | JArr _ | JObj _ => true
  | _ => false
  end.

(** [v === s] for a string literal [s]. *)
Definition strict_eq_str (v : jsval) (s : string) : bool :=
  match v with
  | JStr s' => String.eqb s' s
  | _ => false
  end.

(** [v === b] for a boolean literal [b]. *)
Definition strict_eq_bool (v : jsval) (b : bool) : bool :=
  match v with
  | JBool b' => Bool.eqb b' b
  | _ => false
  end.

Fixpoint indices (from len : nat) : list string :=
  match len with
  | O => []
  | S len' => string_of_Z (Z.of_nat from) :: indices (S from) len'
  end.

(** [Object.keys(v)] for a value that is neither [null] nor [undefined]. *)
Definition Object_keys (v : jsval) : list string :=
  match v with
  | JObj props => map fst props
  | JArr items => indices 0 (List.length items)
  | JStr s => indices 0 (String.length s)
  | _ => []
  end.

(** ASCII letters only change under [toLowerCase]; the [i] flag of a
    regular expression never lets a character outside ASCII match a
    letter of the pattern. *)
Definition lower (c : ascii) : ascii :=
  let n := nat_of_ascii c in
  if (andb (Nat.leb 65 n) (Nat.leb n 90)) then ascii_of_nat (n + 32) else c.

(** [pat] is matched, ignoring case, at the start of [s]; [pat] is in
    lower case. *)
Fixpoint starts_with_i (pat s : string) : bool :=
  match pat, s with
  | EmptyString, _ => true
  | String p pat', String c s' =>
      if Ascii.eqb p (lower c) then starts_with_i pat' s' else false
  | String _ _, EmptyString => false
  end.

Definition is_space (c : ascii) : bool :=
  let n := nat_of_ascii c in
  orb (andb (Nat.leb 9 n) (Nat.leb n 13)) (Nat.eqb n 32).

Fixpoint trim_start (s : string) : string :=
  match s with
  | String c s' => if is_space c then trim_start s' else s
  | EmptyString => EmptyString
  end.

Fixpoint rev_string (s acc : string) : string :=
  match s with
  | EmptyString => acc
  | String c s' => rev_string s' (String c acc)
  end.

(** [s.trim()] over the ASCII white space. *)
Definition trim (s : string) : string :=
  rev_string (trim_start (rev_string (trim_start s) EmptyString)) EmptyString.

End Js.

(** ** The surroundings of a run *)

(** What a built-in returns, or the [message] of the error it throws. *)
Inductive result (A : Type) : Type :=
| Ok (a : A)
| Throws (message : string).
Arguments Ok {A} a.
Arguments Throws {A} message.

(** The surroundings of one process.  [JSON.parse], [JSON.stringify] and
    the conversion of a string to a number are taken from the engine as they
    are; [StringToNumber_lt s n] says whether the number that the string [s]
    converts to is below [n] ([false] when it converts to [NaN]). *)
Record World : Type := {
  argv2 : option string;
  argv3 : option string;
  path_join_cwd : string -> string;
  fs_existsSync : string -> bool;
  fs_readFileSync : string -> result string;
  JSON_parse : string -> result jsval;
  JSON_stringify : jsval -> string;
  StringToNumber_lt : string -> Z -> bool;
  (** [execSync('git status --porcelain').toString()] *)
  git_status_porcelain : result string;
  (** [execSync('npx expo config --json', ...)] *)
  expo_config_json : result string;
  (** [require('image-size')]: the function [sizeOf], when the package is
      installed; applied to a path it gives width and height, or throws. *)
  image_size : option (string -> result (Z * Z))
}.

(** [v < n] for a number literal [n]: [v] is converted to a number first. *)
Definition js_lt (w : World) (v : jsval) (n : Z) : bool :=
  match v with
  | JNum m => m <? n
  | JBool b => (if b then 1 else 0) <? n
  | JNull => 0 <? n
  | JUndefined => false
  | JStr _ | JArr _ | JObj _ => StringToNumber_lt w (Js.toString v) n
  end.

(** ** What every script declares: [hasFails] and [logStatus] *)

Inductive status : Type := PASS | WARN | FAIL.

Record Finding : Type := { severity : status; message : string }.

(** A line on standard output, a line on standard error, or a finding
    printed by [logStatus]. *)
Inductive event : Type :=
| Out (line : string)
| Err (line : string)
| Logged (f : Finding).

Record state : Type := { console : list event; hasFails : bool }.

Definition initial : state := {| console := []; hasFails := false |}.

(** How a computation ends: it returns, the process leaves through
    [process.exit], or an error is thrown. *)
Inductive outcome (A : Type) : Type :=
| Ret (a : A)
| Exited (code : Z)
| Thrown (message : string).
Arguments Ret {A} a.
Arguments Exited {A} code.
Arguments Thrown {A} message.

Definition M (A : Type) : Type := state -> outcome A * state.

Definition ret {A} (a : A) : M A := fun st => (Ret a, st).

Definition bind {A B} (m : M A) (f : A -> M B) : M B :=
  fun st =>
    match m st with
    | (Ret a, st') => f a st'
    | (Exited c, st') => (Exited c, st')
    | (Thrown e, st') => (Thrown e, st')
    end.

Declare Scope js_scope.
Delimit Scope js_scope with js.
Notation "x <- m ;; k" := (bind m (fun x => k))
  (at level 61, m at next level, right associativity) : js_scope.
Notation "m ;; k" := (bind m (fun _ => k))
  (at level 61, right associativity) : js_scope.
Local Open Scope js_scope.

Definition throw {A} (e : string) : M A := fun st => (Thrown e, st).

Definition process_exit {A} (code : Z) : M A := fun st => (Exited code, st).

(** [try { m } catch (e) { handler(e.message) }]; leaving the process is
    not an error and is not caught. *)
Definition try_catch {A} (m : M A) (handler : string -> M A) : M A :=
  fun st =>
    match m st with
    | (Thrown e, st') => handler e st'
    | r => r
    end.

Definition lift {A} (r : result A) : M A :=
  match r with
  | Ok a => ret a
  | Throws e => throw e
  end.

Definition is_fail (s : status) : bool :=
  match s with FAIL => true | _ => false end.

Definition print (ev : event) : M unit :=
  fun st => (Ret tt, {| console := console st ++ [ev]; hasFails := hasFails st |}).

Definition console_log (line : string) : M unit := print (Out line).
Definition console_error (line : string) : M unit := print (Err line).

Definition logStatus (s : status) (msg : string) : M unit :=
  fun st =>
    (Ret tt,
     {| console := console st ++ [Logged {| severity := s; message := msg |}];
        hasFails := if is_fail s then true else hasFails st |}).

Definition read_hasFails : M bool := fun st => (Ret (hasFails st), st).

(** [v.k]: a [TypeError] when [v] is [null] or [undefined]. *)
Definition prop (v : jsval) (k : string) : M jsval :=
  match v with
  | JUndefined | JNull =>
      throw ("Cannot read properties of " ++ Js.toString v
             ++ " (reading '" ++ k ++ "')")
  | _ => ret (Js.get v k)
  end.

(** The status of the process: the argument of [process.exit]; 1 when an
    error is not caught; 0 when the script runs to its end. *)
Definition exit_status {A} (o : outcome A) : Z :=
  match o with
  | Ret _ => 0
  | Exited c => c
  | Thrown _ => 1
  end.

Definition nl : string := String "010" EmptyString.
Definition dq : string := String "034" EmptyString.
Definition esc : string := String "027" EmptyString.
Definition red (s : string) : string := esc ++ "[31m" ++ s ++ esc ++ "[0m".
Definition green (s : string) : string := esc ++ "[32m" ++ s ++ esc ++ "[0m".
Definition yellow (s : string) : string := esc ++ "[33m" ++ s ++ esc ++ "[0m".
Definition check_mark : string :=
  String "226" (String "156" (String "147" EmptyString)).
(** The same mark as two of the scripts hold it, encoded twice. *)
Definition check_mark_twice : string :=
  String "195" (String "162" (String "197" (String "147"
    (String "226" (String "128" (String "156" EmptyString)))))).

Definition tag (s : status) : string :=
  match s with PASS => "[PASS]" | WARN => "[WARN]" | FAIL => "[FAIL]" end.

Definition colorMap (s : status) : string :=
  match s with
  | PASS => green "[PASS]"
  | WARN => yellow "[WARN]"
  | FAIL => red "[FAIL]"
  end.

(** The text of a console line. *)
Definition line_of (ev : event) : string :=
  match ev with
  | Out l | Err l => l
  | Logged f => colorMap (severity f) ++ " " ++ message f
  end.

Definition findings (evs : list event) : list Finding :=
  flat_map (fun ev => match ev with Logged f => [f] | _ => [] end) evs.

Definition any_fail (evs : list event) : bool :=
  existsb (fun f => is_fail (severity f)) (findings evs).

Definition separator : string :=
  nl ++ "----------------------------------------".

(** [/^(com|br)\.(example|test|demo)\./i.test(s)] *)
Definition invalidDomainRegex_test (s : string) : bool :=
  existsb (fun a =>
    existsb (fun b => Js.starts_with_i (a ++ "." ++ b ++ ".") s)
            ["example"; "test"; "demo"])
    ["com"; "br"].

Definition lockfiles : list string :=
  ["package-lock.json"; "yarn.lock"; "pnpm-lock.yaml"; "bun.lockb"].

(** ** validate_expo_config.js, the revision that parses app.json itself *)

Module DirectParse.

(** [process.argv[2] || path.join(process.cwd(), 'app.json')] *)
Definition appJsonPath (w : World) : string :=
  match argv2 w with
  | Some p => if String.eqb p EmptyString then path_join_cwd w "app.json" else p
  | None => path_join_cwd w "app.json"
  end.

Definition easJsonPath (w : World) : string :=
  match argv3 w with
  | Some p => if String.eqb p EmptyString then path_join_cwd w "eas.json" else p
  | None => path_join_cwd w "eas.json"
  end.

(** 1. Identifiers: the package name. *)
Definition androidPackageRule (androidPackage : jsval) : M unit :=
  if negb (Js.truthy androidPackage) then
    logStatus FAIL "Missing android.package."
  else if invalidDomainRegex_test (Js.toString androidPackage) then
    logStatus FAIL ("Invalid/test android.package: " ++ Js.toString androidPackage)
  else
    logStatus PASS ("Valid android.package: " ++ Js.toString androidPackage).

(** 1. Identifiers: the bundle identifier. *)
Definition iosBundleRule (iosBundle : jsval) : M unit :=
  if negb (Js.truthy iosBundle) then
    logStatus FAIL "Missing ios.bundleIdentifier."
  else if invalidDomainRegex_test (Js.toString iosBundle) then
    logStatus FAIL ("Invalid/test ios.bundleIdentifier: " ++ Js.toString iosBundle)
  else
    logStatus PASS ("Valid ios.bundleIdentifier: " ++ Js.toString iosBundle).

(** 2. Scheme (deep linking). *)
Definition schemeRule (scheme : jsval) : M unit :=
  if negb (Js.truthy scheme) then
    logStatus WARN ("Missing " ++ dq ++ "scheme" ++ dq
                    ++ " property. Deep links/OAuth might not work.")
  else
    logStatus PASS ("Scheme configured: " ++ Js.toString scheme).

(** 3. Runtime version (OTA updates). *)
Definition runtimeVersionRule (w : World) (runtimeVersion : jsval) : M unit :=
  if negb (Js.truthy runtimeVersion) then
    logStatus WARN ("Missing " ++ dq ++ "runtimeVersion" ++ dq
                    ++ ". Required if using EAS Update.")
  else if andb (Js.typeof_object runtimeVersion)
               (Js.strict_eq_str (Js.get runtimeVersion "policy") "fingerprint") then
    logStatus PASS "runtimeVersion configured with fingerprint policy."
  else
    logStatus WARN ("runtimeVersion configured as " ++ dq
                    ++ JSON_stringify w runtimeVersion ++ dq
                    ++ ". Prefer {" ++ dq ++ "policy" ++ dq ++ ": " ++ dq
                    ++ "fingerprint" ++ dq ++ "} for safer OTAs.").

(** 4. Android target SDK. *)
Definition targetSdkRule (w : World) (targetSdk : jsval) : M unit :=
  if negb (Js.truthy targetSdk) then
    logStatus WARN
      "targetSdkVersion not explicitly set. Expo will use the SDK default."
  else if js_lt w targetSdk 35 then
    logStatus FAIL ("targetSdkVersion is " ++ Js.toString targetSdk
                    ++ ". API 35+ is mandatory per recent Play Store rules.")
  else
    logStatus PASS ("Valid targetSdkVersion: " ++ Js.toString targetSdk).

(** 5. New architecture. *)
Definition newArchRule (newArchEnabled : jsval) : M unit :=
  if Js.strict_eq_bool newArchEnabled false then
    logStatus WARN "newArchEnabled is forced to false. Transitioning to Fabric/TurboModules is highly recommended in SDK 55+."
  else
    logStatus PASS "New Architecture (newArchEnabled) is not disabled.".

Definition validateAppJson (w : World) (appJson : jsval) : M unit :=
  console_log (nl ++ "--- Validating app.json ---") ;;
  expo <- prop appJson "expo" ;;
  if negb (Js.truthy expo) then
    logStatus FAIL "'expo' object not found in app.json."
  else
    android <- prop expo "android" ;;
    ios <- prop expo "ios" ;;
    androidPackageRule (Js.get android "package") ;;
    iosBundleRule (Js.get ios "bundleIdentifier") ;;
    scheme <- prop expo "scheme" ;;
    schemeRule scheme ;;
    runtimeVersion <- prop expo "runtimeVersion" ;;
    runtimeVersionRule w runtimeVersion ;;
    android' <- prop expo "android" ;;
    targetSdkRule w (Js.get android' "targetSdkVersion") ;;
    newArchEnabled <- prop expo "newArchEnabled" ;;
    newArchRule newArchEnabled.

Definition validateEasJson (easJson : jsval) : M unit :=
  console_log (nl ++ "--- Validating eas.json ---") ;;
  let prodProfile := Js.get (Js.get easJson "build") "production" in
  if negb (Js.truthy prodProfile) then
    logStatus FAIL (dq ++ "build.production" ++ dq ++ " profile not found in eas.json.")
  else
    autoIncrement <- prop prodProfile "autoIncrement" ;;
    (if negb (Js.strict_eq_bool autoIncrement true) then
       logStatus FAIL "build.production.autoIncrement is not set to true. Builds might overwrite existing versions in the stores."
     else
       logStatus PASS "autoIncrement is active in the production profile.") ;;
    env <- prop prodProfile "env" ;;
    let envVars := Js.or env (JObj []) in
    if (List.length (Js.Object_keys envVars) =? 0)%nat then
      logStatus WARN "No environment variables (env) detected in the production profile. Ensure your base API is not pointing to localhost/staging."
    else
      logStatus PASS ("Environment variables detected: "
                      ++ String.concat ", " (Js.Object_keys envVars)).

Definition critical_failure : string :=
  red ("[!] Critical failure. Run " ++ dq ++ "eas build:configure" ++ dq
       ++ " and try again.") ++ nl.

(** 4. Git working tree status. *)
Definition gitRule (w : World) : M unit :=
  try_catch
    (gitStatus <- lift (git_status_porcelain w) ;;
     if (0 <? String.length (Js.trim gitStatus))%nat then
       logStatus WARN "You have uncommitted Git changes. EAS Build uploads your committed code by default. Uncommitted changes might not be included in the build!"
     else
       logStatus PASS "Git working tree is clean.")
    (fun _ =>
       logStatus WARN "Could not check Git status. Ensure you are in a valid Git repository.").

Definition checkLevelZeroBasics (w : World) (appJson : jsval) : M unit :=
  console_log (nl ++ "--- Level 0: Foundation Checks ---") ;;
  (if negb (fs_existsSync w (easJsonPath w)) then
     logStatus FAIL ("eas.json not found! You must run " ++ dq
                     ++ "eas build:configure" ++ dq ++ " first.") ;;
     console_error critical_failure ;;
     process_exit 1
   else
     logStatus PASS "eas.json exists.") ;;
  expo <- prop appJson "expo" ;;
  let projectId := Js.get (Js.get (Js.get expo "extra") "eas") "projectId" in
  (if negb (Js.truthy projectId) then
     logStatus FAIL ("Missing expo.extra.eas.projectId in app.json. You must run "
                     ++ dq ++ "eas init" ++ dq ++ " to link this project to Expo.")
   else
     logStatus PASS ("Project linked to EAS (ID: " ++ Js.toString projectId ++ ").")) ;;
  let hasLockfile :=
    existsb (fun file => fs_existsSync w (path_join_cwd w file)) lockfiles in
  (if negb hasLockfile then
     logStatus FAIL "No lockfile found (package-lock.json, yarn.lock, etc.). Cloud builds will be unpredictable. Please generate and commit a lockfile."
   else
     logStatus PASS "Lockfile detected.") ;;
  gitRule w.

Definition checkLevelZeroPointFive (w : World) : M unit :=
  console_log (nl ++ "--- Level 0.5: Environment Validation ---") ;;
  (if negb (fs_existsSync w "package.json") then
     logStatus FAIL "package.json not found. Are you in the right directory?" ;;
     process_exit 1
   else ret tt) ;;
  raw <- lift (fs_readFileSync w "package.json") ;;
  pkg <- lift (JSON_parse w raw) ;;
  dependencies <- prop pkg "dependencies" ;;
  noExpo <- (if negb (Js.truthy dependencies) then ret true
             else expo <- prop dependencies "expo" ;; ret (negb (Js.truthy expo))) ;;
  (if noExpo : bool then
     logStatus FAIL ("This does not appear to be an Expo project. Missing "
                     ++ dq ++ "expo" ++ dq ++ " in dependencies.") ;;
     process_exit 1
   else ret tt) ;;
  logStatus PASS ("Expo project detected (found " ++ dq ++ "expo" ++ dq
                  ++ " in package.json dependencies).") ;;
  (if negb (fs_existsSync w "node_modules") then
     logStatus FAIL "node_modules not found. Please run npm/yarn/bun install before running the preflight check." ;;
     process_exit 1
   else ret tt) ;;
  logStatus PASS "node_modules directory found.".

Definition preflight_failed : string :=
  red "[!] Preflight failed. Fix the [FAIL] errors above before running the build." ++ nl.

Definition preflight_succeeded : string :=
  green ("[" ++ check_mark ++ "] Configuration preflight completed successfully.") ++ nl.

(** The summary: the aggregate verdict and the status of the process. *)
Definition summary : M unit :=
  console_log separator ;;
  failed <- read_hasFails ;;
  if failed : bool then
    console_error preflight_failed ;;
    process_exit 1
  else
    console_log preflight_succeeded ;;
    process_exit 0.

(** The first [try] of [run]: app.json is loaded, or the run ends. *)
Definition loadAppJson (w : World) : M jsval :=
  try_catch
    (appJsonRaw <- lift (fs_readFileSync w (appJsonPath w)) ;;
     lift (JSON_parse w appJsonRaw))
    (fun e =>
       logStatus FAIL ("Error reading " ++ appJsonPath w ++ ": " ++ e) ;;
       process_exit 1).

(** [run], in three parts.  First the environment, app.json, the
    foundation checks and the rules on the configuration. *)
Definition configStage (w : World) : M unit :=
  console_log ("Starting Expo Build Preflight..." ++ nl) ;;
  checkLevelZeroPointFive w ;;
  appJson <- loadAppJson w ;;
  checkLevelZeroBasics w appJson ;;
  validateAppJson w appJson.

(** Then eas.json. *)
Definition profileStage (w : World) : M unit :=
  try_catch
    (easJsonRaw <- lift (fs_readFileSync w (easJsonPath w)) ;;
     easJson <- lift (JSON_parse w easJsonRaw) ;;
     validateEasJson easJson)
    (fun e => logStatus FAIL ("Error reading " ++ easJsonPath w ++ ": " ++ e)).

Definition checks (w : World) : M unit := configStage w ;; profileStage w.

(** Then the summary. *)
Definition run (w : World) : M unit := checks w ;; summary.

(** The script: [hasFails] starts [false], then [run()]. *)
Definition main (w : World) : outcome unit * state := run w initial.

End DirectParse.

(** ** validate_expo_config.js, the revision that lets the Expo CLI
       compile the configuration and accepts both of its envelopes *)

Module CompiledResolve.

Definition easJsonPath (w : World) : string :=
  match argv3 w with
  | Some p => if String.eqb p EmptyString then path_join_cwd w "eas.json" else p
  | None => path_join_cwd w "eas.json"
  end.

Definition checkLevelZeroPointFive (w : World) : M unit :=
  console_log (nl ++ "--- Level 0.5: Environment Validation ---") ;;
  (if negb (fs_existsSync w "package.json") then
     logStatus FAIL "package.json not found. Are you in the right directory?" ;;
     process_exit 1
   else ret tt) ;;
  raw <- lift (fs_readFileSync w "package.json") ;;
  pkg <- lift (JSON_parse w raw) ;;
  dependencies <- prop pkg "dependencies" ;;
  noExpo <- (if negb (Js.truthy dependencies) then ret true
             else expo <- prop dependencies "expo" ;; ret (negb (Js.truthy expo))) ;;
  (if noExpo : bool then
     logStatus FAIL ("This does not appear to be an Expo project. Missing "
                     ++ dq ++ "expo" ++ dq ++ " in dependencies.") ;;
     process_exit 1
   else ret tt) ;;
  logStatus PASS ("Expo project detected (found " ++ dq ++ "expo" ++ dq
                  ++ " in dependencies).") ;;
  (if negb (fs_existsSync w "node_modules") then
     logStatus FAIL "node_modules not found. Run npm/yarn/bun install." ;;
     process_exit 1
   else ret tt) ;;
  logStatus PASS "node_modules directory found.".

Definition getResolvedExpoConfig (w : World) : M jsval :=
  console_log (nl ++ "--- Resolving Expo Configuration ---") ;;
  try_catch
    (stdout <- lift (expo_config_json w) ;;
     parsed <- lift (JSON_parse w stdout) ;;
     exp <- prop parsed "exp" ;;
     let expoConfig := Js.or exp parsed in
     noSlug <- (if negb (Js.truthy expoConfig) then ret true
                else slug <- prop expoConfig "slug" ;; ret (negb (Js.truthy slug))) ;;
     if noSlug : bool then throw "Could not parse configuration."
     else
       logStatus PASS "Configuration evaluated successfully." ;;
       ret (JObj [("expo", expoConfig)]))
    (fun _ =>
       logStatus FAIL "Failed to evaluate Expo config. Ensure your app.config.js has no syntax errors." ;;
       process_exit 1).

Definition androidPackageRule (androidPackage : jsval) : M unit :=
  if negb (Js.truthy androidPackage) then
    logStatus FAIL "Missing android.package."
  else if invalidDomainRegex_test (Js.toString androidPackage) then
    logStatus FAIL ("Invalid android.package: " ++ Js.toString androidPackage)
  else
    logStatus PASS ("Valid android.package: " ++ Js.toString androidPackage).

Definition iosBundleRule (iosBundle : jsval) : M unit :=
  if negb (Js.truthy iosBundle) then
    logStatus FAIL "Missing ios.bundleIdentifier."
  else if invalidDomainRegex_test (Js.toString iosBundle) then
    logStatus FAIL ("Invalid ios.bundleIdentifier: " ++ Js.toString iosBundle)
  else
    logStatus PASS ("Valid ios.bundleIdentifier: " ++ Js.toString iosBundle).

Definition schemeRule (scheme : jsval) : M unit :=
  if negb (Js.truthy scheme) then
    logStatus WARN ("Missing " ++ dq ++ "scheme" ++ dq ++ " property.")
  else
    logStatus PASS ("Scheme configured: " ++ Js.toString scheme).

Definition runtimeVersionRule (runtimeVersion : jsval) : M unit :=
  if negb (Js.truthy runtimeVersion) then
    logStatus WARN ("Missing " ++ dq ++ "runtimeVersion" ++ dq ++ ".")
  else if andb (Js.typeof_object runtimeVersion)
               (Js.strict_eq_str (Js.get runtimeVersion "policy") "fingerprint") then
    logStatus PASS "runtimeVersion uses fingerprint policy."
  else
    logStatus WARN ("Prefer {" ++ dq ++ "policy" ++ dq ++ ": " ++ dq
                    ++ "fingerprint" ++ dq ++ "} for runtimeVersion.").

Definition targetSdkRule (w : World) (targetSdk : jsval) : M unit :=
  if negb (Js.truthy targetSdk) then
    logStatus FAIL "targetSdkVersion is missing. API 35 is mandatory."
  else if js_lt w targetSdk 35 then
    logStatus FAIL ("targetSdkVersion is " ++ Js.toString targetSdk
                    ++ ". API 35 is mandatory.")
  else
    logStatus PASS ("Valid targetSdkVersion: " ++ Js.toString targetSdk).

Definition newArchRule (newArchEnabled : jsval) : M unit :=
  if Js.strict_eq_bool newArchEnabled false then
    logStatus WARN "newArchEnabled is false. Fabric is recommended in SDK 55+."
  else
    logStatus PASS "New Architecture not disabled.".

Definition validateAppJson (w : World) (appJson : jsval) : M unit :=
  console_log (nl ++ "--- Validating Config Rules ---") ;;
  expo <- prop appJson "expo" ;;
  android <- prop expo "android" ;;
  ios <- prop expo "ios" ;;
  androidPackageRule (Js.get android "package") ;;
  iosBundleRule (Js.get ios "bundleIdentifier") ;;
  scheme <- prop expo "scheme" ;;
  schemeRule scheme ;;
  runtimeVersion <- prop expo "runtimeVersion" ;;
  runtimeVersionRule runtimeVersion ;;
  android' <- prop expo "android" ;;
  targetSdkRule w (Js.get android' "targetSdkVersion") ;;
  newArchEnabled <- prop expo "newArchEnabled" ;;
  newArchRule newArchEnabled.

Definition validateEasJson (easJson : jsval) : M unit :=
  console_log (nl ++ "--- Validating eas.json ---") ;;
  let prodProfile := Js.get (Js.get easJson "build") "production" in
  if negb (Js.truthy prodProfile) then
    logStatus FAIL (dq ++ "build.production" ++ dq ++ " profile not found in eas.json.")
  else
    autoIncrement <- prop prodProfile "autoIncrement" ;;
    (if negb (Js.strict_eq_bool autoIncrement true) then
       logStatus FAIL "build.production.autoIncrement is not true."
     else
       logStatus PASS "autoIncrement is active in production.") ;;
    env <- prop prodProfile "env" ;;
    let envVars := Js.or env (JObj []) in
    if (List.length (Js.Object_keys envVars) =? 0)%nat then
      logStatus WARN "No env variables detected in production profile."
    else
      logStatus PASS ("Environment variables detected: "
                      ++ String.concat ", " (Js.Object_keys envVars)).

Definition checkLevelZeroBasics (w : World) (appJson : jsval) : M unit :=
  console_log (nl ++ "--- Level 0: Foundation Checks ---") ;;
  (if negb (fs_existsSync w (easJsonPath w)) then
     logStatus FAIL "eas.json not found!" ;;
     process_exit 1
   else
     logStatus PASS "eas.json exists.") ;;
  expo <- prop appJson "expo" ;;
  let projectId := Js.get (Js.get (Js.get expo "extra") "eas") "projectId" in
  (if negb (Js.truthy projectId) then
     logStatus FAIL "Missing expo.extra.eas.projectId."
   else
     logStatus PASS ("Project linked to EAS (ID: " ++ Js.toString projectId ++ ").")) ;;
  if negb (existsb (fun f => fs_existsSync w (path_join_cwd w f)) lockfiles) then
    logStatus FAIL "No lockfile found."
  else
    logStatus PASS "Lockfile detected.".

Definition preflight_failed : string :=
  red "[!] Preflight failed. Fix errors above." ++ nl.

Definition preflight_succeeded : string :=
  green ("[" ++ check_mark_twice ++ "] Preflight successful.") ++ nl.

Definition summary : M unit :=
  console_log separator ;;
  failed <- read_hasFails ;;
  if failed : bool then
    console_error preflight_failed ;;
    process_exit 1
  else
    console_log preflight_succeeded ;;
    process_exit 0.

(** [run], in three parts, as for the other revision. *)
Definition configStage (w : World) : M unit :=
  console_log ("Starting Expo Build Preflight..." ++ nl) ;;
  checkLevelZeroPointFive w ;;
  appJson <- getResolvedExpoConfig w ;;
  checkLevelZeroBasics w appJson ;;
  validateAppJson w appJson.

Definition profileStage (w : World) : M unit :=
  try_catch
    (easJsonRaw <- lift (fs_readFileSync w (easJsonPath w)) ;;
     easJson <- lift (JSON_parse w easJsonRaw) ;;
     validateEasJson easJson)
    (fun e => logStatus FAIL ("Error reading eas.json: " ++ e)).

Definition checks (w : World) : M unit := configStage w ;; profileStage w.

Definition run (w : World) : M unit := checks w ;; summary.

Definition main (w : World) : outcome unit * state := run w initial.

End CompiledResolve.

(** ** check_assets.js *)

Module CheckAssets.

Definition appJsonPath (w : World) : string :=
  match argv2 w with
  | Some p => if String.eqb p EmptyString then path_join_cwd w "app.json" else p
  | None => path_join_cwd w "app.json"
  end.

Definition image_size_missing : string :=
  "The 'image-size' package is not installed. File dimensions will not be checked. Run 'npm install --save-dev image-size' for full validation.".

(** The statements before [run()]: [sizeOf] is loaded, or stays
    [undefined] and one warning says so. *)
Definition load_sizeOf (w : World) : M unit :=
  match image_size w with
  | Some _ => ret tt
  | None => logStatus WARN image_size_missing
  end.

Definition file_not_found (name filePath : string) : string :=
  "[" ++ name ++ "] File not found at path: " ++ filePath.

Definition file_exists (name filePath : string) : string :=
  "[" ++ name ++ "] File exists: " ++ filePath.

(** [path.join] throws on an argument that is not a string. *)
Definition checkFileExistence (w : World) (filePath : jsval) (name : string)
  : M jsval :=
  match filePath with
  | JStr p =>
      let fullPath := path_join_cwd w p in
      if negb (fs_existsSync w fullPath) then
        logStatus FAIL (file_not_found name p) ;;
        ret JNull
      else
        logStatus PASS (file_exists name p) ;;
        ret (JStr fullPath)
  | _ =>
      throw ("The " ++ dq ++ "path" ++ dq ++ " argument must be of type string.")
  end.

Definition invalid_dimensions (name : string) (requiredWidth requiredHeight : Z)
  (width height : Z) : string :=
  "[" ++ name ++ "] Invalid dimensions. Expected "
  ++ Js.string_of_Z requiredWidth ++ "x" ++ Js.string_of_Z requiredHeight
  ++ ", got " ++ Js.string_of_Z width ++ "x" ++ Js.string_of_Z height ++ ".".

Definition dimensions_correct (name : string) (requiredWidth requiredHeight : Z)
  : string :=
  "[" ++ name ++ "] Dimensions are correct ("
  ++ Js.string_of_Z requiredWidth ++ "x" ++ Js.string_of_Z requiredHeight ++ ").".

Definition dimensions_unreadable (name e : string) : string :=
  "[" ++ name ++ "] Could not parse image dimensions. Ensure it is a valid image file. Error: " ++ e.

Definition checkDimensions (w : World) (filePath : jsval) (name : string)
  (requiredWidth requiredHeight : Z) : M unit :=
  match image_size w with
  | None => ret tt
  | Some sizeOf =>
      if negb (Js.truthy filePath) then ret tt
      else
        try_catch
          (dimensions <- lift (sizeOf (Js.toString filePath)) ;;
           let '(width, height) := dimensions in
           if orb (negb (width =? requiredWidth)) (negb (height =? requiredHeight)) then
             logStatus FAIL
               (invalid_dimensions name requiredWidth requiredHeight width height)
           else
             logStatus PASS (dimensions_correct name requiredWidth requiredHeight))
          (fun e => logStatus FAIL (dimensions_unreadable name e))
  end.

(** 1. General icon. *)
Definition globalIconCheck (w : World) (expo : jsval) : M unit :=
  icon <- prop expo "icon" ;;
  if Js.truthy icon then
    iconPath <- checkFileExistence w icon "Global Icon" ;;
    checkDimensions w iconPath "Global Icon" 1024 1024
  else
    logStatus FAIL ("Missing global " ++ dq ++ "icon" ++ dq ++ " in app.json.").

(** 2. Splash screen. *)
Definition splashCheck (w : World) (expo : jsval) : M unit :=
  splash <- prop expo "splash" ;;
  if andb (Js.truthy splash) (Js.truthy (Js.get splash "image")) then
    checkFileExistence w (Js.get splash "image") "Splash Screen" ;;
    ret tt
  else
    logStatus WARN "No custom splash screen image configured.".

Definition foregroundCheck (w : World) (androidIcon : jsval) : M unit :=
  if Js.truthy (Js.get androidIcon "foregroundImage") then
    fgPath <- checkFileExistence w (Js.get androidIcon "foregroundImage")
                "Android Foreground Image" ;;
    checkDimensions w fgPath "Android Foreground Image" 1024 1024
  else
    logStatus WARN "Missing foregroundImage for Android adaptive icon.".

Definition background_required : string :=
  "Android Adaptive Icon requires either a backgroundColor or a backgroundImage to prevent transparency issues (black backgrounds).".

Definition backgroundCheck (w : World) (androidIcon : jsval) : M unit :=
  if Js.truthy (Js.get androidIcon "backgroundColor") then
    logStatus PASS ("Android Adaptive Icon background color is set: "
                    ++ Js.toString (Js.get androidIcon "backgroundColor"))
  else if Js.truthy (Js.get androidIcon "backgroundImage") then
    bgPath <- checkFileExistence w (Js.get androidIcon "backgroundImage")
                "Android Background Image" ;;
    checkDimensions w bgPath "Android Background Image" 1024 1024
  else
    logStatus FAIL background_required.

(** 3. Android adaptive icon. *)
Definition adaptiveIconCheck (w : World) (expo : jsval) : M unit :=
  android <- prop expo "android" ;;
  let androidIcon := Js.get android "adaptiveIcon" in
  if Js.truthy androidIcon then
    foregroundCheck w androidIcon ;;
    backgroundCheck w androidIcon
  else
    logStatus WARN "No Android adaptiveIcon configured. The app will use the default square/circle crop.".

(** 4. iOS icon. *)
Definition iosIconCheck (w : World) (expo : jsval) : M unit :=
  ios <- prop expo "ios" ;;
  if Js.truthy (Js.get ios "icon") then
    iosPath <- checkFileExistence w (Js.get ios "icon") "iOS Specific Icon" ;;
    checkDimensions w iosPath "iOS Specific Icon" 1024 1024
  else ret tt.

Definition validation_failed : string :=
  red "[!] Asset validation failed. Please fix the [FAIL] issues above." ++ nl.

Definition validation_succeeded : string :=
  green ("[" ++ check_mark_twice ++ "] Asset preflight completed successfully.") ++ nl.

Definition summary : M unit :=
  console_log separator ;;
  failed <- read_hasFails ;;
  if failed : bool then
    console_error validation_failed ;;
    process_exit 1
  else
    console_log validation_succeeded ;;
    process_exit 0.

Definition loadConfig (w : World) : M jsval :=
  (if negb (fs_existsSync w (appJsonPath w)) then
     logStatus FAIL ("app.json not found at " ++ appJsonPath w) ;;
     process_exit 1
   else ret tt) ;;
  appJsonRaw <- lift (fs_readFileSync w (appJsonPath w)) ;;
  appJson <- try_catch (lift (JSON_parse w appJsonRaw))
               (fun _ => logStatus FAIL "Invalid app.json format." ;; process_exit 1) ;;
  expo <- prop appJson "expo" ;;
  if negb (Js.truthy expo) then
    logStatus FAIL ("Missing " ++ dq ++ "expo" ++ dq ++ " object in app.json.") ;;
    process_exit 1
  else ret expo.

Definition checks (w : World) : M unit :=
  console_log ("--- Validating Expo Assets ---" ++ nl) ;;
  expo <- loadConfig w ;;
  globalIconCheck w expo ;;
  splashCheck w expo ;;
  adaptiveIconCheck w expo ;;
  iosIconCheck w expo.

Definition run (w : World) : M unit := checks w ;; summary.

(** The script: [hasFails] starts [false], [sizeOf] is loaded, then
    [run()]. *)
Definition main (w : World) : outcome unit * state :=
  (load_sizeOf w ;; run w) initial.

End CheckAssets.

(** ** check_assets.js, the revision that lets the Expo CLI compile the
       configuration *)

Module CheckAssetsCompiled.

Definition image_size_missing : string :=
  "The 'image-size' package is not installed. File dimensions will not be checked.".

Definition load_sizeOf (w : World) : M unit :=
  match image_size w with
  | Some _ => ret tt
  | None => logStatus WARN image_size_missing
  end.

(** [filePath.replace(/^\.\//, '')]: one leading [./] is dropped. *)
Definition strip_dot_slash (filePath : string) : string :=
  match filePath with
  | String "." (String "/" rest) => rest
  | _ => filePath
  end.

Definition file_not_found (name filePath : string) : string :=
  "[" ++ name ++ "] File not found at path: " ++ filePath.

Definition file_exists (name filePath : string) : string :=
  "[" ++ name ++ "] File exists: " ++ filePath.

(** A value that is not a string has no [replace]: calling it throws. *)
Definition checkFileExistence (w : World) (filePath : jsval) (name : string)
  : M jsval :=
  match filePath with
  | JStr p =>
      let fullPath := path_join_cwd w (strip_dot_slash p) in
      if negb (fs_existsSync w fullPath) then
        logStatus FAIL (file_not_found name p) ;;
        ret JNull
      else
        logStatus PASS (file_exists name p) ;;
        ret (JStr fullPath)
  | _ => throw "filePath.replace is not a function"
  end.

Definition invalid_dimensions (name : string) (requiredWidth requiredHeight : Z)
  (width height : Z) : string :=
  "[" ++ name ++ "] Invalid dimensions. Expected "
  ++ Js.string_of_Z requiredWidth ++ "x" ++ Js.string_of_Z requiredHeight
  ++ ", got " ++ Js.string_of_Z width ++ "x" ++ Js.string_of_Z height ++ ".".

Definition dimensions_correct (name : string) (requiredWidth requiredHeight : Z)
  : string :=
  "[" ++ name ++ "] Dimensions correct ("
  ++ Js.string_of_Z requiredWidth ++ "x" ++ Js.string_of_Z requiredHeight ++ ").".

Definition dimensions_unreadable (name e : string) : string :=
  "[" ++ name ++ "] Could not parse dimensions. Error: " ++ e.

Definition checkDimensions (w : World) (filePath : jsval) (name : string)
  (requiredWidth requiredHeight : Z) : M unit :=
  match image_size w with
  | None => ret tt
  | Some sizeOf =>
      if negb (Js.truthy filePath) then ret tt
      else
        try_catch
          (dimensions <- lift (sizeOf (Js.toString filePath)) ;;
           let '(width, height) := dimensions in
           if orb (negb (width =? requiredWidth)) (negb (height =? requiredHeight)) then
             logStatus FAIL
               (invalid_dimensions name requiredWidth requiredHeight width height)
           else
             logStatus PASS (dimensions_correct name requiredWidth requiredHeight))
          (fun e => logStatus FAIL (dimensions_unreadable name e))
  end.

(** The [try] of [run]: the configuration, under either envelope. *)
Definition loadConfig (w : World) : M jsval :=
  try_catch
    (stdout <- lift (expo_config_json w) ;;
     parsed <- lift (JSON_parse w stdout) ;;
     exp <- prop parsed "exp" ;;
     ret (Js.or exp parsed))
    (fun _ =>
       logStatus FAIL "Failed to compile Expo config. Fix syntax errors in app.config.js first." ;;
       process_exit 1).

Definition globalIconCheck (w : World) (expo : jsval) : M unit :=
  icon <- prop expo "icon" ;;
  if Js.truthy icon then
    iconPath <- checkFileExistence w icon "Global Icon" ;;
    checkDimensions w iconPath "Global Icon" 1024 1024
  else
    logStatus FAIL ("Missing global " ++ dq ++ "icon" ++ dq ++ " in config.").

Definition splashCheck (w : World) (expo : jsval) : M unit :=
  splash <- prop expo "splash" ;;
  if andb (Js.truthy splash) (Js.truthy (Js.get splash "image")) then
    checkFileExistence w (Js.get splash "image") "Splash Screen" ;;
    ret tt
  else
    logStatus WARN "No custom splash screen image configured.".

Definition foregroundCheck (w : World) (androidIcon : jsval) : M unit :=
  if Js.truthy (Js.get androidIcon "foregroundImage") then
    fgPath <- checkFileExistence w (Js.get androidIcon "foregroundImage")
                "Android Foreground" ;;
    checkDimensions w fgPath "Android Foreground" 1024 1024
  else
    logStatus WARN "Missing foregroundImage for Android adaptive icon.".

Definition backgroundCheck (w : World) (androidIcon : jsval) : M unit :=
  if Js.truthy (Js.get androidIcon "backgroundColor") then
    logStatus PASS ("Android Adaptive Icon background color: "
                    ++ Js.toString (Js.get androidIcon "backgroundColor"))
  else if Js.truthy (Js.get androidIcon "backgroundImage") then
    bgPath <- checkFileExistence w (Js.get androidIcon "backgroundImage")
                "Android Background" ;;
    checkDimensions w bgPath "Android Background" 1024 1024
  else
    logStatus FAIL "Android Adaptive Icon needs backgroundColor or backgroundImage.".

(** This revision says nothing when there is no adaptive icon. *)
Definition adaptiveIconCheck (w : World) (expo : jsval) : M unit :=
  android <- prop expo "android" ;;
  let androidIcon := Js.get android "adaptiveIcon" in
  if Js.truthy androidIcon then
    foregroundCheck w androidIcon ;;
    backgroundCheck w androidIcon
  else ret tt.

Definition iosIconCheck (w : World) (expo : jsval) : M unit :=
  ios <- prop expo "ios" ;;
  if Js.truthy (Js.get ios "icon") then
    iosPath <- checkFileExistence w (Js.get ios "icon") "iOS Specific Icon" ;;
    checkDimensions w iosPath "iOS Specific Icon" 1024 1024
  else ret tt.

Definition validation_failed : string :=
  red "[!] Asset validation failed. Please fix issues above." ++ nl.

Definition validation_succeeded : string :=
  green ("[" ++ check_mark_twice ++ "] Asset preflight completed successfully.") ++ nl.

Definition summary : M unit :=
  console_log separator ;;
  failed <- read_hasFails ;;
  if failed : bool then
    console_error validation_failed ;;
    process_exit 1
  else
    console_log validation_succeeded ;;
    process_exit 0.

Definition checks (w : World) : M unit :=
  console_log ("--- Validating Expo Assets ---" ++ nl) ;;
  expo <- loadConfig w ;;
  globalIconCheck w expo ;;
  splashCheck w expo ;;
  adaptiveIconCheck w expo ;;
  iosIconCheck w expo.

Definition run (w : World) : M unit := checks w ;; summary.

Definition main (w : World) : outcome unit * state :=
  (load_sizeOf w ;; run w) initial.

End CheckAssetsCompiled.

(** ** validate_expo_config.js, the revision that wants the wrapped envelope *)

Module WrappedResolve.

Definition getResolvedExpoConfig (w : World) : M jsval :=
  console_log (nl ++ "--- Resolving Expo Configuration ---") ;;
  try_catch
    (stdout <- lift (expo_config_json w) ;;
     parsed <- lift (JSON_parse w stdout) ;;
     exp <- prop parsed "exp" ;;
     if negb (Js.truthy exp) then
       throw ("Could not find " ++ dq ++ "exp" ++ dq ++ " object in compiled config.")
     else
       logStatus PASS "Configuration evaluated successfully (supports app.config.js/ts)." ;;
       ret (JObj [("expo", exp)]))
    (fun _ =>
       logStatus FAIL "Failed to evaluate Expo config. Ensure your app.config.js has no syntax errors." ;;
       process_exit 1).

End WrappedResolve.

(** ** A sample project *)

Module Sample.

Definition pkg : jsval :=
  JObj [("dependencies", JObj [("expo", JStr "~55.0.0")])].

(** The configuration of the end-to-end scenario, with the Android
    section [android]. *)
Definition expo_with (android : jsval) : jsval :=
  JObj [("slug", JStr "acme");
        ("scheme", JStr "myapp");
        ("icon", JStr "assets/icon.png");
        ("runtimeVersion", JObj [("policy", JStr "fingerprint")]);
        ("android", android);
        ("ios", JObj [("bundleIdentifier", JStr "com.acme.app")]);
        ("extra", JObj [("eas", JObj [("projectId", JStr "4f1c")])])].

Definition android : jsval :=
  JObj [("package", JStr "com.acme.app"); ("targetSdkVersion", JNum 35)].

Definition app_with (android : jsval) : jsval :=
  JObj [("expo", expo_with android)].

Definition app : jsval := app_with android.

Definition eas_with (autoIncrement : bool) : jsval :=
  JObj [("build",
         JObj [("production",
                JObj [("autoIncrement", JBool autoIncrement);
                      ("env", JObj [("API_URL", JStr "https://x")])])])].

Definition eas : jsval := eas_with true.

Definition one_of (l : list string) (p : string) : bool :=
  existsb (String.eqb p) l.

(** A project in the directory [/project]: its files are [files]; the
    text of a file stands for itself under its path, and the documents
    [app.json], [eas.json] and the output of the Expo CLI parse to [app],
    [eas] and [compiled], or fail to. *)
Definition project (files : list string) (app eas compiled : result jsval)
  (git : result string) (sizeOf : option (string -> result (Z * Z))) : World :=
  {| argv2 := None;
     argv3 := None;
     path_join_cwd := fun p => "/project/" ++ p;
     fs_existsSync := one_of files;
     fs_readFileSync := fun p =>
       if one_of files p then Ok p else Throws "ENOENT: no such file or directory";
     JSON_parse := fun raw =>
       if String.eqb raw "package.json" then Ok pkg
       else if String.eqb raw "/project/app.json" then app
       else if String.eqb raw "/project/eas.json" then eas
       else if String.eqb raw "expo config" then compiled
       else Throws "Unexpected end of JSON input";
     JSON_stringify := Js.toString;
     StringToNumber_lt := fun _ _ => false;
     git_status_porcelain := git;
     expo_config_json := Ok "expo config";
     image_size := sizeOf |}.

Definition all_files : list string :=
  ["package.json"; "node_modules"; "/project/app.json"; "/project/eas.json";
   "/project/package-lock.json"; "/project/assets/icon.png"].

Definition square_1024 : option (string -> result (Z * Z)) :=
  Some (fun _ => Ok (1024, 1024)).

(** The end-to-end scenario that passes. *)
Definition acme : World :=
  project all_files (Ok app) (Ok eas) (Ok (JObj [("exp", expo_with android)]))
    (Ok EmptyString) square_1024.

End Sample.

(** ** Notions used in the statements *)

(** The state after the events [evs] have been printed. *)
Definition emit (evs : list event) (st : state) : state :=
  {| console := console st ++ evs;
     hasFails := orb (hasFails st) (any_fail evs) |}.

(** Whatever the state it starts in, [m] only prints events that satisfy
    [P], keeps [hasFails] in step with them, and leaves the process only
    with a code that satisfies [E]. *)
Definition traced {A} (P : event -> Prop) (E : Z -> Prop) (m : M A) : Prop :=
  forall st, exists evs,
    snd (m st) = emit evs st /\ Forall P evs /\
    (forall c, fst (m st) = Exited c -> E c).

(** [m] returns [a] after printing exactly [evs]. *)
Definition yields {A} (m : M A) (a : A) (evs : list event) : Prop :=
  forall st, m st = (Ret a, emit evs st).

(** [m] returns, whatever the state it starts in. *)
Definition returns {A} (m : M A) : Prop := exists a evs, yields m a evs.

(** [m] returns after printing one finding. *)
Definition one_finding (m : M unit) : Prop :=
  exists f, yields m tt [Logged f].

Definition finding (s : status) (msg : string) : event :=
  Logged {| severity := s; message := msg |}.

Definition is_nullish (v : jsval) : bool :=
  match v with JUndefined | JNull => true | _ => false end.

(** The two lines that state the aggregate verdict of a script: [failed]
    goes to standard error, [ok] to standard output. *)
Definition is_verdict (failed ok : string) (ev : event) : bool :=
  match ev with
  | Err l => String.eqb l failed
  | Out l => String.eqb l ok
  | Logged _ => false
  end.

Definition stderr_has (line : string) (evs : list event) : bool :=
  existsb (fun ev => match ev with Err l => String.eqb l line | _ => false end) evs.

Definition stdout_has (line : string) (evs : list event) : bool :=
  existsb (fun ev => match ev with Out l => String.eqb l line | _ => false end) evs.

(** The verdict a console shows: [Some FAIL], [Some PASS], or [None] when
    the run was cut short before the summary. *)
Definition verdict (failed ok : string) (evs : list event) : option status :=
  if stderr_has failed evs then Some FAIL
  else if stdout_has ok evs then Some PASS
  else None.

Definition has_FAIL (evs : list event) : Prop :=
  exists msg, In (finding FAIL msg) evs.

(** The end of [run] in every script. *)
Definition summary_of (failed ok : string) : M unit :=
  (console_log separator ;;
   f <- read_hasFails ;;
   if f : bool then console_error failed ;; process_exit 1
   else console_log ok ;; process_exit 0)%js.

(** What the aggregation promises of the result [r] of a script. *)
Definition aggregates (failed ok : string) (r : outcome unit * state) : Prop :=
  let st := snd r in
  (hasFails st = true <-> has_FAIL (console st)) /\
  (forall v, verdict failed ok (console st) = Some v ->
             v <> WARN /\ (v = FAIL <-> has_FAIL (console st))) /\
  (exit_status (fst r) = 0 <->
   ~ has_FAIL (console st) /\ verdict failed ok (console st) <> None).

(** The reserved prefixes, spelled out. *)
Definition reserved_prefixes : list string :=
  ["com.example."; "com.test."; "com.demo.";
   "br.example."; "br.test."; "br.demo."].

(** [f] is what the target SDK rule contributes to [validateAppJson]: the
    fifth of its six findings. *)
Definition DirectParse_targetSdk_finding (w : World) (appJson : jsval)
  (f : Finding) : Prop :=
  exists f1 f2 f3 f4 f6,
    yields (DirectParse.validateAppJson w appJson) tt
      [Out (nl ++ "--- Validating app.json ---");
       Logged f1; Logged f2; Logged f3; Logged f4; Logged f; Logged f6].

Definition CompiledResolve_targetSdk_finding (w : World) (appJson : jsval)
  (f : Finding) : Prop :=
  exists f1 f2 f3 f4 f6,
    yields (CompiledResolve.validateAppJson w appJson) tt
      [Out (nl ++ "--- Validating Config Rules ---");
       Logged f1; Logged f2; Logged f3; Logged f4; Logged f; Logged f6].

(** The warning that [check_assets.js] prints when it cannot load
    image-size. *)
Definition is_image_size_warning (ev : event) : bool :=
  match ev with
  | Logged f =>
      match severity f with
      | WARN => String.eqb (message f) CheckAssets.image_size_missing
      | _ => false
      end
  | _ => false
  end.

(** The names under which [check_assets.js] reports on image files. *)
Definition asset_names : list string :=
  ["Global Icon"; "Splash Screen"; "Android Foreground Image";
   "Android Background Image"; "iOS Specific Icon"].

(** A finding that [checkDimensions] can print about one of the assets. *)
Definition dimension_finding (f : Finding) : Prop :=
  exists name, In name asset_names /\
    ((exists rw rh width height,
        message f = CheckAssets.invalid_dimensions name rw rh width height) \/
     (exists rw rh, message f = CheckAssets.dimensions_correct name rw rh) \/
     (exists e, message f = CheckAssets.dimensions_unreadable name e)).

(** What [checkFileExistence] prints about the path [p]. *)
Definition existence_finding (w : World) (p name : string) : event :=
  if fs_existsSync w (path_join_cwd w p)
  then finding PASS (CheckAssets.file_exists name p)
  else finding FAIL (CheckAssets.file_not_found name p).

(** The image files a configuration refers to, with the names under which
    [check_assets.js] reports on them: the icon, the splash image, the
    foreground of the adaptive icon, its background image when no
    background colour is set, and the iOS icon. *)
Definition referenced_assets (expo : jsval) : list (jsval * string) :=
  let androidIcon := Js.get (Js.get expo "android") "adaptiveIcon" in
  filter (fun r => Js.truthy (fst r))
    ([(Js.get expo "icon", "Global Icon");
      (Js.get (Js.get expo "splash") "image", "Splash Screen")]
     ++ (if Js.truthy androidIcon then
           (Js.get androidIcon "foregroundImage", "Android Foreground Image")
           :: (if Js.truthy (Js.get androidIcon "backgroundColor") then []
               else [(Js.get androidIcon "backgroundImage",
                      "Android Background Image")])
         else [])
     ++ [(Js.get (Js.get expo "ios") "icon", "iOS Specific Icon")])%list.

(** A reference to a file is a string, when there is one. *)
Definition path_or_absent (v : jsval) : bool :=
  match v with
  | JStr _ => true
  | _ => negb (Js.truthy v)
  end.

Definition paths_are_strings (expo : jsval) : Prop :=
  let androidIcon := Js.get (Js.get expo "android") "adaptiveIcon" in
  path_or_absent (Js.get expo "icon") = true /\
  path_or_absent (Js.get (Js.get expo "splash") "image") = true /\
  path_or_absent (Js.get androidIcon "foregroundImage") = true /\
  path_or_absent (Js.get androidIcon "backgroundImage") = true /\
  path_or_absent (Js.get (Js.get expo "ios") "icon") = true.

(** The environment checks of Level 0.5 pass: package.json is there and
    lists expo among its dependencies, and node_modules is there. *)
Definition environment_ok (w : World) : Prop :=
  fs_existsSync w "package.json" = true /\
  fs_existsSync w "node_modules" = true /\
  exists raw pkg,
    fs_readFileSync w "package.json" = Ok raw /\
    JSON_parse w raw = Ok pkg /\
    Js.truthy (Js.get (Js.get pkg "dependencies") "expo") = true.

(** [JSON.parse(fs.readFileSync(path, 'utf-8'))] *)
Definition read_json (w : World) (path : string) : result jsval :=
  match fs_readFileSync w path with
  | Ok raw => JSON_parse w raw
  | Throws e => Throws e
  end.

(** The fatal preconditions of the specification. *)
Inductive fatal : Type :=
| ConfigMissing
| ConfigMalformed
| ProfileMissing
| ProfileMalformed
| ExternalResolveFailure.

(** The fatal precondition that the direct-parse revision meets first, if
    any, once the environment checks have passed: app.json cannot be read,
    or not parsed; eas.json is not there; eas.json is there but cannot be
    read or parsed. *)
Definition DirectParse_fatal (w : World) : option fatal :=
  match fs_readFileSync w (DirectParse.appJsonPath w) with
  | Throws _ => Some ConfigMissing
  | Ok raw =>
      match JSON_parse w raw with
      | Throws _ => Some ConfigMalformed
      | Ok _ =>
          if negb (fs_existsSync w (DirectParse.easJsonPath w)) then
            Some ProfileMissing
          else
            match read_json w (DirectParse.easJsonPath w) with
            | Throws _ => Some ProfileMalformed
            | Ok _ => None
            end
      end
  end.

(** The compiled-resolve revision: the Expo CLI fails, or its output
    cannot be parsed. *)
Definition CompiledResolve_fatal (w : World) : option fatal :=
  match expo_config_json w with
  | Throws _ => Some ExternalResolveFailure
  | Ok stdout =>
      match JSON_parse w stdout with
      | Throws _ => Some ExternalResolveFailure
      | Ok _ => None
      end
  end.

(** What either revision prints before it looks for a configuration. *)
Definition DirectParse_preamble : list event :=
  [Out ("Starting Expo Build Preflight..." ++ nl);
   Out (nl ++ "--- Level 0.5: Environment Validation ---");
   finding PASS ("Expo project detected (found " ++ dq ++ "expo" ++ dq
                 ++ " in package.json dependencies).");
   finding PASS "node_modules directory found."].

Definition CompiledResolve_preamble : list event :=
  [Out ("Starting Expo Build Preflight..." ++ nl);
   Out (nl ++ "--- Level 0.5: Environment Validation ---");
   finding PASS ("Expo project detected (found " ++ dq ++ "expo" ++ dq
                 ++ " in dependencies).");
   finding PASS "node_modules directory found."].

(** ** Notions used in the further properties *)

(** A result that can no longer end in success: the flag is set, or the
    process has left with status 1, or an error is on its way up. *)
Definition doomed {A} (r : outcome A * state) : Prop :=
  match fst r with
  | Ret _ => hasFails (snd r) = true
  | Exited c => c = 1
  | Thrown _ => True
  end.

(** The process is gone: it has left with status 1, or an error is on
    its way up. *)
Definition aborted {A} (o : outcome A) : Prop :=
  match o with
  | Ret _ => False
  | Exited c => c = 1
  | Thrown _ => True
  end.

(** An identifier that the identity rules accept. *)
Definition identifier_ok (v : jsval) : bool :=
  andb (Js.truthy v) (negb (invalidDomainRegex_test (Js.toString v))).

(** The direct-parse revision lets a target SDK through when it is absent
    (or otherwise falsy) or not below 35. *)
Definition DirectParse_targetSdk_ok (w : World) (v : jsval) : bool :=
  negb (andb (Js.truthy v) (js_lt w v 35)).

Definition CompiledResolve_targetSdk_ok (w : World) (v : jsval) : bool :=
  andb (Js.truthy v) (negb (js_lt w v 35)).

Definition has_lockfile (w : World) : bool :=
  existsb (fun file => fs_existsSync w (path_join_cwd w file)) lockfiles.

(** The production profile is there and [autoIncrement] is [true]. *)
Definition profile_ok (easJson : jsval) : bool :=
  let prodProfile := Js.get (Js.get easJson "build") "production" in
  andb (Js.truthy prodProfile)
       (Js.strict_eq_bool (Js.get prodProfile "autoIncrement") true).

(** The rules on the configuration, taken together. *)
Definition DirectParse_config_ok (w : World) (appJson : jsval) : bool :=
  let expo := Js.get appJson "expo" in
  andb (Js.truthy expo)
    (andb (identifier_ok (Js.get (Js.get expo "android") "package"))
       (andb (identifier_ok (Js.get (Js.get expo "ios") "bundleIdentifier"))
          (DirectParse_targetSdk_ok w
             (Js.get (Js.get expo "android") "targetSdkVersion")))).

(** The foundation checks that can fail: the project is linked and a
    lockfile is there. *)
Definition foundation_ok (w : World) (appJson : jsval) : bool :=
  andb (Js.truthy (Js.get (Js.get (Js.get (Js.get appJson "expo") "extra") "eas")
                     "projectId"))
       (has_lockfile w).

(** Everything that the direct-parse revision wants of a project. *)
Definition DirectParse_passes (w : World) : Prop :=
  environment_ok w /\
  exists appJson easJson,
    read_json w (DirectParse.appJsonPath w) = Ok appJson /\
    fs_existsSync w (DirectParse.easJsonPath w) = true /\
    read_json w (DirectParse.easJsonPath w) = Ok easJson /\
    let expo := Js.get appJson "expo" in
    Js.truthy expo = true /\
    Js.truthy (Js.get (Js.get (Js.get expo "extra") "eas") "projectId") = true /\
    has_lockfile w = true /\
    identifier_ok (Js.get (Js.get expo "android") "package") = true /\
    identifier_ok (Js.get (Js.get expo "ios") "bundleIdentifier") = true /\
    DirectParse_targetSdk_ok w
      (Js.get (Js.get expo "android") "targetSdkVersion") = true /\
    profile_ok easJson = true.

(** The severities of the rule table, rule by rule. *)
Definition identity_severity (v : jsval) : status :=
  if identifier_ok v then PASS else FAIL.

Definition scheme_severity (v : jsval) : status :=
  if Js.truthy v then PASS else WARN.

Definition runtimeVersion_severity (v : jsval) : status :=
  if andb (Js.truthy v)
       (andb (Js.typeof_object v)
          (Js.strict_eq_str (Js.get v "policy") "fingerprint"))
  then PASS else WARN.

Definition newArch_severity (v : jsval) : status :=
  if Js.strict_eq_bool v false then WARN else PASS.

Definition DirectParse_targetSdk_severity (w : World) (v : jsval) : status :=
  if negb (Js.truthy v) then WARN
  else if js_lt w v 35 then FAIL else PASS.

Definition CompiledResolve_targetSdk_severity (w : World) (v : jsval) : status :=
  if CompiledResolve_targetSdk_ok w v then PASS else FAIL.

(** The six severities of the rules on a configuration, with [sdk] for
    the target SDK rule. *)
Definition config_severities (sdk : status) (expo : jsval) : list status :=
  [identity_severity (Js.get (Js.get expo "android") "package");
   identity_severity (Js.get (Js.get expo "ios") "bundleIdentifier");
   scheme_severity (Js.get expo "scheme");
   runtimeVersion_severity (Js.get expo "runtimeVersion");
   sdk;
   newArch_severity (Js.get expo "newArchEnabled")].

(** The severities of the rules on the build profiles. *)
Definition profile_severities (easJson : jsval) : list status :=
  let prodProfile := Js.get (Js.get easJson "build") "production" in
  if Js.truthy prodProfile then
    [if Js.strict_eq_bool (Js.get prodProfile "autoIncrement") true
     then PASS else FAIL;
     if (List.length (Js.Object_keys (Js.or (Js.get prodProfile "env") (JObj [])))
         =? 0)%nat
     then WARN else PASS]
  else [FAIL].

Definition severities (evs : list event) : list status :=
  map severity (findings evs).

(** A string with its ASCII letters in lower case. *)
Fixpoint lower_string (s : string) : string :=
  match s with
  | EmptyString => EmptyString
  | String c s' => String (Js.lower c) (lower_string s')
  end.

(** The configuration inside what the Expo CLI prints: under [exp] when
    there is such a property, the whole value otherwise. *)
Definition unwrap (parsed : jsval) : jsval :=
  Js.or (Js.get parsed "exp") parsed.

(** [m] settles whether [ok] holds: when it does, [m] returns without a
    [FAIL]; when it does not, the result of [m] can no longer end in
    success. *)
Definition decides (m : M unit) (ok : bool) : Prop :=
  if ok then exists evs, yields m tt evs /\ any_fail evs = false
  else forall st, doomed (m st).

(** The image file that [v] refers to passes the checks of
    [check_assets.js]: [v] is a path, the file is there and, when
    dimensions are asked for and image-size is at hand, it is 1024 by
    1024. *)
Definition image_ok (w : World) (dimensions : bool) (v : jsval) : bool :=
  match v with
  | JStr p =>
      let full := path_join_cwd w p in
      andb (fs_existsSync w full)
        (if dimensions then
           match image_size w with
           | None => true
           | Some sizeOf =>
               if Js.truthy (JStr full) then
                 match sizeOf full with
                 | Ok (width, height) => andb (width =? 1024) (height =? 1024)
                 | Throws _ => false
                 end
               else true
           end
         else true)
  | _ => false
  end.

(** An optional image file: absent, or passing. *)
Definition optional_image_ok (w : World) (dimensions : bool) (v : jsval) : bool :=
  orb (negb (Js.truthy v)) (image_ok w dimensions v).

(** Everything that [check_assets.js] wants of the images of a
    configuration. *)
Definition assets_ok (w : World) (expo : jsval) : bool :=
  let androidIcon := Js.get (Js.get expo "android") "adaptiveIcon" in
  andb (andb (Js.truthy (Js.get expo "icon")) (image_ok w true (Js.get expo "icon")))
    (andb (optional_image_ok w false (Js.get (Js.get expo "splash") "image"))
       (andb (orb (negb (Js.truthy androidIcon))
                (andb (optional_image_ok w true
                         (Js.get androidIcon "foregroundImage"))
                   (orb (Js.truthy (Js.get androidIcon "backgroundColor"))
                      (andb (Js.truthy (Js.get androidIcon "backgroundImage"))
                         (image_ok w true
                            (Js.get androidIcon "backgroundImage"))))))
          (optional_image_ok w true (Js.get (Js.get expo "ios") "icon")))).

Definition CheckAssets_passes (w : World) : Prop :=
  exists appJson,
    fs_existsSync w (CheckAssets.appJsonPath w) = true /\
    read_json w (CheckAssets.appJsonPath w) = Ok appJson /\
    Js.truthy (Js.get appJson "expo") = true /\
    assets_ok w (Js.get appJson "expo") = true.

(** A string of white space only (the empty one included). *)
Fixpoint blank (s : string) : bool :=
  match s with
  | EmptyString => true
  | String c s' => andb (Js.is_space c) (blank s')
  end.

(** The same for the revision of [check_assets.js] that asks the Expo
    CLI: one leading [./] of the path is dropped before the file is
    looked for. *)
Definition CheckAssetsCompiled_image_ok (w : World) (dimensions : bool)
  (v : jsval) : bool :=
  match v with
  | JStr p => image_ok w dimensions (JStr (CheckAssetsCompiled.strip_dot_slash p))
  | _ => false
  end.

Definition CheckAssetsCompiled_optional_image_ok (w : World) (dimensions : bool)
  (v : jsval) : bool :=
  orb (negb (Js.truthy v)) (CheckAssetsCompiled_image_ok w dimensions v).

Definition CheckAssetsCompiled_assets_ok (w : World) (expo : jsval) : bool :=
  let androidIcon := Js.get (Js.get expo "android") "adaptiveIcon" in
  andb (andb (Js.truthy (Js.get expo "icon"))
          (CheckAssetsCompiled_image_ok w true (Js.get expo "icon")))
    (andb (CheckAssetsCompiled_optional_image_ok w false
             (Js.get (Js.get expo "splash") "image"))
       (andb (orb (negb (Js.truthy androidIcon))
                (andb (CheckAssetsCompiled_optional_image_ok w true
                         (Js.get androidIcon "foregroundImage"))
                   (orb (Js.truthy (Js.get androidIcon "backgroundColor"))
                      (andb (Js.truthy (Js.get androidIcon "backgroundImage"))
                         (CheckAssetsCompiled_image_ok w true
                            (Js.get androidIcon "backgroundImage"))))))
          (CheckAssetsCompiled_optional_image_ok w true
             (Js.get (Js.get expo "ios") "icon")))).

Definition CheckAssetsCompiled_passes (w : World) : Prop :=
  exists stdout parsed,
    expo_config_json w = Ok stdout /\
    JSON_parse w stdout = Ok parsed /\
    is_nullish parsed = false /\
    CheckAssetsCompiled_assets_ok w (unwrap parsed) = true.

(** The rules of the revision that asks the Expo CLI, on the configuration
    [expo]: both identifiers are accepted and the target SDK is there and
    not below 35. *)
Definition CompiledResolve_config_ok (w : World) (expo : jsval) : bool :=
  andb (identifier_ok (Js.get (Js.get expo "android") "package"))
    (andb (identifier_ok (Js.get (Js.get expo "ios") "bundleIdentifier"))
       (CompiledResolve_targetSdk_ok w
          (Js.get (Js.get expo "android") "targetSdkVersion"))).

(** Everything that the revision that asks the Expo CLI wants of a
    project. *)
Definition CompiledResolve_passes (w : World) : Prop :=
  environment_ok w /\
  exists stdout parsed easJson,
    expo_config_json w = Ok stdout /\
    JSON_parse w stdout = Ok parsed /\
    fs_existsSync w (CompiledResolve.easJsonPath w) = true /\
    read_json w (CompiledResolve.easJsonPath w) = Ok easJson /\
    let expo := unwrap parsed in
    Js.truthy (Js.get expo "slug") = true /\
    Js.truthy (Js.get (Js.get (Js.get expo "extra") "eas") "projectId") = true /\
    has_lockfile w = true /\
    CompiledResolve_config_ok w expo = true /\
    profile_ok easJson = true.

(** * Properties *)

(** ** The monad *)

Lemma any_fail_app (l1 l2 : list event) :
  any_fail (l1 ++ l2)%list = orb (any_fail l1) (any_fail l2).
Proof.
  unfold any_fail, findings. now rewrite flat_map_app, existsb_app.
Qed.

Lemma emit_nil (st : state) : emit [] st = st.
Proof.
  destruct st as [c h]. unfold emit; simpl.
  now rewrite app_nil_r, orb_false_r.
Qed.

Lemma emit_emit (l1 l2 : list event) (st : state) :
  emit l2 (emit l1 st) = emit (l1 ++ l2)%list st.
Proof.
  unfold emit; simpl. now rewrite any_fail_app, app_assoc, orb_assoc.
Qed.

Lemma logStatus_emit (s : status) (msg : string) (st : state) :
  logStatus s msg st = (Ret tt, emit [finding s msg] st).
Proof.
  unfold logStatus, emit, finding, any_fail; simpl.
  destruct s; simpl; now rewrite ?orb_false_r, ?orb_true_r.
Qed.

Lemma print_emit (ev : event) (st : state) :
  (forall f, ev <> Logged f) -> print ev st = (Ret tt, emit [ev] st).
Proof.
  intros H. unfold print, emit, any_fail. destruct ev; simpl.
  - now rewrite orb_false_r.
  - now rewrite orb_false_r.
  - now elim (H f).
Qed.

Lemma prop_get (v : jsval) (k : string) (st : state) :
  is_nullish v = false -> prop v k st = (Ret (Js.get v k), st).
Proof. destruct v; simpl; intros H; try discriminate; reflexivity. Qed.

Lemma truthy_not_nullish (v : jsval) : Js.truthy v = true -> is_nullish v = false.
Proof. destruct v; simpl; intros H; try discriminate; reflexivity. Qed.

Section Traced.
Context {P : event -> Prop} {E : Z -> Prop}.

Lemma traced_ret {A} (a : A) : traced P E (ret a).
Proof.
  intros st. exists []. rewrite emit_nil. repeat split; auto. discriminate.
Qed.

Lemma traced_throw {A} (e : string) : traced P E (@throw A e).
Proof.
  intros st. exists []. rewrite emit_nil. repeat split; auto. discriminate.
Qed.

Lemma traced_exit {A} (c : Z) : E c -> traced P E (@process_exit A c).
Proof.
  intros Hc st. exists []. rewrite emit_nil. repeat split; auto.
  simpl. intros c' [= <-]. exact Hc.
Qed.

Lemma traced_lift {A} (r : result A) : traced P E (lift r).
Proof. destruct r; [apply traced_ret | apply traced_throw]. Qed.

Lemma traced_prop (v : jsval) (k : string) : traced P E (prop v k).
Proof. destruct v; first [apply traced_ret | apply traced_throw]. Qed.

Lemma traced_read : traced P E read_hasFails.
Proof.
  intros st. exists []. rewrite emit_nil. repeat split; auto. discriminate.
Qed.

Lemma traced_logStatus (s : status) (msg : string) :
  P (finding s msg) -> traced P E (logStatus s msg).
Proof.
  intros Hp st. exists [finding s msg]. rewrite logStatus_emit.
  repeat split; auto. discriminate.
Qed.

Lemma traced_console_log (line : string) :
  P (Out line) -> traced P E (console_log line).
Proof.
  intros Hp st. exists [Out line]. unfold console_log.
  rewrite print_emit by discriminate. repeat split; auto. discriminate.
Qed.

Lemma traced_console_error (line : string) :
  P (Err line) -> traced P E (console_error line).
Proof.
  intros Hp st. exists [Err line]. unfold console_error.
  rewrite print_emit by discriminate. repeat split; auto. discriminate.
Qed.

Lemma traced_bind {A B} (m : M A) (f : A -> M B) :
  traced P E m -> (forall a, traced P E (f a)) -> traced P E (bind m f).
Proof.
  intros Hm Hf st. destruct (Hm st) as (l1 & H1 & HP1 & HE1).
  unfold bind. destruct (m st) as [[a | c | e] st1]; simpl in *; subst st1.
  - destruct (Hf a (emit l1 st)) as (l2 & H2 & HP2 & HE2).
    exists (l1 ++ l2)%list. rewrite H2, emit_emit.
    split; [reflexivity | split; [now apply Forall_app | exact HE2]].
  - exists l1. split; [reflexivity | split; [exact HP1 | ]].
    intros c' [= <-]. now apply HE1.
  - exists l1. split; [reflexivity | split; [exact HP1 | discriminate]].
Qed.

Lemma traced_try_catch {A} (m : M A) (h : string -> M A) :
  traced P E m -> (forall e, traced P E (h e)) -> traced P E (try_catch m h).
Proof.
  intros Hm Hh st. destruct (Hm st) as (l1 & H1 & HP1 & HE1).
  unfold try_catch. destruct (m st) as [[a | c | e] st1]; simpl in *; subst st1.
  - exists l1. split; [reflexivity | split; [exact HP1 | discriminate]].
  - exists l1. split; [reflexivity | split; [exact HP1 | exact HE1]].
  - destruct (Hh e (emit l1 st)) as (l2 & H2 & HP2 & HE2).
    exists (l1 ++ l2)%list. rewrite H2, emit_emit.
    split; [reflexivity | split; [now apply Forall_app | exact HE2]].
Qed.

End Traced.

(** ** Aggregation *)

Lemma any_fail_has_FAIL (evs : list event) :
  any_fail evs = true <-> has_FAIL evs.
Proof.
  unfold any_fail, has_FAIL, findings. rewrite existsb_exists. split.
  - intros ([s msg] & Hin & Hs). apply in_flat_map in Hin.
    destruct Hin as (ev & Hev & Hf). destruct ev; simpl in Hf; try tauto.
    destruct Hf as [-> | []]. destruct s; try discriminate. now exists msg.
  - intros (msg & Hin). exists {| severity := FAIL; message := msg |}.
    split; [| reflexivity]. apply in_flat_map.
    exists (finding FAIL msg). split; [exact Hin | now left].
Qed.

Lemma verdict_none (failed ok : string) (evs : list event) :
  Forall (fun ev => is_verdict failed ok ev = false) evs ->
  stderr_has failed evs = false /\ stdout_has ok evs = false.
Proof.
  induction 1 as [| ev evs Hev _ [IH1 IH2]]; [now split |].
  unfold stderr_has, stdout_has in *; simpl. rewrite IH1, IH2.
  destruct ev; simpl in *; rewrite ?Hev; now split.
Qed.

Lemma stderr_has_app (line : string) (l1 l2 : list event) :
  stderr_has line (l1 ++ l2)%list = orb (stderr_has line l1) (stderr_has line l2).
Proof. apply existsb_app. Qed.

Lemma stdout_has_app (line : string) (l1 l2 : list event) :
  stdout_has line (l1 ++ l2)%list = orb (stdout_has line l1) (stdout_has line l2).
Proof. apply existsb_app. Qed.

(** A script made of checks that never print a verdict line and only leave
    with status 1, followed by the summary, aggregates as promised. *)
Lemma summary_aggregates (failed ok : string) (checks : M unit) :
  String.eqb separator ok = false ->
  traced (fun ev => is_verdict failed ok ev = false) (fun c => c = 1) checks ->
  aggregates failed ok (bind checks (fun _ => summary_of failed ok) initial).
Proof.
  intros Hsep Hchecks. destruct (Hchecks initial) as (l & Hst & HP & HE).
  destruct (verdict_none _ _ _ HP) as [Herr Hout].
  assert (Hflag : hasFails (emit l initial) = any_fail l) by reflexivity.
  unfold aggregates, bind.
  destruct (checks initial) as [[[] | c | e] st1]; simpl in Hst, HE; subst st1.
  - unfold summary_of, bind, console_log, console_error, print, read_hasFails,
      process_exit; simpl.
    destruct (any_fail l) eqn:Hany; simpl.
    + assert (HF : has_FAIL (l ++ [Out separator; Err failed])).
      { apply any_fail_has_FAIL. rewrite any_fail_app, Hany. reflexivity. }
      assert (Hv : verdict failed ok ((l ++ [Out separator]) ++ [Err failed])
                   = Some FAIL).
      { unfold verdict. rewrite !stderr_has_app. unfold stderr_has at 3; simpl.
        rewrite String.eqb_refl, !orb_true_r. reflexivity. }
      rewrite <- app_assoc in *. simpl in *.
      split; [tauto |]. split.
      * intros v Hv'. rewrite Hv in Hv'. injection Hv' as <-.
        split; [discriminate | tauto].
      * split; [discriminate | tauto].
    + assert (HF : ~ has_FAIL (l ++ [Out separator; Out ok])).
      { rewrite <- any_fail_has_FAIL, any_fail_app, Hany. discriminate. }
      assert (Hv : verdict failed ok ((l ++ [Out separator]) ++ [Out ok])
                   = Some PASS).
      { unfold verdict. rewrite !stderr_has_app, !stdout_has_app, Herr.
        unfold stderr_has, stdout_has at 2 3; simpl.
        rewrite String.eqb_refl, !orb_true_r. reflexivity. }
      rewrite <- app_assoc in *. simpl in *.
      split; [split; [discriminate | tauto] |]. split.
      * intros v Hv'. rewrite Hv in Hv'. injection Hv' as <-.
        split; [discriminate | split; [discriminate | tauto]].
      * split; [intros _; split; [exact HF | now rewrite Hv] | reflexivity].
  - simpl. unfold verdict. rewrite Herr, Hout.
    rewrite (HE c eq_refl). split; [| split].
    + rewrite <- any_fail_has_FAIL. reflexivity.
    + discriminate.
    + split; [discriminate | intros [_ H]; now elim H].
  - simpl. unfold verdict. rewrite Herr, Hout.
    split; [| split].
    + rewrite <- any_fail_has_FAIL. reflexivity.
    + discriminate.
    + split; [discriminate | intros [_ H]; now elim H].
Qed.

(** One step through a script: the leaves are left to [leaf]. *)
Ltac traced_step leaf :=
  first
    [ apply traced_bind; [| intros ?]
    | apply traced_try_catch; [| intros ?]
    | apply traced_ret
    | apply traced_throw
    | apply traced_lift
    | apply traced_prop
    | apply traced_read
    | apply traced_logStatus; leaf
    | apply traced_console_log; leaf
    | apply traced_console_error; leaf
    | apply traced_exit; leaf
    | match goal with
      | |- traced _ _ (if ?b then _ else _) => destruct b
      | |- traced _ _ (match ?x with _ => _ end) => destruct x
      end ].

Ltac traced_all leaf := repeat traced_step leaf.

Lemma DirectParse_checks_no_verdict (w : World) :
  traced (fun ev => is_verdict DirectParse.preflight_failed
                      DirectParse.preflight_succeeded ev = false)
         (fun c => c = 1) (DirectParse.checks w).
Proof.
  unfold DirectParse.checks, DirectParse.configStage, DirectParse.profileStage,
    DirectParse.loadAppJson, DirectParse.checkLevelZeroPointFive,
    DirectParse.checkLevelZeroBasics, DirectParse.validateAppJson,
    DirectParse.validateEasJson, DirectParse.gitRule,
    DirectParse.androidPackageRule, DirectParse.iosBundleRule,
    DirectParse.schemeRule, DirectParse.runtimeVersionRule,
    DirectParse.targetSdkRule, DirectParse.newArchRule.
  traced_all ltac:(reflexivity).
Qed.

Lemma CompiledResolve_checks_no_verdict (w : World) :
  traced (fun ev => is_verdict CompiledResolve.preflight_failed
                      CompiledResolve.preflight_succeeded ev = false)
         (fun c => c = 1) (CompiledResolve.checks w).
Proof.
  unfold CompiledResolve.checks, CompiledResolve.configStage,
    CompiledResolve.profileStage, CompiledResolve.checkLevelZeroPointFive,
    CompiledResolve.getResolvedExpoConfig,
    CompiledResolve.checkLevelZeroBasics, CompiledResolve.validateAppJson,
    CompiledResolve.validateEasJson,
    CompiledResolve.androidPackageRule, CompiledResolve.iosBundleRule,
    CompiledResolve.schemeRule, CompiledResolve.runtimeVersionRule,
    CompiledResolve.targetSdkRule, CompiledResolve.newArchRule.
  traced_all ltac:(reflexivity).
Qed.

Lemma CheckAssets_checks_no_verdict (w : World) :
  traced (fun ev => is_verdict CheckAssets.validation_failed
                      CheckAssets.validation_succeeded ev = false)
         (fun c => c = 1) (bind (CheckAssets.load_sizeOf w)
                                (fun _ => CheckAssets.checks w)).
Proof.
  unfold CheckAssets.load_sizeOf, CheckAssets.checks, CheckAssets.loadConfig,
    CheckAssets.globalIconCheck, CheckAssets.splashCheck,
    CheckAssets.adaptiveIconCheck, CheckAssets.foregroundCheck,
    CheckAssets.backgroundCheck, CheckAssets.iosIconCheck,
    CheckAssets.checkFileExistence, CheckAssets.checkDimensions.
  traced_all ltac:(reflexivity).
Qed.

Lemma bind_assoc {A B C} (m : M A) (f : A -> M B) (g : B -> M C) (st : state) :
  bind (bind m f) g st = bind m (fun a => bind (f a) g) st.
Proof. unfold bind. destruct (m st) as [[a | c | e] st1]; reflexivity. Qed.


(** ** Computations that return *)

Lemma yields_ret {A} (a : A) : yields (ret a) a [].
Proof. intros st. now rewrite emit_nil. Qed.

Lemma yields_logStatus (s : status) (msg : string) :
  yields (logStatus s msg) tt [finding s msg].
Proof. intros st. apply logStatus_emit. Qed.

Lemma yields_console_log (line : string) : yields (console_log line) tt [Out line].
Proof. intros st. apply print_emit. discriminate. Qed.

Lemma yields_prop (v : jsval) (k : string) :
  is_nullish v = false -> yields (prop v k) (Js.get v k) [].
Proof. intros H st. rewrite emit_nil. now apply prop_get. Qed.

Lemma yields_bind {A B} (m : M A) (f : A -> M B) a b l1 l2 :
  yields m a l1 -> yields (f a) b l2 -> yields (bind m f) b (l1 ++ l2)%list.
Proof.
  intros Hm Hf st. unfold bind. now rewrite Hm, Hf, emit_emit.
Qed.

Lemma yields_unique {A} (m : M A) a a' l l' :
  yields m a l -> yields m a' l' -> a = a' /\ l = l'.
Proof.
  intros H H'. specialize (H initial). rewrite (H' initial) in H.
  injection H as Ha Hl _. split; [now symmetry | now symmetry].
Qed.

Ltac one_finding :=
  repeat match goal with
         | |- one_finding (if ?b then _ else _) => destruct b
         end;
  eexists; apply yields_logStatus.

Lemma DirectParse_androidPackageRule_one v :
  one_finding (DirectParse.androidPackageRule v).
Proof. unfold DirectParse.androidPackageRule. one_finding. Qed.

Lemma DirectParse_iosBundleRule_one v : one_finding (DirectParse.iosBundleRule v).
Proof. unfold DirectParse.iosBundleRule. one_finding. Qed.

Lemma DirectParse_schemeRule_one v : one_finding (DirectParse.schemeRule v).
Proof. unfold DirectParse.schemeRule. one_finding. Qed.

Lemma DirectParse_runtimeVersionRule_one w v :
  one_finding (DirectParse.runtimeVersionRule w v).
Proof. unfold DirectParse.runtimeVersionRule. one_finding. Qed.

Lemma DirectParse_targetSdkRule_one w v : one_finding (DirectParse.targetSdkRule w v).
Proof. unfold DirectParse.targetSdkRule. one_finding. Qed.

Lemma DirectParse_newArchRule_one v : one_finding (DirectParse.newArchRule v).
Proof. unfold DirectParse.newArchRule. one_finding. Qed.

(** The configuration rules of the direct-parse revision, in their order:
    one finding each, after the header. *)
Lemma DirectParse_validateAppJson_rules (w : World) (appJson : jsval) :
  let expo := Js.get appJson "expo" in
  Js.truthy expo = true ->
  exists f1 f2 f3 f4 f5 f6,
    yields (DirectParse.validateAppJson w appJson) tt
      [Out (nl ++ "--- Validating app.json ---");
       Logged f1; Logged f2; Logged f3; Logged f4; Logged f5; Logged f6] /\
    yields (DirectParse.androidPackageRule
              (Js.get (Js.get expo "android") "package")) tt [Logged f1] /\
    yields (DirectParse.iosBundleRule
              (Js.get (Js.get expo "ios") "bundleIdentifier")) tt [Logged f2] /\
    yields (DirectParse.schemeRule (Js.get expo "scheme")) tt [Logged f3] /\
    yields (DirectParse.runtimeVersionRule w (Js.get expo "runtimeVersion")) tt
      [Logged f4] /\
    yields (DirectParse.targetSdkRule w
              (Js.get (Js.get expo "android") "targetSdkVersion")) tt [Logged f5] /\
    yields (DirectParse.newArchRule (Js.get expo "newArchEnabled")) tt [Logged f6].
Proof.
  intros expo Hexpo.
  assert (Hn : is_nullish expo = false) by now apply truthy_not_nullish.
  assert (Ha : is_nullish appJson = false).
  { destruct appJson; try reflexivity; discriminate Hexpo. }
  destruct (DirectParse_androidPackageRule_one
              (Js.get (Js.get expo "android") "package")) as [f1 H1].
  destruct (DirectParse_iosBundleRule_one
              (Js.get (Js.get expo "ios") "bundleIdentifier")) as [f2 H2].
  destruct (DirectParse_schemeRule_one (Js.get expo "scheme")) as [f3 H3].
  destruct (DirectParse_runtimeVersionRule_one w (Js.get expo "runtimeVersion"))
    as [f4 H4].
  destruct (DirectParse_targetSdkRule_one w
              (Js.get (Js.get expo "android") "targetSdkVersion")) as [f5 H5].
  destruct (DirectParse_newArchRule_one (Js.get expo "newArchEnabled")) as [f6 H6].
  exists f1, f2, f3, f4, f5, f6. repeat split; try assumption.
  unfold DirectParse.validateAppJson.
  eapply (yields_bind _ _ _ _ [_]); [apply yields_console_log |].
  eapply (yields_bind _ _ _ _ []); [now apply yields_prop |].
  fold expo. rewrite Hexpo. simpl negb. cbv iota.
  eapply (yields_bind _ _ _ _ []); [now apply yields_prop |].
  eapply (yields_bind _ _ _ _ []); [now apply yields_prop |].
  eapply (yields_bind _ _ _ _ [_]); [exact H1 |].
  eapply (yields_bind _ _ _ _ [_]); [exact H2 |].
  eapply (yields_bind _ _ _ _ []); [now apply yields_prop |].
  eapply (yields_bind _ _ _ _ [_]); [exact H3 |].
  eapply (yields_bind _ _ _ _ []); [now apply yields_prop |].
  eapply (yields_bind _ _ _ _ [_]); [exact H4 |].
  eapply (yields_bind _ _ _ _ []); [now apply yields_prop |].
  eapply (yields_bind _ _ _ _ [_]); [exact H5 |].
  eapply (yields_bind _ _ _ _ []); [now apply yields_prop |].
  exact H6.
Qed.

(** ** The end-to-end scenarios *)

Example acme_passes :
  fst (DirectParse.main Sample.acme) = Exited 0 /\
  findings (console (snd (DirectParse.main Sample.acme))) =
  [ {| severity := PASS;
       message := "Expo project detected (found " ++ dq ++ "expo" ++ dq
                  ++ " in package.json dependencies)." |};
    {| severity := PASS; message := "node_modules directory found." |};
    {| severity := PASS; message := "eas.json exists." |};
    {| severity := PASS; message := "Project linked to EAS (ID: 4f1c)." |};
    {| severity := PASS; message := "Lockfile detected." |};
    {| severity := PASS; message := "Git working tree is clean." |};
    {| severity := PASS; message := "Valid android.package: com.acme.app" |};
    {| severity := PASS; message := "Valid ios.bundleIdentifier: com.acme.app" |};
    {| severity := PASS; message := "Scheme configured: myapp" |};
    {| severity := PASS;
       message := "runtimeVersion configured with fingerprint policy." |};
    {| severity := PASS; message := "Valid targetSdkVersion: 35" |};
    {| severity := PASS;
       message := "New Architecture (newArchEnabled) is not disabled." |};
    {| severity := PASS;
       message := "autoIncrement is active in the production profile." |};
    {| severity := PASS; message := "Environment variables detected: API_URL" |} ].
Proof. split; reflexivity. Qed.

Example acme_without_autoIncrement_fails :
  let w := Sample.project Sample.all_files (Ok Sample.app)
             (Ok (Sample.eas_with false)) (Throws EmptyString)
             (Ok EmptyString) None in
  fst (DirectParse.main w) = Exited 1 /\
  verdict DirectParse.preflight_failed DirectParse.preflight_succeeded
    (console (snd (DirectParse.main w))) = Some FAIL /\
  filter (fun f => is_fail (severity f))
    (findings (console (snd (DirectParse.main w)))) =
  [ {| severity := FAIL;
       message := "build.production.autoIncrement is not set to true. Builds might overwrite existing versions in the stores." |} ].
Proof. repeat split; reflexivity. Qed.

Example acme_assets_pass :
  fst (CheckAssets.main Sample.acme) = Exited 0 /\
  findings (console (snd (CheckAssets.main Sample.acme))) =
  [ {| severity := PASS; message := "[Global Icon] File exists: assets/icon.png" |};
    {| severity := PASS;
       message := "[Global Icon] Dimensions are correct (1024x1024)." |};
    {| severity := WARN; message := "No custom splash screen image configured." |};
    {| severity := WARN;
       message := "No Android adaptiveIcon configured. The app will use the default square/circle crop." |} ].
Proof. split; reflexivity. Qed.

Example acme_compiled_passes :
  fst (CompiledResolve.main Sample.acme) = Exited 0.
Proof. reflexivity. Qed.

(** ** The identity rule *)

Lemma invalidDomainRegex_prefixes (s : string) :
  invalidDomainRegex_test s
  = existsb (fun p => Js.starts_with_i p s) reserved_prefixes.
Proof.
  unfold invalidDomainRegex_test, reserved_prefixes. simpl.
  now rewrite !orb_false_r, !orb_assoc.
Qed.



(** ** The target SDK rule *)

Lemma CompiledResolve_androidPackageRule_one v :
  one_finding (CompiledResolve.androidPackageRule v).
Proof. unfold CompiledResolve.androidPackageRule. one_finding. Qed.

Lemma CompiledResolve_iosBundleRule_one v :
  one_finding (CompiledResolve.iosBundleRule v).
Proof. unfold CompiledResolve.iosBundleRule. one_finding. Qed.

Lemma CompiledResolve_schemeRule_one v : one_finding (CompiledResolve.schemeRule v).
Proof. unfold CompiledResolve.schemeRule. one_finding. Qed.

Lemma CompiledResolve_runtimeVersionRule_one v :
  one_finding (CompiledResolve.runtimeVersionRule v).
Proof. unfold CompiledResolve.runtimeVersionRule. one_finding. Qed.

Lemma CompiledResolve_targetSdkRule_one w v :
  one_finding (CompiledResolve.targetSdkRule w v).
Proof. unfold CompiledResolve.targetSdkRule. one_finding. Qed.

Lemma CompiledResolve_newArchRule_one v :
  one_finding (CompiledResolve.newArchRule v).
Proof. unfold CompiledResolve.newArchRule. one_finding. Qed.

(** The configuration rules of the compiled-resolve revision, in their
    order.  This revision does not test [expo] first: it throws on a
    configuration that is [null] or [undefined]. *)
Lemma CompiledResolve_validateAppJson_rules (w : World) (appJson : jsval) :
  let expo := Js.get appJson "expo" in
  is_nullish expo = false ->
  exists f1 f2 f3 f4 f5 f6,
    yields (CompiledResolve.validateAppJson w appJson) tt
      [Out (nl ++ "--- Validating Config Rules ---");
       Logged f1; Logged f2; Logged f3; Logged f4; Logged f5; Logged f6] /\
    yields (CompiledResolve.androidPackageRule
              (Js.get (Js.get expo "android") "package")) tt [Logged f1] /\
    yields (CompiledResolve.iosBundleRule
              (Js.get (Js.get expo "ios") "bundleIdentifier")) tt [Logged f2] /\
    yields (CompiledResolve.schemeRule (Js.get expo "scheme")) tt [Logged f3] /\
    yields (CompiledResolve.runtimeVersionRule (Js.get expo "runtimeVersion")) tt
      [Logged f4] /\
    yields (CompiledResolve.targetSdkRule w
              (Js.get (Js.get expo "android") "targetSdkVersion")) tt [Logged f5] /\
    yields (CompiledResolve.newArchRule (Js.get expo "newArchEnabled")) tt [Logged f6].
Proof.
  intros expo Hn.
  assert (Ha : is_nullish appJson = false).
  { destruct appJson; try reflexivity; discriminate Hn. }
  destruct (CompiledResolve_androidPackageRule_one
              (Js.get (Js.get expo "android") "package")) as [f1 H1].
  destruct (CompiledResolve_iosBundleRule_one
              (Js.get (Js.get expo "ios") "bundleIdentifier")) as [f2 H2].
  destruct (CompiledResolve_schemeRule_one (Js.get expo "scheme")) as [f3 H3].
  destruct (CompiledResolve_runtimeVersionRule_one (Js.get expo "runtimeVersion"))
    as [f4 H4].
  destruct (CompiledResolve_targetSdkRule_one w
              (Js.get (Js.get expo "android") "targetSdkVersion")) as [f5 H5].
  destruct (CompiledResolve_newArchRule_one (Js.get expo "newArchEnabled"))
    as [f6 H6].
  exists f1, f2, f3, f4, f5, f6. repeat split; try assumption.
  unfold CompiledResolve.validateAppJson.
  eapply (yields_bind _ _ _ _ [_]); [apply yields_console_log |].
  eapply (yields_bind _ _ _ _ []); [now apply yields_prop |].
  eapply (yields_bind _ _ _ _ []); [now apply yields_prop |].
  eapply (yields_bind _ _ _ _ []); [now apply yields_prop |].
  eapply (yields_bind _ _ _ _ [_]); [exact H1 |].
  eapply (yields_bind _ _ _ _ [_]); [exact H2 |].
  eapply (yields_bind _ _ _ _ []); [now apply yields_prop |].
  eapply (yields_bind _ _ _ _ [_]); [exact H3 |].
  eapply (yields_bind _ _ _ _ []); [now apply yields_prop |].
  eapply (yields_bind _ _ _ _ [_]); [exact H4 |].
  eapply (yields_bind _ _ _ _ []); [now apply yields_prop |].
  eapply (yields_bind _ _ _ _ [_]); [exact H5 |].
  eapply (yields_bind _ _ _ _ []); [now apply yields_prop |].
  exact H6.
Qed.

Lemma yields_finding (m : M unit) (f : Finding) (s : status) (msg : string) :
  yields m tt [Logged f] -> yields m tt [finding s msg] ->
  f = {| severity := s; message := msg |}.
Proof.
  intros H H'. destruct (yields_unique _ _ _ _ _ H H') as [_ [= ->]]. reflexivity.
Qed.

Lemma DirectParse_targetSdk_falsy (w : World) (v : jsval) :
  Js.truthy v = false ->
  yields (DirectParse.targetSdkRule w v) tt
    [finding WARN
       "targetSdkVersion not explicitly set. Expo will use the SDK default."].
Proof.
  intros H. unfold DirectParse.targetSdkRule. rewrite H. apply yields_logStatus.
Qed.

Lemma DirectParse_targetSdk_below (w : World) (n : Z) :
  n <> 0 -> n < 35 ->
  yields (DirectParse.targetSdkRule w (JNum n)) tt
    [finding FAIL ("targetSdkVersion is " ++ Js.string_of_Z n
                   ++ ". API 35+ is mandatory per recent Play Store rules.")].
Proof.
  intros H0 H. unfold DirectParse.targetSdkRule; simpl.
  destruct (Z.eqb_spec n 0) as [-> | _]; [now elim H0 |]. simpl.
  destruct (Z.ltb_spec n 35); [apply yields_logStatus | lia].
Qed.

Lemma DirectParse_targetSdk_reached (w : World) (n : Z) :
  35 <= n ->
  yields (DirectParse.targetSdkRule w (JNum n)) tt
    [finding PASS ("Valid targetSdkVersion: " ++ Js.string_of_Z n)].
Proof.
  intros H. unfold DirectParse.targetSdkRule; simpl.
  destruct (Z.eqb_spec n 0) as [-> | _]; [lia |]. simpl.
  destruct (Z.ltb_spec n 35); [lia | apply yields_logStatus].
Qed.

Lemma CompiledResolve_targetSdk_falsy (w : World) (v : jsval) :
  Js.truthy v = false ->
  yields (CompiledResolve.targetSdkRule w v) tt
    [finding FAIL "targetSdkVersion is missing. API 35 is mandatory."].
Proof.
  intros H. unfold CompiledResolve.targetSdkRule. rewrite H. apply yields_logStatus.
Qed.

Lemma CompiledResolve_targetSdk_below (w : World) (n : Z) :
  n <> 0 -> n < 35 ->
  yields (CompiledResolve.targetSdkRule w (JNum n)) tt
    [finding FAIL ("targetSdkVersion is " ++ Js.string_of_Z n
                   ++ ". API 35 is mandatory.")].
Proof.
  intros H0 H. unfold CompiledResolve.targetSdkRule; simpl.
  destruct (Z.eqb_spec n 0) as [-> | _]; [now elim H0 |]. simpl.
  destruct (Z.ltb_spec n 35); [apply yields_logStatus | lia].
Qed.

Lemma CompiledResolve_targetSdk_reached (w : World) (n : Z) :
  35 <= n ->
  yields (CompiledResolve.targetSdkRule w (JNum n)) tt
    [finding PASS ("Valid targetSdkVersion: " ++ Js.string_of_Z n)].
Proof.
  intros H. unfold CompiledResolve.targetSdkRule; simpl.
  destruct (Z.eqb_spec n 0) as [-> | _]; [lia |]. simpl.
  destruct (Z.ltb_spec n 35); [lia | apply yields_logStatus].
Qed.

Lemma DirectParse_targetSdk_finding_exists (w : World) (appJson : jsval) :
  let expo := Js.get appJson "expo" in
  Js.truthy expo = true ->
  exists f,
    DirectParse_targetSdk_finding w appJson f /\
    yields (DirectParse.targetSdkRule w
              (Js.get (Js.get expo "android") "targetSdkVersion")) tt [Logged f].
Proof.
  intros expo Hexpo.
  destruct (DirectParse_validateAppJson_rules w appJson Hexpo)
    as (f1 & f2 & f3 & f4 & f5 & f6 & Hall & _ & _ & _ & _ & H5 & _).
  exists f5. split; [now exists f1, f2, f3, f4, f6 | exact H5].
Qed.

Lemma CompiledResolve_targetSdk_finding_exists (w : World) (appJson : jsval) :
  let expo := Js.get appJson "expo" in
  Js.truthy expo = true ->
  exists f,
    CompiledResolve_targetSdk_finding w appJson f /\
    yields (CompiledResolve.targetSdkRule w
              (Js.get (Js.get expo "android") "targetSdkVersion")) tt [Logged f].
Proof.
  intros expo Hexpo.
  destruct (CompiledResolve_validateAppJson_rules w appJson
              (truthy_not_nullish _ Hexpo))
    as (f1 & f2 & f3 & f4 & f5 & f6 & Hall & _ & _ & _ & _ & H5 & _).
  exists f5. split; [now exists f1, f2, f3, f4, f6 | exact H5].
Qed.




Example target_sdk_35_passes :
  yields (CompiledResolve.targetSdkRule Sample.acme (JNum 35)) tt
    [finding PASS "Valid targetSdkVersion: 35"] /\
  yields (DirectParse.targetSdkRule Sample.acme (JNum 35)) tt
    [finding PASS "Valid targetSdkVersion: 35"].
Proof. split; intros st; apply logStatus_emit. Qed.



(** ** The Git working tree rule *)



(** ** The background of the adaptive icon *)

Lemma backgroundCheck_color (w : World) (androidIcon : jsval) :
  Js.truthy (Js.get androidIcon "backgroundColor") = true ->
  CheckAssets.backgroundCheck w androidIcon
  = logStatus PASS ("Android Adaptive Icon background color is set: "
                    ++ Js.toString (Js.get androidIcon "backgroundColor")).
Proof. intros H. unfold CheckAssets.backgroundCheck. now rewrite H. Qed.

Lemma backgroundCheck_neither (w : World) (androidIcon : jsval) :
  Js.truthy (Js.get androidIcon "backgroundColor") = false ->
  Js.truthy (Js.get androidIcon "backgroundImage") = false ->
  CheckAssets.backgroundCheck w androidIcon
  = logStatus FAIL CheckAssets.background_required.
Proof. intros H H'. unfold CheckAssets.backgroundCheck. now rewrite H, H'. Qed.



Lemma adaptiveIconCheck_present (w : World) (expo : jsval) :
  let androidIcon := Js.get (Js.get expo "android") "adaptiveIcon" in
  is_nullish expo = false ->
  Js.truthy androidIcon = true ->
  CheckAssets.adaptiveIconCheck w expo
  = bind (CheckAssets.foregroundCheck w androidIcon)
         (fun _ => CheckAssets.backgroundCheck w androidIcon).
Proof.
  intros androidIcon Hn Hicon. unfold CheckAssets.adaptiveIconCheck.
  fold androidIcon.
  destruct expo; try discriminate Hn; unfold prop, bind, ret; cbv beta iota;
    fold androidIcon; rewrite Hicon; reflexivity.
Qed.




(** ** check_assets.js without the image probe *)

Ltac not_a_dimension_finding :=
  let H := fresh in
  let name := fresh in
  intros ? [= <-] (name & Hname & H);
  simpl in Hname;
  repeat (destruct Hname as [<- | Hname]; [
    destruct H as [(? & ? & ? & ? & H) | [(? & ? & H) | (? & H)]];
    discriminate H |]);
  exact Hname.

Section NoProbe.
Variable w : World.
Hypothesis no_probe : image_size w = None.

Lemma checkDimensions_skipped (filePath : jsval) (name : string) (rw rh : Z) :
  CheckAssets.checkDimensions w filePath name rw rh = ret tt.
Proof. unfold CheckAssets.checkDimensions. now rewrite no_probe. Qed.

Lemma CheckAssets_run_without_probe :
  traced (fun ev => is_image_size_warning ev = false /\
                    forall f, ev = Logged f -> ~ dimension_finding f)
         (fun c => c = 0 \/ c = 1) (CheckAssets.run w).
Proof.
  unfold CheckAssets.run, CheckAssets.checks, CheckAssets.summary,
    CheckAssets.loadConfig,
    CheckAssets.globalIconCheck, CheckAssets.splashCheck,
    CheckAssets.adaptiveIconCheck, CheckAssets.foregroundCheck,
    CheckAssets.backgroundCheck, CheckAssets.iosIconCheck,
    CheckAssets.checkFileExistence.
  repeat first
    [ rewrite checkDimensions_skipped
    | traced_step ltac:(first [ lia
                              | split; [reflexivity
                                       | first [discriminate
                                               | not_a_dimension_finding]]]) ].
Qed.

End NoProbe.

Lemma bind_prop {B} (v : jsval) (k : string) (f : jsval -> M B) :
  is_nullish v = false -> bind (prop v k) f = f (Js.get v k).
Proof. destruct v; intros H; try discriminate H; reflexivity. Qed.

Lemma checkFileExistence_yields (w : World) (p name : string) :
  yields (CheckAssets.checkFileExistence w (JStr p) name)
    (if fs_existsSync w (path_join_cwd w p)
     then JStr (path_join_cwd w p) else JNull)
    [existence_finding w p name].
Proof.
  unfold CheckAssets.checkFileExistence, existence_finding.
  destruct (fs_existsSync w (path_join_cwd w p)); simpl;
    apply (yields_bind _ _ tt _ [_] []);
    first [apply yields_logStatus | apply yields_ret].
Qed.

Lemma path_or_absent_cases (v : jsval) :
  path_or_absent v = true ->
  Js.truthy v = false \/ exists p, v = JStr p /\ Js.truthy v = true.
Proof.
  destruct v as [| | b | n | p | items | props]; simpl; intros H;
    try discriminate H;
    try (left; first [reflexivity | now apply negb_true_iff in H]).
  destruct (String.eqb p EmptyString) eqn:E; simpl; [now left | right].
  exists p. now split.
Qed.

Section ExistenceWithoutProbe.
Variable w : World.
Hypothesis no_probe : image_size w = None.

(** Existence, then the skipped dimensions. *)
Lemma asset_check_yields (p name : string) (rw rh : Z) :
  yields (bind (CheckAssets.checkFileExistence w (JStr p) name)
            (fun path => CheckAssets.checkDimensions w path name rw rh))
    tt [existence_finding w p name].
Proof.
  eapply (yields_bind _ _ _ _ [_] []); [apply checkFileExistence_yields |].
  rewrite checkDimensions_skipped by assumption. apply yields_ret.
Qed.

Lemma globalIconCheck_exists (expo : jsval) :
  is_nullish expo = false ->
  path_or_absent (Js.get expo "icon") = true ->
  exists evs,
    yields (CheckAssets.globalIconCheck w expo) tt evs /\
    forall p, Js.get expo "icon" = JStr p -> Js.truthy (JStr p) = true ->
              In (existence_finding w p "Global Icon") evs.
Proof.
  intros Hn Hp. unfold CheckAssets.globalIconCheck.
  rewrite bind_prop by assumption.
  destruct (path_or_absent_cases _ Hp) as [Hf | (p & Hs & Ht)].
  - rewrite Hf. eexists. split; [apply yields_logStatus |].
    intros p Hs Ht. rewrite Hs in Hf. congruence.
  - rewrite Ht, Hs. eexists. split; [apply asset_check_yields |].
    intros p' [= <-] _. now left.
Qed.

Lemma splashCheck_exists (expo : jsval) :
  is_nullish expo = false ->
  path_or_absent (Js.get (Js.get expo "splash") "image") = true ->
  exists evs,
    yields (CheckAssets.splashCheck w expo) tt evs /\
    forall p, Js.get (Js.get expo "splash") "image" = JStr p ->
              Js.truthy (JStr p) = true ->
              In (existence_finding w p "Splash Screen") evs.
Proof.
  intros Hn Hp. unfold CheckAssets.splashCheck.
  rewrite bind_prop by assumption.
  destruct (path_or_absent_cases _ Hp) as [Hf | (p & Hs & Ht)].
  - rewrite Hf, andb_false_r. eexists. split; [apply yields_logStatus |].
    intros p Hs Ht. rewrite Hs in Hf. congruence.
  - assert (Hsplash : Js.truthy (Js.get expo "splash") = true).
    { destruct (Js.get expo "splash"); try discriminate Hs. reflexivity. }
    rewrite Hsplash, Ht, Hs. simpl andb. cbv iota. eexists. split.
    + eapply (yields_bind _ _ _ _ [_] []);
        [apply checkFileExistence_yields | apply yields_ret].
    + intros p' [= <-] _. now left.
Qed.

Lemma foregroundCheck_exists (androidIcon : jsval) :
  path_or_absent (Js.get androidIcon "foregroundImage") = true ->
  exists evs,
    yields (CheckAssets.foregroundCheck w androidIcon) tt evs /\
    forall p, Js.get androidIcon "foregroundImage" = JStr p ->
              Js.truthy (JStr p) = true ->
              In (existence_finding w p "Android Foreground Image") evs.
Proof.
  intros Hp. unfold CheckAssets.foregroundCheck.
  destruct (path_or_absent_cases _ Hp) as [Hf | (p & Hs & Ht)].
  - rewrite Hf. eexists. split; [apply yields_logStatus |].
    intros p Hs Ht. rewrite Hs in Hf. congruence.
  - rewrite Ht, Hs. eexists. split; [apply asset_check_yields |].
    intros p' [= <-] _. now left.
Qed.

Lemma backgroundCheck_exists (androidIcon : jsval) :
  path_or_absent (Js.get androidIcon "backgroundImage") = true ->
  exists evs,
    yields (CheckAssets.backgroundCheck w androidIcon) tt evs /\
    (Js.truthy (Js.get androidIcon "backgroundColor") = false ->
     forall p, Js.get androidIcon "backgroundImage" = JStr p ->
               Js.truthy (JStr p) = true ->
               In (existence_finding w p "Android Background Image") evs).
Proof.
  intros Hp. unfold CheckAssets.backgroundCheck.
  destruct (Js.truthy (Js.get androidIcon "backgroundColor")).
  - eexists. split; [apply yields_logStatus | discriminate].
  - destruct (path_or_absent_cases _ Hp) as [Hf | (p & Hs & Ht)].
    + rewrite Hf. eexists. split; [apply yields_logStatus |].
      intros _ p Hs Ht. rewrite Hs in Hf. congruence.
    + rewrite Ht, Hs. eexists. split; [apply asset_check_yields |].
      intros _ p' [= <-] _. now left.
Qed.

Lemma iosIconCheck_exists (expo : jsval) :
  is_nullish expo = false ->
  path_or_absent (Js.get (Js.get expo "ios") "icon") = true ->
  exists evs,
    yields (CheckAssets.iosIconCheck w expo) tt evs /\
    forall p, Js.get (Js.get expo "ios") "icon" = JStr p ->
              Js.truthy (JStr p) = true ->
              In (existence_finding w p "iOS Specific Icon") evs.
Proof.
  intros Hn Hp. unfold CheckAssets.iosIconCheck.
  rewrite bind_prop by assumption.
  destruct (path_or_absent_cases _ Hp) as [Hf | (p & Hs & Ht)].
  - rewrite Hf. eexists. split; [apply yields_ret |].
    intros p Hs Ht. rewrite Hs in Hf. congruence.
  - rewrite Ht, Hs. eexists. split; [apply asset_check_yields |].
    intros p' [= <-] _. now left.
Qed.

End ExistenceWithoutProbe.

Lemma loadConfig_returns (w : World) (expo : jsval) (evs : list event) :
  yields (CheckAssets.loadConfig w) expo evs -> Js.truthy expo = true.
Proof.
  intros H. specialize (H initial). revert H.
  unfold CheckAssets.loadConfig, bind, try_catch, lift, ret, throw,
    process_exit, logStatus, prop.
  destruct (fs_existsSync w (CheckAssets.appJsonPath w)); simpl;
    [| discriminate].
  destruct (fs_readFileSync w (CheckAssets.appJsonPath w)) as [raw | e]; simpl;
    [| discriminate].
  destruct (JSON_parse w raw) as [appJson | e]; simpl; [| discriminate].
  destruct appJson; simpl; try discriminate;
    try (intros [= <- _]; discriminate).
  destruct (Js.truthy (Js.lookup "expo" props)) eqn:E; simpl; [| discriminate].
  now intros [= <- _].
Qed.

Lemma summary_console (failed ok : string) (st : state) :
  exists evs, console (snd (summary_of failed ok st)) = (console st ++ evs)%list.
Proof.
  unfold summary_of, bind, console_log, console_error, print, read_hasFails,
    process_exit; simpl.
  destruct (hasFails st); simpl; rewrite <- app_assoc; eexists; reflexivity.
Qed.


(** ** Runs that get past the environment checks *)

Lemma returns_ret {A} (a : A) : returns (ret a).
Proof. exists a, []. apply yields_ret. Qed.

Lemma returns_logStatus (s : status) (msg : string) : returns (logStatus s msg).
Proof. exists tt, [finding s msg]. apply yields_logStatus. Qed.

Lemma returns_console_log (line : string) : returns (console_log line).
Proof. exists tt, [Out line]. apply yields_console_log. Qed.

Lemma returns_prop (v : jsval) (k : string) :
  is_nullish v = false -> returns (prop v k).
Proof. intros H. exists (Js.get v k), []. now apply yields_prop. Qed.

Lemma returns_bind {A B} (m : M A) (f : A -> M B) :
  returns m -> (forall a, returns (f a)) -> returns (bind m f).
Proof.
  intros (a & l1 & Hm) Hf. destruct (Hf a) as (b & l2 & Hb).
  exists b, (l1 ++ l2)%list. now apply yields_bind with (a := a).
Qed.

Lemma returns_unit (m : M unit) : returns m -> exists evs, yields m tt evs.
Proof. intros ([] & evs & H). now exists evs. Qed.

Lemma gitRule_returns (w : World) : returns (DirectParse.gitRule w).
Proof.
  unfold DirectParse.gitRule.
  destruct (git_status_porcelain w) as [out | e].
  - destruct (0 <? String.length (Js.trim out))%nat eqn:E;
      eexists tt, _; intros st; unfold try_catch, bind, lift, ret;
      rewrite E; apply logStatus_emit.
  - eexists tt, _. intros st. unfold try_catch, bind, lift, throw.
    apply logStatus_emit.
Qed.

Ltac returns_step :=
  first
    [ apply returns_bind; [| intros ?]
    | apply returns_ret
    | apply returns_logStatus
    | apply returns_console_log
    | apply gitRule_returns
    | apply returns_prop; assumption
    | match goal with
      | |- returns (if ?b then _ else _) => destruct b eqn:?
      end ].

Lemma yields_cast {A} (m : M A) (a : A) (l l' : list event) :
  yields m a l -> l = l' -> yields m a l'.
Proof. now intros H <-. Qed.

Lemma yields_lift {A} (a : A) : yields (lift (Ok a)) a [].
Proof. apply yields_ret. Qed.

(** One step along a computation whose branches are already decided. *)
Ltac yields_step :=
  cbv beta;
  first
    [ eapply yields_bind;
      [ first [ apply yields_console_log
              | apply yields_logStatus
              | apply yields_ret
              | apply yields_lift
              | apply yields_prop; assumption ] | ]
    | apply yields_logStatus
    | apply yields_ret ].

Lemma DirectParse_levelZeroPointFive (w : World) :
  environment_ok w ->
  yields (DirectParse.checkLevelZeroPointFive w) tt (tl DirectParse_preamble).
Proof.
  intros (Hpkg & Hmod & raw & pkg & Hraw & Hparse & Hexpo).
  assert (Hdeps : Js.truthy (Js.get pkg "dependencies") = true).
  { destruct (Js.get pkg "dependencies"); try discriminate Hexpo. reflexivity. }
  assert (Hn : is_nullish pkg = false).
  { destruct pkg; try discriminate Hdeps; reflexivity. }
  pose proof (truthy_not_nullish _ Hdeps) as Hn'.
  unfold DirectParse.checkLevelZeroPointFive.
  eapply yields_cast.
  - yields_step. rewrite Hpkg. simpl negb. cbv iota.
    yields_step. rewrite Hraw. yields_step. rewrite Hparse.
    yields_step. yields_step. rewrite Hdeps. simpl negb. cbv iota.
    eapply yields_bind.
    { yields_step. apply yields_ret. }
    cbv beta. rewrite Hexpo. simpl negb. cbv iota.
    yields_step. yields_step. rewrite Hmod. simpl negb. cbv iota.
    yields_step. yields_step.
  - reflexivity.
Qed.

Lemma CompiledResolve_levelZeroPointFive (w : World) :
  environment_ok w ->
  yields (CompiledResolve.checkLevelZeroPointFive w) tt
    (tl CompiledResolve_preamble).
Proof.
  intros (Hpkg & Hmod & raw & pkg & Hraw & Hparse & Hexpo).
  assert (Hdeps : Js.truthy (Js.get pkg "dependencies") = true).
  { destruct (Js.get pkg "dependencies"); try discriminate Hexpo. reflexivity. }
  assert (Hn : is_nullish pkg = false).
  { destruct pkg; try discriminate Hdeps; reflexivity. }
  pose proof (truthy_not_nullish _ Hdeps) as Hn'.
  unfold CompiledResolve.checkLevelZeroPointFive.
  eapply yields_cast.
  - yields_step. rewrite Hpkg. simpl negb. cbv iota.
    yields_step. rewrite Hraw. yields_step. rewrite Hparse.
    yields_step. yields_step. rewrite Hdeps. simpl negb. cbv iota.
    eapply yields_bind.
    { yields_step. apply yields_ret. }
    cbv beta. rewrite Hexpo. simpl negb. cbv iota.
    yields_step. yields_step. rewrite Hmod. simpl negb. cbv iota.
    yields_step. yields_step.
  - reflexivity.
Qed.

(** ** The production profile *)

Lemma DirectParse_configStage_exits (w : World) :
  traced (fun _ => True) (fun c => c = 1) (DirectParse.configStage w).
Proof.
  unfold DirectParse.configStage, DirectParse.loadAppJson,
    DirectParse.checkLevelZeroPointFive,
    DirectParse.checkLevelZeroBasics, DirectParse.validateAppJson,
    DirectParse.gitRule,
    DirectParse.androidPackageRule, DirectParse.iosBundleRule,
    DirectParse.schemeRule, DirectParse.runtimeVersionRule,
    DirectParse.targetSdkRule, DirectParse.newArchRule.
  traced_all ltac:(first [exact I | reflexivity]).
Qed.

Lemma DirectParse_validateEasJson_no_production (easJson : jsval) :
  Js.truthy (Js.get (Js.get easJson "build") "production") = false ->
  yields (DirectParse.validateEasJson easJson) tt
    [Out (nl ++ "--- Validating eas.json ---");
     finding FAIL (dq ++ "build.production" ++ dq
                   ++ " profile not found in eas.json.")].
Proof.
  intros H. unfold DirectParse.validateEasJson.
  eapply yields_cast; [yields_step; rewrite H; simpl negb; cbv iota; yields_step |].
  reflexivity.
Qed.

Lemma DirectParse_profileStage_parsed (w : World) (easJson : jsval)
  (evs : list event) :
  read_json w (DirectParse.easJsonPath w) = Ok easJson ->
  yields (DirectParse.validateEasJson easJson) tt evs ->
  yields (DirectParse.profileStage w) tt evs.
Proof.
  unfold read_json. intros Hread Hval st. unfold DirectParse.profileStage.
  destruct (fs_readFileSync w (DirectParse.easJsonPath w)) as [raw | e];
    [| discriminate Hread].
  unfold try_catch, bind, lift, ret. rewrite Hread, Hval. reflexivity.
Qed.

Lemma summary_after_FAIL (w : World) (evs : list event) :
  any_fail evs = true ->
  DirectParse.summary (emit evs initial)
  = (Exited 1,
     emit (evs ++ [Out separator; Err DirectParse.preflight_failed]) initial).
Proof.
  intros H. unfold DirectParse.summary, bind, console_log, console_error,
    print, read_hasFails, process_exit, emit; simpl.
  rewrite H, any_fail_app, H. simpl. now rewrite <- app_assoc.
Qed.

(** C4.  When the document read from eas.json has no [build.production]
    profile, [validateEasJson] prints the [FAIL] that says so and nothing
    on auto-increment or environment variables; in a run that gets as far
    as eas.json this finding is followed by the summary only; and the
    status of the process is 1 in every such run. *)
Theorem missing_production_profile (w : World) (easJson : jsval) :
  let not_found :=
    finding FAIL (dq ++ "build.production" ++ dq
                  ++ " profile not found in eas.json.") in
  read_json w (DirectParse.easJsonPath w) = Ok easJson ->
  Js.truthy (Js.get (Js.get easJson "build") "production") = false ->
  yields (DirectParse.validateEasJson easJson) tt
    [Out (nl ++ "--- Validating eas.json ---"); not_found] /\
  exit_status (fst (DirectParse.main w)) = 1 /\
  (forall st, DirectParse.configStage w initial = (Ret tt, st) ->
     DirectParse.main w
     = (Exited 1,
        emit (console st
                ++ [Out (nl ++ "--- Validating eas.json ---"); not_found;
                    Out separator; Err DirectParse.preflight_failed])
          initial)).
Proof.
  intros not_found Hread Hprod.
  pose proof (DirectParse_validateEasJson_no_production easJson Hprod) as Hval.
  pose proof (DirectParse_profileStage_parsed w easJson _ Hread Hval) as Hstage.
  split; [exact Hval |].
  destruct (DirectParse_configStage_exits w initial) as (l & Hl & _ & Hexit).
  assert (Hreached : forall st,
             DirectParse.configStage w initial = (Ret tt, st) ->
             DirectParse.main w
             = (Exited 1,
                emit (console st
                        ++ [Out (nl ++ "--- Validating eas.json ---"); not_found;
                            Out separator; Err DirectParse.preflight_failed])
                  initial)).
  { intros st Hst. rewrite Hst in Hl. simpl in Hl. subst st.
    unfold DirectParse.main, DirectParse.run, DirectParse.checks, bind.
    rewrite Hst, Hstage, emit_emit, (summary_after_FAIL w).
    - simpl. now rewrite <- !app_assoc.
    - rewrite any_fail_app. apply orb_true_r. }
  split; [| exact Hreached].
  destruct (DirectParse.configStage w initial) as [[[] | c | e] st] eqn:Hst.
  - now rewrite (Hreached st eq_refl).
  - unfold DirectParse.main, DirectParse.run, DirectParse.checks, bind.
    rewrite Hst. simpl. now apply Hexit.
  - unfold DirectParse.main, DirectParse.run, DirectParse.checks, bind.
    rewrite Hst. reflexivity.
Qed.

Lemma missing_production_profile_witness :
  let w := Sample.project Sample.all_files (Ok Sample.app)
             (Ok (JObj [("build", JObj [("preview", JObj [])])]))
             (Throws EmptyString) (Ok EmptyString) None in
  exit_status (fst (DirectParse.main w)) = 1.
Proof.
  intros w.
  exact (proj1 (proj2 (missing_production_profile w
                         (JObj [("build", JObj [("preview", JObj [])])])
                         eq_refl eq_refl))).
Defined.

Example missing_production_profile_run :
  let w := Sample.project Sample.all_files (Ok Sample.app)
             (Ok (JObj [("build", JObj [("preview", JObj [])])]))
             (Throws EmptyString) (Ok EmptyString) None in
  skipn 12 (findings (console (snd (DirectParse.main w))))
  = [ {| severity := FAIL;
         message := dq ++ "build.production" ++ dq
                    ++ " profile not found in eas.json." |} ].
Proof. reflexivity. Qed.

(** ** Fatal preconditions *)

Lemma bind_yields {A B} (m : M A) (f : A -> M B) a evs st :
  yields m a evs -> bind m f st = f a (emit evs st).
Proof. intros H. unfold bind. now rewrite H. Qed.

Lemma bind_exited {A B} (m : M A) (f : A -> M B) c st st' :
  m st = (Exited c, st') -> bind m f st = (Exited c, st').
Proof. intros H. unfold bind. now rewrite H. Qed.

Lemma DirectParse_loadAppJson_fails (w : World) (e : string) (st : state) :
  read_json w (DirectParse.appJsonPath w) = Throws e ->
  DirectParse.loadAppJson w st
  = (Exited 1,
     emit [finding FAIL ("Error reading " ++ DirectParse.appJsonPath w
                         ++ ": " ++ e)] st).
Proof.
  unfold read_json, DirectParse.loadAppJson. intros H.
  destruct (fs_readFileSync w (DirectParse.appJsonPath w)) as [raw | e'].
  - unfold try_catch, bind, lift, ret. rewrite H. unfold throw.
    now rewrite logStatus_emit.
  - injection H as ->. unfold try_catch, bind, lift, throw.
    now rewrite logStatus_emit.
Qed.

Lemma DirectParse_loadAppJson_parsed (w : World) (appJson : jsval) :
  read_json w (DirectParse.appJsonPath w) = Ok appJson ->
  yields (DirectParse.loadAppJson w) appJson [].
Proof.
  unfold read_json, DirectParse.loadAppJson. intros H st.
  destruct (fs_readFileSync w (DirectParse.appJsonPath w)) as [raw | e'];
    [| discriminate H].
  unfold try_catch, bind, lift, ret. rewrite H. now rewrite emit_nil.
Qed.

Lemma DirectParse_profile_missing (w : World) (appJson : jsval) (st : state) :
  fs_existsSync w (DirectParse.easJsonPath w) = false ->
  DirectParse.checkLevelZeroBasics w appJson st
  = (Exited 1,
     emit [Out (nl ++ "--- Level 0: Foundation Checks ---");
           finding FAIL ("eas.json not found! You must run " ++ dq
                         ++ "eas build:configure" ++ dq ++ " first.");
           Err DirectParse.critical_failure] st).
Proof.
  intros H. unfold DirectParse.checkLevelZeroBasics.
  rewrite (bind_yields _ _ _ _ _ (yields_console_log _)).
  rewrite H. simpl negb. cbv iota.
  apply bind_exited.
  rewrite (bind_yields _ _ _ _ _ (yields_logStatus _ _)).
  unfold console_error.
  rewrite (bind_yields _ _ tt [Err DirectParse.critical_failure]).
  - unfold process_exit. now rewrite !emit_emit.
  - intros st'. apply print_emit. discriminate.
Qed.

Lemma DirectParse_basics_return (w : World) (appJson : jsval) :
  fs_existsSync w (DirectParse.easJsonPath w) = true ->
  is_nullish appJson = false ->
  exists more,
    yields (DirectParse.checkLevelZeroBasics w appJson) tt
      (Out (nl ++ "--- Level 0: Foundation Checks ---")
         :: finding PASS "eas.json exists." :: more).
Proof.
  intros Hexists Hn.
  assert (Hrest : returns
            (bind (prop appJson "expo") (fun expo =>
             let projectId :=
               Js.get (Js.get (Js.get expo "extra") "eas") "projectId" in
             bind (if negb (Js.truthy projectId) then
                     logStatus FAIL
                       ("Missing expo.extra.eas.projectId in app.json. You must run "
                        ++ dq ++ "eas init" ++ dq
                        ++ " to link this project to Expo.")
                   else
                     logStatus PASS ("Project linked to EAS (ID: "
                                     ++ Js.toString projectId ++ ")."))
               (fun _ =>
                let hasLockfile :=
                  existsb (fun file => fs_existsSync w (path_join_cwd w file))
                    lockfiles in
                bind (if negb hasLockfile then
                        logStatus FAIL "No lockfile found (package-lock.json, yarn.lock, etc.). Cloud builds will be unpredictable. Please generate and commit a lockfile."
                      else logStatus PASS "Lockfile detected.")
                  (fun _ => DirectParse.gitRule w))))).
  { cbv zeta. repeat returns_step. }
  destruct (returns_unit _ Hrest) as (more & Hmore).
  exists more. unfold DirectParse.checkLevelZeroBasics.
  rewrite Hexists. simpl negb. cbv iota.
  apply (yields_bind _ _ tt tt [_] (_ :: more)); [apply yields_console_log |].
  apply (yields_bind _ _ tt tt [_] more); [apply yields_logStatus | exact Hmore].
Qed.

Lemma DirectParse_validateAppJson_returns (w : World) (appJson : jsval) :
  is_nullish appJson = false ->
  exists more,
    yields (DirectParse.validateAppJson w appJson) tt
      (Out (nl ++ "--- Validating app.json ---") :: more).
Proof.
  intros Hn. destruct (Js.truthy (Js.get appJson "expo")) eqn:Hexpo.
  - destruct (DirectParse_validateAppJson_rules w appJson Hexpo)
      as (f1 & f2 & f3 & f4 & f5 & f6 & Hall & _).
    eexists. exact Hall.
  - eexists. unfold DirectParse.validateAppJson.
    eapply yields_cast.
    + yields_step. yields_step. rewrite Hexpo. simpl negb. cbv iota.
      yields_step.
    + reflexivity.
Qed.

Lemma DirectParse_profileStage_unreadable (w : World) (e : string) :
  read_json w (DirectParse.easJsonPath w) = Throws e ->
  yields (DirectParse.profileStage w) tt
    [finding FAIL ("Error reading " ++ DirectParse.easJsonPath w ++ ": " ++ e)].
Proof.
  unfold read_json, DirectParse.profileStage. intros H st.
  destruct (fs_readFileSync w (DirectParse.easJsonPath w)) as [raw | e'].
  - unfold try_catch, bind, lift, ret. rewrite H. unfold throw.
    apply logStatus_emit.
  - injection H as ->. unfold try_catch, bind, lift, throw.
    apply logStatus_emit.
Qed.

Lemma CompiledResolve_resolve_fails (w : World) (st : state) :
  CompiledResolve_fatal w = Some ExternalResolveFailure ->
  CompiledResolve.getResolvedExpoConfig w st
  = (Exited 1,
     emit [Out (nl ++ "--- Resolving Expo Configuration ---");
           finding FAIL "Failed to evaluate Expo config. Ensure your app.config.js has no syntax errors."]
       st).
Proof.
  unfold CompiledResolve_fatal, CompiledResolve.getResolvedExpoConfig.
  intros H. rewrite (bind_yields _ _ _ _ _ (yields_console_log _)).
  destruct (expo_config_json w) as [stdout | e].
  - destruct (JSON_parse w stdout) as [parsed | e] eqn:Hparse;
      [discriminate H |].
    unfold try_catch, bind, lift, ret. rewrite Hparse. unfold throw.
    unfold process_exit. now rewrite logStatus_emit, emit_emit.
  - unfold try_catch, bind, lift, throw, process_exit.
    now rewrite logStatus_emit, emit_emit.
Qed.


Lemma sample_environment_ok files app eas compiled git sizeOf :
  Sample.one_of files "package.json" = true ->
  Sample.one_of files "node_modules" = true ->
  environment_ok (Sample.project files app eas compiled git sizeOf).
Proof.
  intros Hpkg Hmod. split; [exact Hpkg | split; [exact Hmod |]].
  exists "package.json", Sample.pkg. simpl. rewrite Hpkg. now repeat split.
Qed.




(** * Further properties *)

(** ** Results that can no longer end in success *)

Lemma hasFails_emit (evs : list event) (st : state) :
  hasFails st = true -> hasFails (emit evs st) = true.
Proof. intros H. unfold emit; simpl. now rewrite H. Qed.

Lemma traced_doomed {A} (P : event -> Prop) (m : M A) (st : state) :
  traced P (fun c => c = 1) m -> hasFails st = true -> doomed (m st).
Proof.
  intros Hm Hst. destruct (Hm st) as (evs & Hevs & _ & Hexit).
  unfold doomed. destruct (m st) as [[a | c | e] st']; simpl in *.
  - subst st'. now apply hasFails_emit.
  - now apply Hexit.
  - exact I.
Qed.

Lemma doomed_bind {A B} (P : event -> Prop) (m : M A) (f : A -> M B)
  (st : state) :
  doomed (m st) -> (forall a, traced P (fun c => c = 1) (f a)) ->
  doomed (bind m f st).
Proof.
  intros Hm Hf. unfold doomed in Hm. unfold bind.
  destruct (m st) as [[a | c | e] st']; simpl in Hm.
  - now apply (traced_doomed P).
  - exact Hm.
  - exact I.
Qed.

Lemma aborted_doomed {A} (m : M A) (st : state) :
  aborted (fst (m st)) -> doomed (m st).
Proof.
  unfold aborted, doomed. destruct (fst (m st)); [intros [] | auto | auto].
Qed.

Lemma doomed_after {A B} (m : M A) (f : A -> M B) a evs st :
  yields m a evs -> doomed (f a (emit evs st)) -> doomed (bind m f st).
Proof. intros Hm Hf. now rewrite (bind_yields _ _ _ _ _ Hm). Qed.

Lemma doomed_returned {A} (m : M A) a evs st :
  yields m a evs -> any_fail evs = true -> doomed (m st).
Proof.
  intros Hm Hfail. unfold doomed. rewrite Hm. simpl.
  rewrite Hfail. apply orb_true_r.
Qed.

Lemma summary_of_doomed (failed ok : string) (checks : M unit) (st : state) :
  doomed (checks st) ->
  exit_status (fst (bind checks (fun _ => summary_of failed ok) st)) = 1.
Proof.
  unfold doomed, bind. destruct (checks st) as [[[] | c | e] st']; simpl.
  - intros H. unfold summary_of, bind, console_log, console_error, print,
      read_hasFails, process_exit; simpl. now rewrite H.
  - auto.
  - auto.
Qed.

Lemma summary_of_clean (failed ok : string) (checks : M unit) (evs : list event) :
  checks initial = (Ret tt, emit evs initial) -> any_fail evs = false ->
  fst (bind checks (fun _ => summary_of failed ok) initial) = Exited 0.
Proof.
  intros Hc Hclean. unfold bind. rewrite Hc.
  unfold summary_of, bind, console_log, console_error, print,
    read_hasFails, process_exit; simpl. now rewrite Hclean.
Qed.

(** ** The environment checks *)

Lemma bind_thrown {A B} (m : M A) (f : A -> M B) e st st' :
  m st = (Thrown e, st') -> bind m f st = (Thrown e, st').
Proof. intros H. unfold bind. now rewrite H. Qed.

Lemma fail_and_exit {A} (msg : string) (st : state) :
  bind (logStatus FAIL msg) (fun _ => @process_exit A 1) st
  = (Exited 1, emit [finding FAIL msg] st).
Proof. now rewrite (bind_yields _ _ _ _ _ (yields_logStatus _ _)). Qed.

Lemma DirectParse_environment_cases (w : World) (st : state) :
  let header := Out (nl ++ "--- Level 0.5: Environment Validation ---") in
  (environment_ok w /\
   DirectParse.checkLevelZeroPointFive w st
   = (Ret tt, emit (tl DirectParse_preamble) st)) \/
  (~ environment_ok w /\
   ((exists passed msg,
       DirectParse.checkLevelZeroPointFive w st
       = (Exited 1, emit (header :: passed ++ [finding FAIL msg]) st) /\
       any_fail passed = false) \/
    (exists e,
       DirectParse.checkLevelZeroPointFive w st
       = (Thrown e, emit [header] st)))).
Proof.
  intros header.
  destruct (fs_existsSync w "package.json") eqn:Hpkg.
  2:{ right. split.
      - intros (H & _). congruence.
      - left. exists [], "package.json not found. Are you in the right directory?".
        split; [| reflexivity].
        unfold DirectParse.checkLevelZeroPointFive.
        rewrite (bind_yields _ _ _ _ _ (yields_console_log _)), Hpkg.
        simpl negb. cbv iota.
        erewrite bind_exited; [| apply fail_and_exit].
        now rewrite emit_emit. }
  destruct (fs_readFileSync w "package.json") as [raw | e] eqn:Hraw.
  2:{ right. split.
      - intros (_ & _ & raw & pkg & H & _). congruence.
      - right. exists e. unfold DirectParse.checkLevelZeroPointFive.
        rewrite (bind_yields _ _ _ _ _ (yields_console_log _)), Hpkg, Hraw.
        simpl negb. cbv iota.
        rewrite (bind_yields _ _ _ _ _ (yields_ret tt)).
        erewrite bind_thrown; [| reflexivity]. now rewrite emit_nil. }
  destruct (JSON_parse w raw) as [pkg | e] eqn:Hparse.
  2:{ right. split.
      - intros (_ & _ & raw' & pkg & H & H' & _). congruence.
      - right. exists e. unfold DirectParse.checkLevelZeroPointFive.
        rewrite (bind_yields _ _ _ _ _ (yields_console_log _)), Hpkg, Hraw.
        simpl negb. cbv iota.
        rewrite (bind_yields _ _ _ _ _ (yields_ret tt)).
        rewrite (bind_yields _ _ _ _ _ (yields_lift raw)), Hparse.
        erewrite bind_thrown; [| reflexivity]. now rewrite !emit_nil. }
  destruct (is_nullish pkg) eqn:Hnull.
  { right. split.
    - intros (_ & _ & raw' & pkg' & H & H' & Hexpo).
      assert (pkg' = pkg) by congruence. subst pkg'.
      destruct pkg; discriminate.
    - right.
      exists ("Cannot read properties of " ++ Js.toString pkg
              ++ " (reading 'dependencies')").
      unfold DirectParse.checkLevelZeroPointFive.
      rewrite (bind_yields _ _ _ _ _ (yields_console_log _)), Hpkg, Hraw.
      simpl negb. cbv iota.
      rewrite (bind_yields _ _ _ _ _ (yields_ret tt)).
      rewrite (bind_yields _ _ _ _ _ (yields_lift raw)), Hparse.
      rewrite (bind_yields _ _ _ _ _ (yields_lift pkg)).
      rewrite !emit_nil. apply bind_thrown.
      destruct pkg; try discriminate Hnull; reflexivity. }
  destruct (Js.truthy (Js.get (Js.get pkg "dependencies") "expo")) eqn:Hexpo.
  2:{ right. split.
      - intros (_ & _ & raw' & pkg' & H & H' & Hexpo').
        assert (pkg' = pkg) by congruence. subst pkg'. congruence.
      - left. exists [].
        eexists. split; [| reflexivity].
        unfold DirectParse.checkLevelZeroPointFive.
        rewrite (bind_yields _ _ _ _ _ (yields_console_log _)), Hpkg, Hraw.
        simpl negb. cbv iota.
        rewrite (bind_yields _ _ _ _ _ (yields_ret tt)).
        rewrite (bind_yields _ _ _ _ _ (yields_lift raw)), Hparse.
        rewrite (bind_yields _ _ _ _ _ (yields_lift pkg)).
        rewrite (bind_yields _ _ _ _ _ (yields_prop pkg "dependencies" Hnull)).
        assert (HnoExpo :
          yields (if negb (Js.truthy (Js.get pkg "dependencies")) then ret true
                  else bind (prop (Js.get pkg "dependencies") "expo")
                         (fun expo => ret (negb (Js.truthy expo))))
            true []).
        { destruct (Js.truthy (Js.get pkg "dependencies")) eqn:Hdeps; simpl.
          - eapply yields_cast.
            + eapply yields_bind;
                [apply yields_prop; now apply truthy_not_nullish |].
              cbv beta. rewrite Hexpo. apply yields_ret.
            + reflexivity.
          - apply yields_ret. }
        rewrite (bind_yields _ _ _ _ _ HnoExpo).
        erewrite bind_exited; [| apply fail_and_exit].
        now rewrite !emit_emit. }
  assert (Hdeps : Js.truthy (Js.get pkg "dependencies") = true).
  { destruct (Js.get pkg "dependencies"); try discriminate Hexpo. reflexivity. }
  destruct (fs_existsSync w "node_modules") eqn:Hmod.
  - left. assert (Henv : environment_ok w).
    { split; [exact Hpkg | split; [exact Hmod |]]. now exists raw, pkg. }
    split; [exact Henv | now apply DirectParse_levelZeroPointFive].
  - right. split.
    + intros (_ & H & _). congruence.
    + left.
      exists [finding PASS ("Expo project detected (found " ++ dq ++ "expo" ++ dq
                            ++ " in package.json dependencies).")].
      eexists. split; [| reflexivity].
      unfold DirectParse.checkLevelZeroPointFive.
      rewrite (bind_yields _ _ _ _ _ (yields_console_log _)), Hpkg, Hraw.
      simpl negb. cbv iota.
      rewrite (bind_yields _ _ _ _ _ (yields_ret tt)).
      rewrite (bind_yields _ _ _ _ _ (yields_lift raw)), Hparse.
      rewrite (bind_yields _ _ _ _ _ (yields_lift pkg)).
      rewrite (bind_yields _ _ _ _ _ (yields_prop pkg "dependencies" Hnull)).
      rewrite Hdeps. simpl negb. cbv iota.
      assert (HnoExpo :
        yields (bind (prop (Js.get pkg "dependencies") "expo")
                  (fun expo => ret (negb (Js.truthy expo)))) false []).
      { eapply yields_cast.
        - eapply yields_bind;
            [apply yields_prop; now apply truthy_not_nullish |].
          cbv beta. rewrite Hexpo. apply yields_ret.
        - reflexivity. }
      rewrite (bind_yields _ _ _ _ _ HnoExpo).
      rewrite (bind_yields _ _ _ _ _ (yields_ret tt)).
      rewrite (bind_yields _ _ _ _ _ (yields_logStatus _ _)), Hmod.
      simpl negb. cbv iota.
      erewrite bind_exited; [| apply fail_and_exit].
      now rewrite !emit_emit.
Qed.


Lemma CompiledResolve_environment_cases (w : World) (st : state) :
  let header := Out (nl ++ "--- Level 0.5: Environment Validation ---") in
  (environment_ok w /\
   CompiledResolve.checkLevelZeroPointFive w st
   = (Ret tt, emit (tl CompiledResolve_preamble) st)) \/
  (~ environment_ok w /\
   ((exists passed msg,
       CompiledResolve.checkLevelZeroPointFive w st
       = (Exited 1, emit (header :: passed ++ [finding FAIL msg]) st) /\
       any_fail passed = false) \/
    (exists e,
       CompiledResolve.checkLevelZeroPointFive w st
       = (Thrown e, emit [header] st)))).
Proof.
  intros header.
  destruct (fs_existsSync w "package.json") eqn:Hpkg.
  2:{ right. split.
      - intros (H & _). congruence.
      - left. exists [], "package.json not found. Are you in the right directory?".
        split; [| reflexivity].
        unfold CompiledResolve.checkLevelZeroPointFive.
        rewrite (bind_yields _ _ _ _ _ (yields_console_log _)), Hpkg.
        simpl negb. cbv iota.
        erewrite bind_exited; [| apply fail_and_exit].
        now rewrite emit_emit. }
  destruct (fs_readFileSync w "package.json") as [raw | e] eqn:Hraw.
  2:{ right. split.
      - intros (_ & _ & raw & pkg & H & _). congruence.
      - right. exists e. unfold CompiledResolve.checkLevelZeroPointFive.
        rewrite (bind_yields _ _ _ _ _ (yields_console_log _)), Hpkg, Hraw.
        simpl negb. cbv iota.
        rewrite (bind_yields _ _ _ _ _ (yields_ret tt)).
        erewrite bind_thrown; [| reflexivity]. now rewrite emit_nil. }
  destruct (JSON_parse w raw) as [pkg | e] eqn:Hparse.
  2:{ right. split.
      - intros (_ & _ & raw' & pkg & H & H' & _). congruence.
      - right. exists e. unfold CompiledResolve.checkLevelZeroPointFive.
        rewrite (bind_yields _ _ _ _ _ (yields_console_log _)), Hpkg, Hraw.
        simpl negb. cbv iota.
        rewrite (bind_yields _ _ _ _ _ (yields_ret tt)).
        rewrite (bind_yields _ _ _ _ _ (yields_lift raw)), Hparse.
        erewrite bind_thrown; [| reflexivity]. now rewrite !emit_nil. }
  destruct (is_nullish pkg) eqn:Hnull.
  { right. split.
    - intros (_ & _ & raw' & pkg' & H & H' & Hexpo).
      assert (pkg' = pkg) by congruence. subst pkg'.
      destruct pkg; discriminate.
    - right.
      exists ("Cannot read properties of " ++ Js.toString pkg
              ++ " (reading 'dependencies')").
      unfold CompiledResolve.checkLevelZeroPointFive.
      rewrite (bind_yields _ _ _ _ _ (yields_console_log _)), Hpkg, Hraw.
      simpl negb. cbv iota.
      rewrite (bind_yields _ _ _ _ _ (yields_ret tt)).
      rewrite (bind_yields _ _ _ _ _ (yields_lift raw)), Hparse.
      rewrite (bind_yields _ _ _ _ _ (yields_lift pkg)).
      rewrite !emit_nil. apply bind_thrown.
      destruct pkg; try discriminate Hnull; reflexivity. }
  destruct (Js.truthy (Js.get (Js.get pkg "dependencies") "expo")) eqn:Hexpo.
  2:{ right. split.
      - intros (_ & _ & raw' & pkg' & H & H' & Hexpo').
        assert (pkg' = pkg) by congruence. subst pkg'. congruence.
      - left. exists [].
        eexists. split; [| reflexivity].
        unfold CompiledResolve.checkLevelZeroPointFive.
        rewrite (bind_yields _ _ _ _ _ (yields_console_log _)), Hpkg, Hraw.
        simpl negb. cbv iota.
        rewrite (bind_yields _ _ _ _ _ (yields_ret tt)).
        rewrite (bind_yields _ _ _ _ _ (yields_lift raw)), Hparse.
        rewrite (bind_yields _ _ _ _ _ (yields_lift pkg)).
        rewrite (bind_yields _ _ _ _ _ (yields_prop pkg "dependencies" Hnull)).
        assert (HnoExpo :
          yields (if negb (Js.truthy (Js.get pkg "dependencies")) then ret true
                  else bind (prop (Js.get pkg "dependencies") "expo")
                         (fun expo => ret (negb (Js.truthy expo))))
            true []).
        { destruct (Js.truthy (Js.get pkg "dependencies")) eqn:Hdeps; simpl.
          - eapply yields_cast.
            + eapply yields_bind;
                [apply yields_prop; now apply truthy_not_nullish |].
              cbv beta. rewrite Hexpo. apply yields_ret.
            + reflexivity.
          - apply yields_ret. }
        rewrite (bind_yields _ _ _ _ _ HnoExpo).
        erewrite bind_exited; [| apply fail_and_exit].
        now rewrite !emit_emit. }
  assert (Hdeps : Js.truthy (Js.get pkg "dependencies") = true).
  { destruct (Js.get pkg "dependencies"); try discriminate Hexpo. reflexivity. }
  destruct (fs_existsSync w "node_modules") eqn:Hmod.
  - left. assert (Henv : environment_ok w).
    { split; [exact Hpkg | split; [exact Hmod |]]. now exists raw, pkg. }
    split; [exact Henv | now apply CompiledResolve_levelZeroPointFive].
  - right. split.
    + intros (_ & H & _). congruence.
    + left.
      exists [finding PASS ("Expo project detected (found " ++ dq ++ "expo" ++ dq
                            ++ " in dependencies).")].
      eexists. split; [| reflexivity].
      unfold CompiledResolve.checkLevelZeroPointFive.
      rewrite (bind_yields _ _ _ _ _ (yields_console_log _)), Hpkg, Hraw.
      simpl negb. cbv iota.
      rewrite (bind_yields _ _ _ _ _ (yields_ret tt)).
      rewrite (bind_yields _ _ _ _ _ (yields_lift raw)), Hparse.
      rewrite (bind_yields _ _ _ _ _ (yields_lift pkg)).
      rewrite (bind_yields _ _ _ _ _ (yields_prop pkg "dependencies" Hnull)).
      rewrite Hdeps. simpl negb. cbv iota.
      assert (HnoExpo :
        yields (bind (prop (Js.get pkg "dependencies") "expo")
                  (fun expo => ret (negb (Js.truthy expo)))) false []).
      { eapply yields_cast.
        - eapply yields_bind;
            [apply yields_prop; now apply truthy_not_nullish |].
          cbv beta. rewrite Hexpo. apply yields_ret.
        - reflexivity. }
      rewrite (bind_yields _ _ _ _ _ HnoExpo).
      rewrite (bind_yields _ _ _ _ _ (yields_ret tt)).
      rewrite (bind_yields _ _ _ _ _ (yields_logStatus _ _)), Hmod.
      simpl negb. cbv iota.
      erewrite bind_exited; [| apply fail_and_exit].
      now rewrite !emit_emit.
Qed.


(** ** When the rules fail *)

Lemma any_fail_one (f : Finding) : any_fail [Logged f] = is_fail (severity f).
Proof. unfold any_fail; simpl. apply orb_false_r. Qed.

Lemma any_fail_cons_out (line : string) (evs : list event) :
  any_fail (Out line :: evs) = any_fail evs.
Proof. reflexivity. Qed.

Lemma any_fail_cons (f : Finding) (evs : list event) :
  any_fail (Logged f :: evs) = orb (is_fail (severity f)) (any_fail evs).
Proof. reflexivity. Qed.

Lemma DirectParse_androidPackageRule_fails (v : jsval) (f : Finding) :
  yields (DirectParse.androidPackageRule v) tt [Logged f] ->
  is_fail (severity f) = negb (identifier_ok v).
Proof.
  unfold DirectParse.androidPackageRule, identifier_ok. intros H.
  destruct (Js.truthy v); simpl in *;
    [destruct (invalidDomainRegex_test (Js.toString v)); simpl in * |];
    now rewrite (yields_finding _ _ _ _ H (yields_logStatus _ _)).
Qed.

Lemma DirectParse_iosBundleRule_fails (v : jsval) (f : Finding) :
  yields (DirectParse.iosBundleRule v) tt [Logged f] ->
  is_fail (severity f) = negb (identifier_ok v).
Proof.
  unfold DirectParse.iosBundleRule, identifier_ok. intros H.
  destruct (Js.truthy v); simpl in *;
    [destruct (invalidDomainRegex_test (Js.toString v)); simpl in * |];
    now rewrite (yields_finding _ _ _ _ H (yields_logStatus _ _)).
Qed.

Lemma DirectParse_schemeRule_never_fails (v : jsval) (f : Finding) :
  yields (DirectParse.schemeRule v) tt [Logged f] -> is_fail (severity f) = false.
Proof.
  unfold DirectParse.schemeRule. intros H.
  destruct (Js.truthy v); simpl in *;
    now rewrite (yields_finding _ _ _ _ H (yields_logStatus _ _)).
Qed.

Lemma DirectParse_runtimeVersionRule_never_fails (w : World) (v : jsval)
  (f : Finding) :
  yields (DirectParse.runtimeVersionRule w v) tt [Logged f] ->
  is_fail (severity f) = false.
Proof.
  unfold DirectParse.runtimeVersionRule. intros H.
  destruct (Js.truthy v); simpl in *;
    [destruct (Js.typeof_object v && _)%bool; simpl in * |];
    now rewrite (yields_finding _ _ _ _ H (yields_logStatus _ _)).
Qed.

Lemma DirectParse_targetSdkRule_fails (w : World) (v : jsval) (f : Finding) :
  yields (DirectParse.targetSdkRule w v) tt [Logged f] ->
  is_fail (severity f) = negb (DirectParse_targetSdk_ok w v).
Proof.
  unfold DirectParse.targetSdkRule, DirectParse_targetSdk_ok. intros H.
  destruct (Js.truthy v); simpl in *;
    [destruct (js_lt w v 35); simpl in * |];
    now rewrite (yields_finding _ _ _ _ H (yields_logStatus _ _)).
Qed.

Lemma DirectParse_newArchRule_never_fails (v : jsval) (f : Finding) :
  yields (DirectParse.newArchRule v) tt [Logged f] -> is_fail (severity f) = false.
Proof.
  unfold DirectParse.newArchRule. intros H.
  destruct (Js.strict_eq_bool v false); simpl in *;
    now rewrite (yields_finding _ _ _ _ H (yields_logStatus _ _)).
Qed.

Lemma DirectParse_validateAppJson_fails (w : World) (appJson : jsval) :
  is_nullish appJson = false ->
  exists evs,
    yields (DirectParse.validateAppJson w appJson) tt evs /\
    any_fail evs = negb (DirectParse_config_ok w appJson).
Proof.
  intros Hn. unfold DirectParse_config_ok.
  destruct (Js.truthy (Js.get appJson "expo")) eqn:Hexpo.
  - destruct (DirectParse_validateAppJson_rules w appJson Hexpo)
      as (f1 & f2 & f3 & f4 & f5 & f6 & Hall & H1 & H2 & H3 & H4 & H5 & H6).
    eexists. split; [exact Hall |].
    rewrite any_fail_cons_out, !any_fail_cons.
    rewrite (DirectParse_androidPackageRule_fails _ _ H1),
      (DirectParse_iosBundleRule_fails _ _ H2),
      (DirectParse_schemeRule_never_fails _ _ H3),
      (DirectParse_runtimeVersionRule_never_fails _ _ _ H4),
      (DirectParse_targetSdkRule_fails _ _ _ H5),
      (DirectParse_newArchRule_never_fails _ _ H6).
    simpl. rewrite !negb_andb, !orb_false_r. reflexivity.
  - eexists. split.
    + unfold DirectParse.validateAppJson. eapply yields_cast.
      * yields_step. yields_step. rewrite Hexpo. simpl negb. cbv iota.
        yields_step.
      * reflexivity.
    + reflexivity.
Qed.

Lemma gitRule_one_finding (w : World) :
  exists f, yields (DirectParse.gitRule w) tt [Logged f] /\
            is_fail (severity f) = false.
Proof.
  unfold DirectParse.gitRule.
  destruct (git_status_porcelain w) as [out | e].
  - destruct (0 <? String.length (Js.trim out))%nat eqn:E;
      eexists;
      (split;
       [ intros st; unfold try_catch, bind, lift, ret;
         rewrite E; apply logStatus_emit
       | reflexivity ]).
  - eexists. split.
    + intros st. unfold try_catch, bind, lift, throw. apply logStatus_emit.
    + reflexivity.
Qed.

Lemma DirectParse_basics_fail (w : World) (appJson : jsval) :
  fs_existsSync w (DirectParse.easJsonPath w) = true ->
  is_nullish appJson = false ->
  exists evs,
    yields (DirectParse.checkLevelZeroBasics w appJson) tt evs /\
    any_fail evs = negb (foundation_ok w appJson).
Proof.
  intros Heas Hn. unfold foundation_ok, has_lockfile.
  destruct (gitRule_one_finding w) as (g & Hgit & Hg).
  unfold DirectParse.checkLevelZeroBasics. rewrite Heas. cbn [negb].
  destruct (Js.truthy (Js.get (Js.get (Js.get (Js.get appJson "expo") "extra")
                                 "eas") "projectId")) eqn:Hid;
    destruct (existsb (fun file => fs_existsSync w (path_join_cwd w file))
                lockfiles) eqn:Hlock;
    eexists;
    (split;
     [ eapply yields_cast;
       [ yields_step; yields_step; yields_step; cbv zeta; rewrite Hid;
         cbn [negb]; yields_step; try rewrite Hlock;
         cbn [negb]; yields_step; exact Hgit
       | reflexivity ]
     | simpl app; unfold finding;
       rewrite any_fail_cons_out, !any_fail_cons, Hg;
       reflexivity ]).
Qed.

Lemma DirectParse_basics_throw (w : World) (appJson : jsval) (st : state) :
  fs_existsSync w (DirectParse.easJsonPath w) = true ->
  is_nullish appJson = true ->
  aborted (fst (DirectParse.checkLevelZeroBasics w appJson st)).
Proof.
  intros Heas Hn. unfold DirectParse.checkLevelZeroBasics.
  rewrite Heas. simpl negb. cbv iota.
  rewrite (bind_yields _ _ _ _ _ (yields_console_log _)).
  rewrite (bind_yields _ _ _ _ _ (yields_logStatus _ _)).
  destruct appJson; try discriminate Hn; exact I.
Qed.

Lemma DirectParse_validateEasJson_fails (easJson : jsval) :
  exists evs,
    yields (DirectParse.validateEasJson easJson) tt evs /\
    any_fail evs = negb (profile_ok easJson).
Proof.
  unfold profile_ok, DirectParse.validateEasJson.
  set (prodProfile := Js.get (Js.get easJson "build") "production").
  destruct (Js.truthy prodProfile) eqn:Hprod.
  - pose proof (truthy_not_nullish _ Hprod) as Hn.
    destruct (Js.strict_eq_bool (Js.get prodProfile "autoIncrement") true)
      eqn:Hauto;
      destruct (List.length
                  (Js.Object_keys (Js.or (Js.get prodProfile "env") (JObj [])))
                =? 0)%nat eqn:Henv;
      eexists;
      (split;
       [ eapply yields_cast;
         [ yields_step; cbv zeta; cbn [negb]; yields_step; rewrite Hauto;
           cbn [negb]; yields_step; yields_step; rewrite Henv; yields_step
         | reflexivity ]
       | reflexivity ]).
  - eexists. split.
    + eapply yields_cast.
      * yields_step. cbv zeta. cbn [negb]. yields_step.
      * reflexivity.
    + reflexivity.
Qed.

(** ** When the direct-parse revision succeeds *)

Ltac DirectParse_traced :=
  intros;
  unfold DirectParse.profileStage, DirectParse.loadAppJson,
    DirectParse.checkLevelZeroBasics, DirectParse.validateAppJson,
    DirectParse.validateEasJson, DirectParse.gitRule,
    DirectParse.androidPackageRule, DirectParse.iosBundleRule,
    DirectParse.schemeRule, DirectParse.runtimeVersionRule,
    DirectParse.targetSdkRule, DirectParse.newArchRule;
  traced_all ltac:(first [exact I | reflexivity]).

Lemma DirectParse_profileStage_fails (w : World) :
  exists evs,
    yields (DirectParse.profileStage w) tt evs /\
    any_fail evs
    = match read_json w (DirectParse.easJsonPath w) with
      | Ok easJson => negb (profile_ok easJson)
      | Throws _ => true
      end.
Proof.
  destruct (read_json w (DirectParse.easJsonPath w)) as [easJson | e] eqn:Hread.
  - destruct (DirectParse_validateEasJson_fails easJson) as (evs & Hy & Hf).
    exists evs. split; [| exact Hf].
    now apply (DirectParse_profileStage_parsed w easJson).
  - eexists. split; [apply (DirectParse_profileStage_unreadable w e Hread) |].
    reflexivity.
Qed.

Lemma DirectParse_passes_parts (w : World) (appJson : jsval) :
  environment_ok w ->
  read_json w (DirectParse.appJsonPath w) = Ok appJson ->
  fs_existsSync w (DirectParse.easJsonPath w) = true ->
  (DirectParse_passes w <->
   foundation_ok w appJson = true /\
   DirectParse_config_ok w appJson = true /\
   match read_json w (DirectParse.easJsonPath w) with
   | Ok easJson => profile_ok easJson = true
   | Throws _ => False
   end).
Proof.
  intros Henv Happ Heas. unfold DirectParse_passes, foundation_ok,
    DirectParse_config_ok. split.
  - intros (_ & appJson' & easJson & Happ' & _ & Hread & Hexpo & Hid & Hlock
            & Ha & Hi & Hsdk & Hprof).
    assert (appJson' = appJson) by congruence. subst appJson'.
    rewrite Hread, Hexpo, Hid, Hlock, Ha, Hi, Hsdk. now repeat split.
  - intros (Hf & Hc & Hp).
    destruct (read_json w (DirectParse.easJsonPath w)) as [easJson | e] eqn:Hread;
      [| contradiction].
    apply andb_true_iff in Hf. destruct Hf as [Hid Hlock].
    apply andb_true_iff in Hc. destruct Hc as [Hexpo Hc].
    apply andb_true_iff in Hc. destruct Hc as [Ha Hc].
    apply andb_true_iff in Hc. destruct Hc as [Hi Hsdk].
    split; [exact Henv |]. exists appJson, easJson. now repeat split.
Qed.

(** The checks of the direct-parse revision either find everything in
    order and return with no [FAIL] printed, or can no longer end in
    success. *)
Lemma DirectParse_checks_decide (w : World) :
  (DirectParse_passes w /\
   exists evs, DirectParse.checks w initial = (Ret tt, emit evs initial) /\
               any_fail evs = false) \/
  (~ DirectParse_passes w /\ doomed (DirectParse.checks w initial)).
Proof.
  unfold DirectParse.checks, DirectParse.configStage.
  set (start := "Starting Expo Build Preflight..." ++ nl).
  destruct (DirectParse_environment_cases w (emit [Out start] initial))
    as [[Henv Hzero] | [Hnenv Hgone]].
  2:{ right. split; [intros (H & _); contradiction |].
      apply (doomed_bind (fun _ => True)); [| DirectParse_traced].
      eapply doomed_after; [apply yields_console_log |].
      apply (doomed_bind (fun _ => True)); [| DirectParse_traced].
      apply aborted_doomed.
      destruct Hgone as [(passed & msg & -> & _) | (e & ->)]; reflexivity. }
  pose proof (DirectParse_levelZeroPointFive w Henv) as Hfive.
  destruct (read_json w (DirectParse.appJsonPath w)) as [appJson | e] eqn:Happ.
  2:{ right. split.
      - intros (_ & a & b & H & _). congruence.
      - apply (doomed_bind (fun _ => True)); [| DirectParse_traced].
        eapply doomed_after; [apply yields_console_log |].
        eapply doomed_after; [exact Hfive |].
        apply (doomed_bind (fun _ => True)); [| DirectParse_traced].
        apply aborted_doomed.
        now rewrite (DirectParse_loadAppJson_fails w e). }
  pose proof (DirectParse_loadAppJson_parsed w appJson Happ) as Hload.
  destruct (fs_existsSync w (DirectParse.easJsonPath w)) eqn:Heas.
  2:{ right. split.
      - intros (_ & a & b & _ & H & _). congruence.
      - apply (doomed_bind (fun _ => True)); [| DirectParse_traced].
        eapply doomed_after; [apply yields_console_log |].
        eapply doomed_after; [exact Hfive |].
        eapply doomed_after; [exact Hload |].
        apply (doomed_bind (fun _ => True)); [| DirectParse_traced].
        apply aborted_doomed.
        now rewrite (DirectParse_profile_missing w appJson). }
  destruct (is_nullish appJson) eqn:Hnull.
  { right. split.
    - intros (_ & a & b & H & _ & _ & Hexpo & _).
      assert (a = appJson) by congruence. subst a.
      destruct appJson; discriminate.
    - apply (doomed_bind (fun _ => True)); [| DirectParse_traced].
      eapply doomed_after; [apply yields_console_log |].
      eapply doomed_after; [exact Hfive |].
      eapply doomed_after; [exact Hload |].
      apply (doomed_bind (fun _ => True)); [| DirectParse_traced].
      apply aborted_doomed. now apply DirectParse_basics_throw. }
  destruct (DirectParse_basics_fail w appJson Heas Hnull) as (eb & Hb & Fb).
  destruct (DirectParse_validateAppJson_fails w appJson Hnull) as (ev & Hv & Fv).
  destruct (DirectParse_profileStage_fails w) as (ep & Hp & Fp).
  assert (Hchecks :
    yields (bind (bind (console_log start)
                    (fun _ => bind (DirectParse.checkLevelZeroPointFive w)
                      (fun _ => bind (DirectParse.loadAppJson w)
                        (fun appJson =>
                           bind (DirectParse.checkLevelZeroBasics w appJson)
                             (fun _ => DirectParse.validateAppJson w appJson)))))
              (fun _ => DirectParse.profileStage w))
      tt (([Out start] ++ tl DirectParse_preamble ++ [] ++ eb ++ ev) ++ ep)).
  { eapply yields_bind; [| exact Hp].
    eapply yields_bind; [apply yields_console_log |].
    eapply yields_bind; [exact Hfive |].
    eapply yields_bind; [exact Hload |].
    eapply yields_bind; [exact Hb | exact Hv]. }
  assert (Hany :
    any_fail (([Out start] ++ tl DirectParse_preamble ++ [] ++ eb ++ ev) ++ ep)
    = orb (negb (foundation_ok w appJson))
        (orb (negb (DirectParse_config_ok w appJson)) (any_fail ep))).
  { rewrite !any_fail_app, Fb, Fv.
    change (any_fail [Out start]) with false.
    change (any_fail (tl DirectParse_preamble)) with false.
    change (any_fail []) with false.
    cbn [orb]. now rewrite orb_assoc. }
  pose proof (DirectParse_passes_parts w appJson Henv Happ Heas) as Hparts.
  destruct (foundation_ok w appJson) eqn:Hf;
    destruct (DirectParse_config_ok w appJson) eqn:Hc;
    destruct (read_json w (DirectParse.easJsonPath w)) as [easJson | e];
    try destruct (profile_ok easJson) eqn:Hprof;
    simpl in Fp;
    try (right; split;
         [ intros Hpass; apply Hparts in Hpass;
           destruct Hpass as (H1 & H2 & H3);
           first [discriminate | contradiction]
         | eapply doomed_returned;
           [exact Hchecks | rewrite Hany, Fp; reflexivity] ]).
  left. split.
  - apply Hparts. now repeat split.
  - eexists. split; [apply Hchecks |]. now rewrite Hany, Fp.
Qed.


(** ** The profile rules in both revisions *)

Lemma CompiledResolve_validateEasJson_fails (easJson : jsval) :
  exists evs,
    yields (CompiledResolve.validateEasJson easJson) tt evs /\
    any_fail evs = negb (profile_ok easJson).
Proof.
  unfold profile_ok, CompiledResolve.validateEasJson.
  set (prodProfile := Js.get (Js.get easJson "build") "production").
  destruct (Js.truthy prodProfile) eqn:Hprod.
  - pose proof (truthy_not_nullish _ Hprod) as Hn.
    destruct (Js.strict_eq_bool (Js.get prodProfile "autoIncrement") true)
      eqn:Hauto;
      destruct (List.length
                  (Js.Object_keys (Js.or (Js.get prodProfile "env") (JObj [])))
                =? 0)%nat eqn:Henv;
      eexists;
      (split;
       [ eapply yields_cast;
         [ yields_step; cbv zeta; cbn [negb]; yields_step; rewrite Hauto;
           cbn [negb]; yields_step; yields_step; rewrite Henv; yields_step
         | reflexivity ]
       | reflexivity ]).
  - eexists. split.
    + eapply yields_cast.
      * yields_step. cbv zeta. cbn [negb]. yields_step.
      * reflexivity.
    + reflexivity.
Qed.

Lemma DirectParse_validateEasJson_severities (easJson : jsval) :
  exists evs,
    yields (DirectParse.validateEasJson easJson) tt evs /\
    severities evs = profile_severities easJson.
Proof.
  unfold profile_severities, DirectParse.validateEasJson.
  set (prodProfile := Js.get (Js.get easJson "build") "production").
  destruct (Js.truthy prodProfile) eqn:Hprod.
  - pose proof (truthy_not_nullish _ Hprod) as Hn.
    destruct (Js.strict_eq_bool (Js.get prodProfile "autoIncrement") true)
      eqn:Hauto;
      destruct (List.length
                  (Js.Object_keys (Js.or (Js.get prodProfile "env") (JObj [])))
                =? 0)%nat eqn:Henv;
      eexists;
      (split;
       [ eapply yields_cast;
         [ yields_step; cbv zeta; cbn [negb]; yields_step; rewrite Hauto;
           cbn [negb]; yields_step; yields_step; rewrite Henv; yields_step
         | reflexivity ]
       | reflexivity ]).
  - eexists. split.
    + eapply yields_cast.
      * yields_step. cbv zeta. cbn [negb]. yields_step.
      * reflexivity.
    + reflexivity.
Qed.

Lemma CompiledResolve_validateEasJson_severities (easJson : jsval) :
  exists evs,
    yields (CompiledResolve.validateEasJson easJson) tt evs /\
    severities evs = profile_severities easJson.
Proof.
  unfold profile_severities, CompiledResolve.validateEasJson.
  set (prodProfile := Js.get (Js.get easJson "build") "production").
  destruct (Js.truthy prodProfile) eqn:Hprod.
  - pose proof (truthy_not_nullish _ Hprod) as Hn.
    destruct (Js.strict_eq_bool (Js.get prodProfile "autoIncrement") true)
      eqn:Hauto;
      destruct (List.length
                  (Js.Object_keys (Js.or (Js.get prodProfile "env") (JObj [])))
                =? 0)%nat eqn:Henv;
      eexists;
      (split;
       [ eapply yields_cast;
         [ yields_step; cbv zeta; cbn [negb]; yields_step; rewrite Hauto;
           cbn [negb]; yields_step; yields_step; rewrite Henv; yields_step
         | reflexivity ]
       | reflexivity ]).
  - eexists. split.
    + eapply yields_cast.
      * yields_step. cbv zeta. cbn [negb]. yields_step.
      * reflexivity.
    + reflexivity.
Qed.

Lemma any_fail_severities (evs : list event) :
  any_fail evs = existsb is_fail (severities evs).
Proof.
  unfold any_fail, severities.
  induction (findings evs) as [| f l IH]; simpl; [reflexivity | now rewrite IH].
Qed.

Lemma profile_severities_fail (easJson : jsval) :
  existsb is_fail (profile_severities easJson) = negb (profile_ok easJson).
Proof.
  unfold profile_severities, profile_ok.
  destruct (Js.truthy (Js.get (Js.get easJson "build") "production"));
    [| reflexivity].
  destruct (Js.strict_eq_bool _ true); destruct (_ =? _)%nat; reflexivity.
Qed.

(** X2.  Whatever document it is given (an object, [null], a string, an
    array), [validateEasJson] returns and throws nothing, in either
    revision, and both revisions print findings of the same severities: a
    single [FAIL] when there is no [build.production] profile; otherwise
    one finding on [autoIncrement], [PASS] only for the boolean [true],
    and one on the environment variables, [WARN] when there are none and
    [PASS] otherwise.  So a [FAIL] comes exactly from a missing profile or
    an [autoIncrement] that is not [true], never from the environment
    variables. *)
Theorem validateEasJson_severities (easJson : jsval) :
  exists evs evs',
    yields (DirectParse.validateEasJson easJson) tt evs /\
    yields (CompiledResolve.validateEasJson easJson) tt evs' /\
    severities evs = profile_severities easJson /\
    severities evs' = profile_severities easJson /\
    any_fail evs = negb (profile_ok easJson) /\
    any_fail evs' = negb (profile_ok easJson).
Proof.
  destruct (DirectParse_validateEasJson_severities easJson) as (evs & Hy & Hs).
  destruct (CompiledResolve_validateEasJson_severities easJson)
    as (evs' & Hy' & Hs').
  exists evs, evs'. repeat split; try assumption.
  - now rewrite any_fail_severities, Hs, profile_severities_fail.
  - now rewrite any_fail_severities, Hs', profile_severities_fail.
Qed.

(** ** The rules on the configuration in both revisions *)

Ltac destruct_condition b :=
  lazymatch b with
  | negb ?c => destruct_condition c
  | andb ?c _ => destruct_condition c
  | orb ?c _ => destruct_condition c
  | _ => destruct b
  end.

Ltac rule_severity H :=
  repeat match type of H with
         | yields (if ?b then _ else _) _ _ =>
             destruct_condition b; simpl in H |- *
         end;
  now rewrite (yields_finding _ _ _ _ H (yields_logStatus _ _)).

Lemma DirectParse_androidPackage_severity v f :
  yields (DirectParse.androidPackageRule v) tt [Logged f] ->
  severity f = identity_severity v.
Proof.
  unfold DirectParse.androidPackageRule, identity_severity, identifier_ok.
  intros H. rule_severity H.
Qed.

Lemma DirectParse_iosBundle_severity v f :
  yields (DirectParse.iosBundleRule v) tt [Logged f] ->
  severity f = identity_severity v.
Proof.
  unfold DirectParse.iosBundleRule, identity_severity, identifier_ok.
  intros H. rule_severity H.
Qed.

Lemma DirectParse_scheme_severity v f :
  yields (DirectParse.schemeRule v) tt [Logged f] ->
  severity f = scheme_severity v.
Proof.
  unfold DirectParse.schemeRule, scheme_severity. intros H. rule_severity H.
Qed.

Lemma DirectParse_runtimeVersion_severity w v f :
  yields (DirectParse.runtimeVersionRule w v) tt [Logged f] ->
  severity f = runtimeVersion_severity v.
Proof.
  unfold DirectParse.runtimeVersionRule, runtimeVersion_severity.
  intros H. rule_severity H.
Qed.

Lemma DirectParse_targetSdk_severity_of w v f :
  yields (DirectParse.targetSdkRule w v) tt [Logged f] ->
  severity f = DirectParse_targetSdk_severity w v.
Proof.
  unfold DirectParse.targetSdkRule, DirectParse_targetSdk_severity.
  intros H. rule_severity H.
Qed.

Lemma DirectParse_newArch_severity v f :
  yields (DirectParse.newArchRule v) tt [Logged f] ->
  severity f = newArch_severity v.
Proof.
  unfold DirectParse.newArchRule, newArch_severity. intros H. rule_severity H.
Qed.

Lemma CompiledResolve_androidPackage_severity v f :
  yields (CompiledResolve.androidPackageRule v) tt [Logged f] ->
  severity f = identity_severity v.
Proof.
  unfold CompiledResolve.androidPackageRule, identity_severity, identifier_ok.
  intros H. rule_severity H.
Qed.

Lemma CompiledResolve_iosBundle_severity v f :
  yields (CompiledResolve.iosBundleRule v) tt [Logged f] ->
  severity f = identity_severity v.
Proof.
  unfold CompiledResolve.iosBundleRule, identity_severity, identifier_ok.
  intros H. rule_severity H.
Qed.

Lemma CompiledResolve_scheme_severity v f :
  yields (CompiledResolve.schemeRule v) tt [Logged f] ->
  severity f = scheme_severity v.
Proof.
  unfold CompiledResolve.schemeRule, scheme_severity. intros H. rule_severity H.
Qed.

Lemma CompiledResolve_runtimeVersion_severity v f :
  yields (CompiledResolve.runtimeVersionRule v) tt [Logged f] ->
  severity f = runtimeVersion_severity v.
Proof.
  unfold CompiledResolve.runtimeVersionRule, runtimeVersion_severity.
  intros H. rule_severity H.
Qed.

Lemma CompiledResolve_targetSdk_severity_of w v f :
  yields (CompiledResolve.targetSdkRule w v) tt [Logged f] ->
  severity f = CompiledResolve_targetSdk_severity w v.
Proof.
  unfold CompiledResolve.targetSdkRule, CompiledResolve_targetSdk_severity,
    CompiledResolve_targetSdk_ok.
  intros H. rule_severity H.
Qed.

Lemma CompiledResolve_newArch_severity v f :
  yields (CompiledResolve.newArchRule v) tt [Logged f] ->
  severity f = newArch_severity v.
Proof.
  unfold CompiledResolve.newArchRule, newArch_severity. intros H. rule_severity H.
Qed.



(** ** Reserved identifiers *)

Lemma starts_with_i_spec (pat s : string) :
  Js.starts_with_i pat s = true <-> exists rest, lower_string s = pat ++ rest.
Proof.
  revert s. induction pat as [| a pat IH]; intros s; simpl.
  - split; [intros _; now exists (lower_string s) | reflexivity].
  - destruct s as [| c s]; simpl.
    + split; [discriminate | intros (rest & H); discriminate H].
    + destruct (Ascii.eqb_spec a (Js.lower c)) as [-> | Hne].
      * rewrite IH. split; intros (rest & H); exists rest.
        -- now rewrite H.
        -- now injection H.
      * split; [discriminate |]. intros (rest & H). injection H as H1 H2.
        now elim Hne.
Qed.

Lemma lower_idempotent (c : ascii) : Js.lower (Js.lower c) = Js.lower c.
Proof.
  destruct c as [[] [] [] [] [] [] [] []]; reflexivity.
Qed.

Lemma lower_string_idempotent (s : string) :
  lower_string (lower_string s) = lower_string s.
Proof.
  induction s as [| c s IH]; simpl; [reflexivity |].
  now rewrite lower_idempotent, IH.
Qed.

(** X5.  The identity rules reject an identifier exactly when, with its
    ASCII letters put in lower case, it begins with one of the six
    reserved prefixes, final dot included; the case of the letters plays
    no part, and what follows the prefix neither.  The two identity rules
    apply this one policy: on the same value they print findings of the
    same severity, [FAIL] for an empty or reserved one. *)
Theorem reserved_identifier_iff (s : string) :
  (invalidDomainRegex_test s = true <->
   exists p rest, In p reserved_prefixes /\ lower_string s = p ++ rest) /\
  invalidDomainRegex_test (lower_string s) = invalidDomainRegex_test s /\
  (forall t, invalidDomainRegex_test s = true ->
             invalidDomainRegex_test (s ++ t) = true) /\
  (exists f g,
     yields (DirectParse.androidPackageRule (JStr s)) tt [Logged f] /\
     yields (DirectParse.iosBundleRule (JStr s)) tt [Logged g] /\
     severity f = severity g /\
     (severity f = FAIL <->
      s = EmptyString \/ invalidDomainRegex_test s = true)).
Proof.
  assert (Hiff : forall u,
             invalidDomainRegex_test u = true <->
             exists p rest, In p reserved_prefixes /\ lower_string u = p ++ rest).
  { intros u. rewrite invalidDomainRegex_prefixes, existsb_exists. split.
    - intros (p & Hin & Hp). apply starts_with_i_spec in Hp.
      destruct Hp as (rest & Hrest). now exists p, rest.
    - intros (p & rest & Hin & Hrest). exists p. split; [exact Hin |].
      apply starts_with_i_spec. now exists rest. }
  assert (Happ : forall u t, lower_string (u ++ t)
                             = lower_string u ++ lower_string t).
  { induction u as [| c u IH]; intros t; simpl; [reflexivity | now rewrite IH]. }
  assert (Hassoc : forall a b c : string, (a ++ b) ++ c = a ++ (b ++ c)).
  { induction a as [| x a IH]; intros b c; simpl; [reflexivity | now rewrite IH]. }
  split; [apply Hiff |]. split; [| split].
  - destruct (invalidDomainRegex_test s) eqn:E.
    + apply Hiff. apply Hiff in E. destruct E as (p & rest & Hin & Hrest).
      exists p, rest. now rewrite lower_string_idempotent.
    + destruct (invalidDomainRegex_test (lower_string s)) eqn:E'; [| reflexivity].
      apply Hiff in E'. rewrite lower_string_idempotent in E'.
      apply Hiff in E'. congruence.
  - intros t H. apply Hiff in H. destruct H as (p & rest & Hin & Hrest).
    apply Hiff. exists p, (rest ++ lower_string t).
    split; [exact Hin |]. now rewrite Happ, Hrest, Hassoc.
  - destruct (DirectParse_androidPackageRule_one (JStr s)) as (f & Hf).
    destruct (DirectParse_iosBundleRule_one (JStr s)) as (g & Hg).
    exists f, g. split; [exact Hf |]. split; [exact Hg |].
    rewrite (DirectParse_androidPackage_severity _ _ Hf),
      (DirectParse_iosBundle_severity _ _ Hg).
    split; [reflexivity |].
    unfold identity_severity, identifier_ok. simpl.
    destruct (String.eqb_spec s EmptyString) as [-> | Hne]; simpl.
    + split; [now left | reflexivity].
    + destruct (invalidDomainRegex_test s); simpl.
      * split; [now right | reflexivity].
      * split; [discriminate | intros [H | H]; [now elim Hne | discriminate]].
Qed.

Lemma reserved_identifier_iff_witness :
  invalidDomainRegex_test ("COM.Example." ++ "app") = true.
Proof.
  exact (proj1 (proj2 (proj2 (reserved_identifier_iff "COM.Example.")))
           "app" eq_refl).
Defined.

(** ** The configuration that the Expo CLI compiles *)

Lemma resolve_step (w : World) (parsed : jsval) (st : state) :
  let c := unwrap parsed in
  let body :=
    bind (prop parsed "exp") (fun exp =>
      let expoConfig := Js.or exp parsed in
      bind (if negb (Js.truthy expoConfig) then ret true
            else bind (prop expoConfig "slug")
                   (fun slug => ret (negb (Js.truthy slug))))
        (fun noSlug : bool =>
           if noSlug then throw "Could not parse configuration."
           else bind (logStatus PASS "Configuration evaluated successfully.")
                  (fun _ => ret (JObj [("expo", expoConfig)])))) in
  (Js.truthy (Js.get c "slug") = true /\
   body st = (Ret (JObj [("expo", c)]),
              emit [finding PASS "Configuration evaluated successfully."] st)) \/
  (Js.truthy (Js.get c "slug") = false /\ exists e, body st = (Thrown e, st)).
Proof.
  intros c body. unfold body, c, unwrap. clear body c.
  destruct (is_nullish parsed) eqn:Hnull.
  - right. split; [destruct parsed; try discriminate Hnull; reflexivity |].
    destruct parsed; try discriminate Hnull; eexists; reflexivity.
  - rewrite (bind_yields _ _ _ _ _ (yields_prop parsed "exp" Hnull)).
    cbv zeta. rewrite emit_nil.
    set (c := Js.or (Js.get parsed "exp") parsed).
    destruct (Js.truthy c) eqn:Hc; simpl negb; cbv iota.
    + rewrite (bind_yields _ _ (negb (Js.truthy (Js.get c "slug"))) []).
      2:{ eapply yields_cast.
          - eapply yields_bind;
              [apply yields_prop; now apply truthy_not_nullish |].
            cbv beta. apply yields_ret.
          - reflexivity. }
      rewrite emit_nil.
      destruct (Js.truthy (Js.get c "slug")) eqn:Hslug; simpl negb; cbv iota.
      * left. split; [reflexivity |]. cbn [negb].
        now rewrite (bind_yields _ _ _ _ _ (yields_logStatus _ _)).
      * right. split; [reflexivity |]. eexists. reflexivity.
    + right. split.
      * destruct c; try discriminate Hc; reflexivity.
      * rewrite (bind_yields _ _ _ _ _ (yields_ret true)), emit_nil.
        eexists. reflexivity.
Qed.

(** The configuration that [getResolvedExpoConfig] settles on, if any. *)
Lemma getResolvedExpoConfig_cases (w : World) (st : state) :
  let header := Out (nl ++ "--- Resolving Expo Configuration ---") in
  (exists stdout parsed,
     expo_config_json w = Ok stdout /\ JSON_parse w stdout = Ok parsed /\
     Js.truthy (Js.get (unwrap parsed) "slug") = true /\
     CompiledResolve.getResolvedExpoConfig w st
     = (Ret (JObj [("expo", unwrap parsed)]),
        emit [header; finding PASS "Configuration evaluated successfully."] st)) \/
  ((forall stdout parsed,
      expo_config_json w = Ok stdout -> JSON_parse w stdout = Ok parsed ->
      Js.truthy (Js.get (unwrap parsed) "slug") = false) /\
   CompiledResolve.getResolvedExpoConfig w st
   = (Exited 1,
      emit [header;
            finding FAIL "Failed to evaluate Expo config. Ensure your app.config.js has no syntax errors."]
        st)).
Proof.
  intros header. unfold CompiledResolve.getResolvedExpoConfig.
  rewrite (bind_yields _ _ _ _ _ (yields_console_log _)).
  destruct (expo_config_json w) as [stdout | e] eqn:Hcli.
  2:{ right. split; [intros; discriminate |].
      unfold try_catch, bind, lift, throw, process_exit.
      now rewrite logStatus_emit, emit_emit. }
  destruct (JSON_parse w stdout) as [parsed | e] eqn:Hparse.
  2:{ right. split; [intros s p [= <-] H; congruence |].
      unfold try_catch. rewrite (bind_yields _ _ _ _ _ (yields_lift stdout)).
      rewrite Hparse. unfold bind at 1, lift, throw.
      rewrite fail_and_exit. now rewrite emit_nil, emit_emit. }
  destruct (resolve_step w parsed
              (emit [Out (nl ++ "--- Resolving Expo Configuration ---")] st))
    as [[Hslug Hbody] | [Hslug (e & Hbody)]].
  - left. exists stdout, parsed. repeat split; try assumption.
    unfold try_catch. rewrite (bind_yields _ _ _ _ _ (yields_lift stdout)).
    rewrite Hparse, (bind_yields _ _ _ _ _ (yields_lift parsed)).
    rewrite !emit_nil. cbv zeta in Hbody. rewrite Hbody.
    now rewrite emit_emit.
  - right. split.
    + intros s p [= <-] H. assert (p = parsed) by congruence. now subst p.
    + unfold try_catch. rewrite (bind_yields _ _ _ _ _ (yields_lift stdout)).
      rewrite Hparse, (bind_yields _ _ _ _ _ (yields_lift parsed)).
      rewrite !emit_nil. cbv zeta in Hbody. rewrite Hbody.
      rewrite fail_and_exit. now rewrite emit_emit.
Qed.

(** X6.  [getResolvedExpoConfig] accepts both envelopes of the Expo CLI:
    a configuration with a [slug] (and no [exp] property of its own) is
    resolved to the same value, after the same [PASS], whether the CLI
    prints it as it is or wrapped under [exp]. *)
Theorem getResolvedExpoConfig_envelopes
  (w w' : World) (out out' : string) (c : jsval)
  (others : list (string * jsval)) (st : state) :
  expo_config_json w = Ok out -> JSON_parse w out = Ok c ->
  expo_config_json w' = Ok out' ->
  JSON_parse w' out' = Ok (JObj (("exp", c) :: others)) ->
  Js.truthy (Js.get c "slug") = true ->
  Js.truthy (Js.get c "exp") = false ->
  let resolved :=
    (Ret (JObj [("expo", c)]),
     emit [Out (nl ++ "--- Resolving Expo Configuration ---");
           finding PASS "Configuration evaluated successfully."] st) in
  CompiledResolve.getResolvedExpoConfig w st = resolved /\
  CompiledResolve.getResolvedExpoConfig w' st = resolved.
Proof.
  intros Hcli Hparse Hcli' Hparse' Hslug Hexp resolved.
  assert (Hc : Js.truthy c = true).
  { destruct c; try discriminate Hslug; reflexivity. }
  assert (Hbare : unwrap c = c).
  { unfold unwrap, Js.or. now rewrite Hexp. }
  assert (Hwrapped : unwrap (JObj (("exp", c) :: others)) = c).
  { unfold unwrap, Js.or. simpl. now rewrite Hc. }
  split.
  - destruct (getResolvedExpoConfig_cases w st)
      as [(o & p & H1 & H2 & _ & H) | (Hno & _)].
    + assert (p = c) by congruence. subst p. now rewrite Hbare in H.
    + specialize (Hno out c Hcli Hparse). rewrite Hbare in Hno. congruence.
  - destruct (getResolvedExpoConfig_cases w' st)
      as [(o & p & H1 & H2 & _ & H) | (Hno & _)].
    + assert (p = JObj (("exp", c) :: others)) by congruence. subst p.
      now rewrite Hwrapped in H.
    + specialize (Hno out' _ Hcli' Hparse'). rewrite Hwrapped in Hno.
      congruence.
Qed.

Lemma getResolvedExpoConfig_envelopes_witness :
  let c := Sample.expo_with Sample.android in
  let bare := Sample.project Sample.all_files (Ok Sample.app) (Ok Sample.eas)
                (Ok c) (Ok EmptyString) None in
  CompiledResolve.getResolvedExpoConfig bare initial
  = CompiledResolve.getResolvedExpoConfig Sample.acme initial.
Proof.
  intros c bare.
  destruct (getResolvedExpoConfig_envelopes bare Sample.acme
              "expo config" "expo config" c [] initial
              eq_refl eq_refl eq_refl eq_refl eq_refl eq_refl) as [H H'].
  now rewrite H, H'.
Defined.

Lemma CompiledResolve_validateAppJson_after_resolve (w : World) (c : jsval) :
  Js.truthy (Js.get c "slug") = true ->
  exists evs,
    yields (CompiledResolve.validateAppJson w (JObj [("expo", c)])) tt evs /\
    List.length (findings evs) = 6%nat.
Proof.
  intros Hslug.
  assert (Hn : is_nullish (Js.get (JObj [("expo", c)]) "expo") = false).
  { simpl. destruct c; try discriminate Hslug; reflexivity. }
  destruct (CompiledResolve_validateAppJson_rules w _ Hn)
    as (f1 & f2 & f3 & f4 & f5 & f6 & Hall & _).
  eexists. split; [exact Hall | reflexivity].
Qed.


(** ** An image file under the probe *)

(** X8.  With image-size at hand, the check of one image file, existence
    and then dimensions, prints at most one [FAIL]: for a file that is not
    there, the [FAIL] of the existence check alone, and nothing on
    dimensions; for a file that is there, the [PASS] of the existence
    check followed by one finding on dimensions, [PASS] when width and
    height are the required ones, [FAIL] naming the actual and the
    required ones when they are not, [FAIL] with the message of the error
    when the probe throws. *)
Theorem asset_check_with_probe
  (w : World) (sizeOf : string -> result (Z * Z)) (p name : string) (rw rh : Z) :
  image_size w = Some sizeOf ->
  path_join_cwd w p <> EmptyString ->
  let full := path_join_cwd w p in
  let check :=
    bind (CheckAssets.checkFileExistence w (JStr p) name)
      (fun path => CheckAssets.checkDimensions w path name rw rh) in
  (fs_existsSync w full = false ->
   yields check tt [finding FAIL (CheckAssets.file_not_found name p)]) /\
  (fs_existsSync w full = true ->
   exists f,
     yields check tt [finding PASS (CheckAssets.file_exists name p); Logged f] /\
     match sizeOf full with
     | Ok (width, height) =>
         if andb (width =? rw) (height =? rh) then
           f = {| severity := PASS;
                  message := CheckAssets.dimensions_correct name rw rh |}
         else
           f = {| severity := FAIL;
                  message := CheckAssets.invalid_dimensions name rw rh
                               width height |}
     | Throws e =>
         f = {| severity := FAIL;
                message := CheckAssets.dimensions_unreadable name e |}
     end).
Proof.
  intros Hprobe Hfull full check. unfold check.
  assert (Htruthy : Js.truthy (JStr full) = true).
  { simpl. destruct (String.eqb_spec full EmptyString); [contradiction | reflexivity]. }
  split; intros Hexists.
  - eapply yields_cast.
    + eapply yields_bind; [apply checkFileExistence_yields |].
      fold full. rewrite Hexists. unfold CheckAssets.checkDimensions.
      rewrite Hprobe. simpl. apply yields_ret.
    + unfold existence_finding. fold full. now rewrite Hexists.
  - assert (Hdim : exists f,
               yields (CheckAssets.checkDimensions w (JStr full) name rw rh) tt
                 [Logged f] /\
               match sizeOf full with
               | Ok (width, height) =>
                   if andb (width =? rw) (height =? rh) then
                     f = {| severity := PASS;
                            message := CheckAssets.dimensions_correct name rw rh |}
                   else
                     f = {| severity := FAIL;
                            message := CheckAssets.invalid_dimensions name rw rh
                                         width height |}
               | Throws e =>
                   f = {| severity := FAIL;
                          message := CheckAssets.dimensions_unreadable name e |}
               end).
    { unfold CheckAssets.checkDimensions. rewrite Hprobe, Htruthy.
      simpl negb. cbv iota. simpl Js.toString.
      destruct (sizeOf full) as [[width height] | e].
      - destruct (width =? rw) eqn:Ew; destruct (height =? rh) eqn:Eh;
          eexists;
          (split;
           [ intros st; unfold try_catch, bind, lift, ret;
             rewrite Ew, Eh; apply logStatus_emit
           | reflexivity ]).
      - eexists. split; [| reflexivity].
        intros st. unfold try_catch, bind, lift, throw. apply logStatus_emit. }
    destruct Hdim as (f & Hy & Hf). exists f. split; [| exact Hf].
    eapply yields_cast.
    + eapply yields_bind; [apply checkFileExistence_yields |].
      fold full. rewrite Hexists. exact Hy.
    + unfold existence_finding. fold full. now rewrite Hexists.
Qed.

Lemma asset_check_with_probe_witness :
  yields (bind (CheckAssets.checkFileExistence Sample.acme
                  (JStr "assets/missing.png") "Global Icon")
            (fun path => CheckAssets.checkDimensions Sample.acme path
                           "Global Icon" 1024 1024))
    tt [finding FAIL "[Global Icon] File not found at path: assets/missing.png"].
Proof.
  refine (proj1 (asset_check_with_probe Sample.acme (fun _ => Ok (1024, 1024))
                   "assets/missing.png" "Global Icon" 1024 1024 eq_refl _)
            eq_refl).
  discriminate.
Defined.

(** ** Loading the configuration in check_assets.js *)

Lemma CheckAssets_loadConfig_cases (w : World) (st : state) :
  let path := CheckAssets.appJsonPath w in
  (exists appJson,
     fs_existsSync w path = true /\ read_json w path = Ok appJson /\
     Js.truthy (Js.get appJson "expo") = true /\
     CheckAssets.loadConfig w st = (Ret (Js.get appJson "expo"), st)) \/
  ((forall appJson,
      fs_existsSync w path = true -> read_json w path = Ok appJson ->
      Js.truthy (Js.get appJson "expo") = false) /\
   ((exists msg,
       CheckAssets.loadConfig w st = (Exited 1, emit [finding FAIL msg] st)) \/
    (exists e,
       CheckAssets.loadConfig w st = (Thrown e, st) /\
       fs_existsSync w path = true /\
       (fs_readFileSync w path = Throws e \/
        exists appJson, read_json w path = Ok appJson /\
                        is_nullish appJson = true)))).
Proof.
  intros path. unfold CheckAssets.loadConfig, read_json. fold path.
  destruct (fs_existsSync w path) eqn:Hexists; simpl negb; cbv iota.
  2:{ right. split; [intros; discriminate |]. left. eexists.
      erewrite bind_exited; [reflexivity | apply fail_and_exit]. }
  rewrite (bind_yields _ _ _ _ _ (yields_ret tt)), emit_nil.
  destruct (fs_readFileSync w path) as [raw | e] eqn:Hraw.
  2:{ right. split; [intros; discriminate |]. right. exists e.
      split; [reflexivity |]. split; [reflexivity | now left]. }
  rewrite (bind_yields _ _ _ _ _ (yields_lift raw)), emit_nil.
  destruct (JSON_parse w raw) as [appJson | e] eqn:Hparse.
  2:{ right. split; [intros; discriminate |]. left. eexists.
      apply bind_exited. unfold try_catch, lift, throw.
      apply fail_and_exit. }
  assert (Hcatch :
            yields (try_catch (lift (Ok appJson))
                      (fun _ => bind (logStatus FAIL "Invalid app.json format.")
                                  (fun _ => process_exit 1)))
              appJson []).
  { intros st'. now rewrite emit_nil. }
  rewrite (bind_yields _ _ _ _ _ Hcatch), emit_nil.
  destruct (is_nullish appJson) eqn:Hnull.
  { right. split.
    - intros a _ [= <-]. destruct appJson; try discriminate Hnull; reflexivity.
    - right.
      exists ("Cannot read properties of " ++ Js.toString appJson
              ++ " (reading 'expo')").
      split; [| split; [reflexivity | right; now exists appJson]].
      apply bind_thrown. destruct appJson; try discriminate Hnull; reflexivity. }
  rewrite (bind_yields _ _ _ _ _ (yields_prop appJson "expo" Hnull)), emit_nil.
  destruct (Js.truthy (Js.get appJson "expo")) eqn:Hexpo; simpl negb; cbv iota.
  - left. exists appJson. now repeat split.
  - right. split; [intros a _ [= <-]; exact Hexpo |]. left. eexists.
    apply fail_and_exit.
Qed.

Lemma CheckAssetsCompiled_loadConfig_cases (w : World) (st : state) :
  (exists stdout parsed,
     expo_config_json w = Ok stdout /\ JSON_parse w stdout = Ok parsed /\
     is_nullish parsed = false /\
     CheckAssetsCompiled.loadConfig w st = (Ret (unwrap parsed), st)) \/
  ((forall stdout parsed,
      expo_config_json w = Ok stdout -> JSON_parse w stdout = Ok parsed ->
      is_nullish parsed = true) /\
   CheckAssetsCompiled.loadConfig w st
   = (Exited 1,
      emit [finding FAIL "Failed to compile Expo config. Fix syntax errors in app.config.js first."]
        st)).
Proof.
  unfold CheckAssetsCompiled.loadConfig.
  destruct (expo_config_json w) as [stdout | e] eqn:Hcli.
  2:{ right. split; [intros; discriminate |].
      unfold try_catch, bind at 1, lift, throw. apply fail_and_exit. }
  destruct (JSON_parse w stdout) as [parsed | e] eqn:Hparse.
  2:{ right. split; [intros s p [= <-] H; congruence |].
      unfold try_catch. rewrite (bind_yields _ _ _ _ _ (yields_lift stdout)).
      rewrite Hparse. unfold bind at 1, lift, throw.
      rewrite fail_and_exit. now rewrite emit_nil. }
  destruct (is_nullish parsed) eqn:Hnull.
  - right. split.
    + intros s p [= <-] H. assert (p = parsed) by congruence. now subst p.
    + unfold try_catch. rewrite (bind_yields _ _ _ _ _ (yields_lift stdout)).
      rewrite Hparse, (bind_yields _ _ _ _ _ (yields_lift parsed)).
      rewrite !emit_nil.
      destruct parsed; try discriminate Hnull; unfold bind at 1; simpl;
        apply fail_and_exit.
  - left. exists stdout, parsed. repeat split; try assumption.
    unfold try_catch. rewrite (bind_yields _ _ _ _ _ (yields_lift stdout)).
    rewrite Hparse, (bind_yields _ _ _ _ _ (yields_lift parsed)).
    rewrite (bind_yields _ _ _ _ _ (yields_prop parsed "exp" Hnull)).
    now rewrite !emit_nil.
Qed.


(** ** The second revision of check_assets.js *)

Lemma CheckAssetsCompiled_checks_no_verdict (w : World) :
  traced (fun ev => is_verdict CheckAssetsCompiled.validation_failed
                      CheckAssetsCompiled.validation_succeeded ev = false)
         (fun c => c = 1) (bind (CheckAssetsCompiled.load_sizeOf w)
                                (fun _ => CheckAssetsCompiled.checks w)).
Proof.
  unfold CheckAssetsCompiled.load_sizeOf, CheckAssetsCompiled.checks,
    CheckAssetsCompiled.loadConfig,
    CheckAssetsCompiled.globalIconCheck, CheckAssetsCompiled.splashCheck,
    CheckAssetsCompiled.adaptiveIconCheck, CheckAssetsCompiled.foregroundCheck,
    CheckAssetsCompiled.backgroundCheck, CheckAssetsCompiled.iosIconCheck,
    CheckAssetsCompiled.checkFileExistence, CheckAssetsCompiled.checkDimensions.
  traced_all ltac:(reflexivity).
Qed.

(** ** When check_assets.js succeeds *)

Lemma decides_bind (P : event -> Prop) (m1 m2 : M unit) (ok1 ok2 : bool) :
  decides m1 ok1 -> decides m2 ok2 -> traced P (fun c => c = 1) m2 ->
  decides (bind m1 (fun _ => m2)) (andb ok1 ok2).
Proof.
  unfold decides. intros H1 H2 Ht. destruct ok1; simpl.
  - destruct H1 as (e1 & Y1 & F1). destruct ok2.
    + destruct H2 as (e2 & Y2 & F2). exists (e1 ++ e2)%list.
      split; [now apply yields_bind with (a := tt) |].
      now rewrite any_fail_app, F1, F2.
    + intros st. eapply doomed_after; [exact Y1 | apply H2].
  - intros st. apply (doomed_bind P); [apply H1 | intros _; exact Ht].
Qed.

Lemma decides_logStatus (s : status) (msg : string) :
  decides (logStatus s msg) (negb (is_fail s)).
Proof.
  unfold decides. destruct s; simpl.
  - eexists. split; [apply yields_logStatus | reflexivity].
  - eexists. split; [apply yields_logStatus | reflexivity].
  - intros st. eapply doomed_returned; [apply yields_logStatus | reflexivity].
Qed.

Lemma decides_ret : decides (ret tt) true.
Proof. exists []. split; [apply yields_ret | reflexivity]. Qed.

Lemma checkDimensions_decides (w : World) (full name : string) :
  decides (CheckAssets.checkDimensions w (JStr full) name 1024 1024)
    match image_size w with
    | None => true
    | Some sizeOf =>
        if Js.truthy (JStr full) then
          match sizeOf full with
          | Ok (width, height) => andb (width =? 1024) (height =? 1024)
          | Throws _ => false
          end
        else true
    end.
Proof.
  unfold CheckAssets.checkDimensions.
  destruct (image_size w) as [sizeOf |]; [| apply decides_ret].
  destruct (Js.truthy (JStr full)); simpl negb; cbv iota; [| apply decides_ret].
  simpl Js.toString.
  destruct (sizeOf full) as [[width height] | e]; unfold decides.
  - destruct (width =? 1024) eqn:Ew; destruct (height =? 1024) eqn:Eh; simpl;
      [ eexists; split;
        [ intros st; unfold try_catch, bind, lift, ret; rewrite Ew, Eh;
          apply logStatus_emit
        | reflexivity ]
      | | | ];
      (intros st; eapply doomed_returned;
       [ intros st'; unfold try_catch, bind, lift, ret; rewrite Ew, Eh;
         apply logStatus_emit
       | reflexivity ]).
  - intros st. eapply doomed_returned.
    + intros st'. unfold try_catch, bind, lift, throw. apply logStatus_emit.
    + reflexivity.
Qed.

Lemma CheckAssets_checkDimensions_traced (w : World) path name rw rh :
  traced (fun _ => True) (fun c => c = 1)
    (CheckAssets.checkDimensions w path name rw rh).
Proof.
  unfold CheckAssets.checkDimensions.
  traced_all ltac:(first [exact I | reflexivity]).
Qed.

(** An image file with its dimensions. *)
Lemma image_decides (w : World) (v : jsval) (name : string) :
  decides (bind (CheckAssets.checkFileExistence w v name)
             (fun path => CheckAssets.checkDimensions w path name 1024 1024))
    (image_ok w true v).
Proof.
  destruct v as [| | b | n | p | items | props];
    try (intros st; apply aborted_doomed; exact I).
  unfold image_ok.
  destruct (fs_existsSync w (path_join_cwd w p)) eqn:Hexists.
  - pose proof (checkFileExistence_yields w p name) as Hy. rewrite Hexists in Hy.
    pose proof (checkDimensions_decides w (path_join_cwd w p) name) as Hd.
    simpl andb. unfold decides in *.
    destruct (match image_size w with
              | Some sizeOf => _
              | None => true
              end).
    + destruct Hd as (evs & Yd & Fd). eexists. split.
      * eapply yields_bind; [exact Hy | exact Yd].
      * rewrite any_fail_app, Fd. unfold existence_finding.
        now rewrite Hexists.
    + intros st. eapply doomed_after; [exact Hy | apply Hd].
  - simpl andb. intros st.
    pose proof (checkFileExistence_yields w p name) as Hy. rewrite Hexists in Hy.
    apply (doomed_bind (fun _ => True));
      [| intros; apply CheckAssets_checkDimensions_traced].
    eapply doomed_returned; [exact Hy |].
    unfold existence_finding. now rewrite Hexists.
Qed.

(** An image file whose dimensions are not looked at. *)
Lemma image_existence_decides (w : World) (v : jsval) (name : string) :
  decides (bind (CheckAssets.checkFileExistence w v name) (fun _ => ret tt))
    (image_ok w false v).
Proof.
  destruct v as [| | b | n | p | items | props];
    try (intros st; apply aborted_doomed; exact I).
  unfold image_ok. rewrite andb_true_r.
  pose proof (checkFileExistence_yields w p name) as Hy.
  unfold existence_finding in Hy.
  destruct (fs_existsSync w (path_join_cwd w p)); unfold decides.
  - eexists. split; [eapply yields_bind; [exact Hy | apply yields_ret] |].
    reflexivity.
  - intros st. eapply doomed_returned;
      [eapply yields_bind; [exact Hy | apply yields_ret] | reflexivity].
Qed.

Ltac CheckAssets_traced :=
  intros;
  unfold CheckAssets.globalIconCheck, CheckAssets.splashCheck,
    CheckAssets.adaptiveIconCheck, CheckAssets.foregroundCheck,
    CheckAssets.backgroundCheck, CheckAssets.iosIconCheck,
    CheckAssets.checkFileExistence, CheckAssets.checkDimensions;
  traced_all ltac:(first [exact I | reflexivity]).

Lemma globalIconCheck_decides (w : World) (expo : jsval) :
  is_nullish expo = false ->
  decides (CheckAssets.globalIconCheck w expo)
    (andb (Js.truthy (Js.get expo "icon")) (image_ok w true (Js.get expo "icon"))).
Proof.
  intros Hn. unfold CheckAssets.globalIconCheck.
  rewrite bind_prop by assumption.
  destruct (Js.truthy (Js.get expo "icon")); simpl andb.
  - apply image_decides.
  - apply (decides_logStatus FAIL).
Qed.

Lemma splashCheck_decides (w : World) (expo : jsval) :
  is_nullish expo = false ->
  decides (CheckAssets.splashCheck w expo)
    (optional_image_ok w false (Js.get (Js.get expo "splash") "image")).
Proof.
  intros Hn. unfold CheckAssets.splashCheck, optional_image_ok.
  rewrite bind_prop by assumption.
  destruct (Js.truthy (Js.get (Js.get expo "splash") "image")) eqn:Himage.
  - assert (Hsplash : Js.truthy (Js.get expo "splash") = true).
    { destruct (Js.get expo "splash"); try discriminate Himage; reflexivity. }
    rewrite Hsplash. simpl. apply image_existence_decides.
  - rewrite andb_false_r. simpl. apply (decides_logStatus WARN).
Qed.

Lemma foregroundCheck_decides (w : World) (androidIcon : jsval) :
  decides (CheckAssets.foregroundCheck w androidIcon)
    (optional_image_ok w true (Js.get androidIcon "foregroundImage")).
Proof.
  unfold CheckAssets.foregroundCheck, optional_image_ok.
  destruct (Js.truthy (Js.get androidIcon "foregroundImage")); simpl.
  - apply image_decides.
  - apply (decides_logStatus WARN).
Qed.

Lemma backgroundCheck_decides (w : World) (androidIcon : jsval) :
  decides (CheckAssets.backgroundCheck w androidIcon)
    (orb (Js.truthy (Js.get androidIcon "backgroundColor"))
       (andb (Js.truthy (Js.get androidIcon "backgroundImage"))
          (image_ok w true (Js.get androidIcon "backgroundImage")))).
Proof.
  unfold CheckAssets.backgroundCheck.
  destruct (Js.truthy (Js.get androidIcon "backgroundColor")); simpl.
  - apply (decides_logStatus PASS).
  - destruct (Js.truthy (Js.get androidIcon "backgroundImage")); simpl.
    + apply image_decides.
    + apply (decides_logStatus FAIL).
Qed.

Lemma adaptiveIconCheck_decides (w : World) (expo : jsval) :
  is_nullish expo = false ->
  let androidIcon := Js.get (Js.get expo "android") "adaptiveIcon" in
  decides (CheckAssets.adaptiveIconCheck w expo)
    (orb (negb (Js.truthy androidIcon))
       (andb (optional_image_ok w true (Js.get androidIcon "foregroundImage"))
          (orb (Js.truthy (Js.get androidIcon "backgroundColor"))
             (andb (Js.truthy (Js.get androidIcon "backgroundImage"))
                (image_ok w true (Js.get androidIcon "backgroundImage")))))).
Proof.
  intros Hn androidIcon.
  destruct (Js.truthy androidIcon) eqn:Hicon; simpl negb; simpl orb.
  - rewrite (adaptiveIconCheck_present w expo Hn Hicon). fold androidIcon.
    apply (decides_bind (fun _ => True)).
    + apply foregroundCheck_decides.
    + apply backgroundCheck_decides.
    + CheckAssets_traced.
  - unfold CheckAssets.adaptiveIconCheck. rewrite bind_prop by assumption.
    fold androidIcon. rewrite Hicon. apply (decides_logStatus WARN).
Qed.

Lemma iosIconCheck_decides (w : World) (expo : jsval) :
  is_nullish expo = false ->
  decides (CheckAssets.iosIconCheck w expo)
    (optional_image_ok w true (Js.get (Js.get expo "ios") "icon")).
Proof.
  intros Hn. unfold CheckAssets.iosIconCheck, optional_image_ok.
  rewrite bind_prop by assumption.
  destruct (Js.truthy (Js.get (Js.get expo "ios") "icon")); simpl.
  - apply image_decides.
  - apply decides_ret.
Qed.

(** The four checks on the images of a configuration, one after the
    other. *)
Lemma asset_checks_decide (w : World) (expo : jsval) :
  is_nullish expo = false ->
  decides (bind (CheckAssets.globalIconCheck w expo) (fun _ =>
           bind (CheckAssets.splashCheck w expo) (fun _ =>
           bind (CheckAssets.adaptiveIconCheck w expo) (fun _ =>
           CheckAssets.iosIconCheck w expo))))
    (assets_ok w expo).
Proof.
  intros Hn. unfold assets_ok.
  apply (decides_bind (fun _ => True));
    [now apply globalIconCheck_decides | | CheckAssets_traced].
  apply (decides_bind (fun _ => True));
    [now apply splashCheck_decides | | CheckAssets_traced].
  apply (decides_bind (fun _ => True));
    [now apply adaptiveIconCheck_decides | | CheckAssets_traced].
  now apply iosIconCheck_decides.
Qed.

Lemma load_sizeOf_yields (w : World) :
  exists evs, yields (CheckAssets.load_sizeOf w) tt evs /\ any_fail evs = false.
Proof.
  unfold CheckAssets.load_sizeOf. destruct (image_size w).
  - exists []. split; [apply yields_ret | reflexivity].
  - eexists. split; [apply yields_logStatus | reflexivity].
Qed.

Lemma bind_returned {A B} (m : M A) (f : A -> M B) a st st' :
  m st = (Ret a, st') -> bind m f st = f a st'.
Proof. intros H. unfold bind. now rewrite H. Qed.

Lemma CheckAssets_checks_decide (w : World) :
  let script := bind (CheckAssets.load_sizeOf w) (fun _ => CheckAssets.checks w) in
  (CheckAssets_passes w /\
   exists evs, script initial = (Ret tt, emit evs initial) /\ any_fail evs = false) \/
  (~ CheckAssets_passes w /\ doomed (script initial)).
Proof.
  intros script. unfold script, CheckAssets.checks.
  destruct (load_sizeOf_yields w) as (evs0 & Hload & Hclean0).
  rewrite (bind_yields _ _ _ _ _ Hload).
  rewrite (bind_yields _ _ _ _ _ (yields_console_log _)).
  rewrite emit_emit.
  set (evs1 := (evs0 ++ _)%list).
  assert (Hclean1 : any_fail evs1 = false).
  { unfold evs1. now rewrite any_fail_app, Hclean0. }
  destruct (CheckAssets_loadConfig_cases w (emit evs1 initial))
    as [(appJson & Hexists & Hread & Hexpo & Hconfig) | (Hbad & Hconfig)].
  - rewrite (bind_returned _ _ _ _ _ Hconfig).
    pose proof (asset_checks_decide w _ (truthy_not_nullish _ Hexpo)) as Hdecides.
    destruct (assets_ok w (Js.get appJson "expo")) eqn:Hassets; unfold decides in Hdecides.
    + left. split; [now exists appJson |].
      destruct Hdecides as (evs & Hyields & Hclean).
      exists (evs1 ++ evs)%list. split.
      * now rewrite Hyields, emit_emit.
      * now rewrite any_fail_app, Hclean1, Hclean.
    + right. split; [| apply Hdecides].
      intros (appJson' & _ & Hread' & _ & Hassets').
      rewrite Hread in Hread'. injection Hread' as <-. congruence.
  - right. split.
    + intros (appJson & Hexists & Hread & Hexpo & _).
      rewrite (Hbad appJson Hexists Hread) in Hexpo. discriminate.
    + destruct Hconfig as [(msg & Hexit) | (e & Hthrown & _)].
      * now rewrite (bind_exited _ _ _ _ _ Hexit).
      * now rewrite (bind_thrown _ _ _ _ _ Hthrown).
Qed.


(** ** When the revision that asks the Expo CLI succeeds *)

Lemma decides_yields (m : M unit) (evs : list event) (ok : bool) :
  yields m tt evs -> any_fail evs = negb ok -> decides m ok.
Proof.
  intros Hy Hf. destruct ok; simpl in Hf.
  - now exists evs.
  - intros st. now apply (doomed_returned m tt evs).
Qed.

Lemma decides_after {A} (m : M A) (f : A -> M unit) a evs ok :
  yields m a evs -> any_fail evs = false -> decides (f a) ok ->
  decides (bind m f) ok.
Proof.
  intros Hm Hclean Hd. destruct ok; unfold decides in *.
  - destruct Hd as (evs' & Hy & Hf). exists (evs ++ evs')%list.
    split; [now apply yields_bind with (a := a) |].
    now rewrite any_fail_app, Hclean, Hf.
  - intros st. eapply doomed_after; [exact Hm | apply Hd].
Qed.

Ltac CompiledResolve_traced :=
  intros;
  unfold CompiledResolve.profileStage, CompiledResolve.getResolvedExpoConfig,
    CompiledResolve.checkLevelZeroBasics, CompiledResolve.validateAppJson,
    CompiledResolve.validateEasJson,
    CompiledResolve.androidPackageRule, CompiledResolve.iosBundleRule,
    CompiledResolve.schemeRule, CompiledResolve.runtimeVersionRule,
    CompiledResolve.targetSdkRule, CompiledResolve.newArchRule;
  traced_all ltac:(first [exact I | reflexivity]).

Lemma CompiledResolve_basics_decide (w : World) (appJson : jsval) :
  is_nullish appJson = false ->
  decides (CompiledResolve.checkLevelZeroBasics w appJson)
    (andb (fs_existsSync w (CompiledResolve.easJsonPath w))
       (foundation_ok w appJson)).
Proof.
  intros Hn. unfold CompiledResolve.checkLevelZeroBasics, foundation_ok,
    has_lockfile.
  destruct (fs_existsSync w (CompiledResolve.easJsonPath w)); cbn [negb andb].
  - destruct (Js.truthy (Js.get (Js.get (Js.get (Js.get appJson "expo") "extra")
                                   "eas") "projectId")) eqn:Hid;
      destruct (existsb (fun file => fs_existsSync w (path_join_cwd w file))
                  lockfiles) eqn:Hlock;
      (eapply decides_yields;
       [ eapply yields_cast;
         [ yields_step; yields_step; yields_step; cbv zeta; rewrite Hid;
           cbn [negb]; yields_step; try rewrite Hlock;
           cbn [negb]; yields_step
         | reflexivity ]
       | reflexivity ]).
  - intros st. apply aborted_doomed.
    rewrite (bind_yields _ _ _ _ _ (yields_console_log _)).
    erewrite bind_exited; [reflexivity | apply fail_and_exit].
Qed.

Lemma CompiledResolve_validateAppJson_fails (w : World) (appJson : jsval) :
  is_nullish (Js.get appJson "expo") = false ->
  exists evs,
    yields (CompiledResolve.validateAppJson w appJson) tt evs /\
    any_fail evs = negb (CompiledResolve_config_ok w (Js.get appJson "expo")).
Proof.
  intros Hn.
  destruct (CompiledResolve_validateAppJson_rules w appJson Hn)
    as (f1 & f2 & f3 & f4 & f5 & f6 & Hall & H1 & H2 & H3 & H4 & H5 & H6).
  eexists. split; [exact Hall |].
  rewrite any_fail_cons_out, !any_fail_cons.
  rewrite (CompiledResolve_androidPackage_severity _ _ H1),
    (CompiledResolve_iosBundle_severity _ _ H2),
    (CompiledResolve_scheme_severity _ _ H3),
    (CompiledResolve_runtimeVersion_severity _ _ H4),
    (CompiledResolve_targetSdk_severity_of _ _ _ H5),
    (CompiledResolve_newArch_severity _ _ H6).
  unfold CompiledResolve_config_ok, identity_severity, scheme_severity,
    runtimeVersion_severity, newArch_severity, CompiledResolve_targetSdk_severity.
  destruct (identifier_ok _); destruct (identifier_ok _);
    destruct (CompiledResolve_targetSdk_ok w _);
    destruct (Js.truthy (Js.get (Js.get appJson "expo") "scheme"));
    destruct (andb (Js.truthy (Js.get (Js.get appJson "expo") "runtimeVersion")) _);
    destruct (Js.strict_eq_bool _ false); reflexivity.
Qed.

Lemma CompiledResolve_validateAppJson_decides (w : World) (appJson : jsval) :
  is_nullish (Js.get appJson "expo") = false ->
  decides (CompiledResolve.validateAppJson w appJson)
    (CompiledResolve_config_ok w (Js.get appJson "expo")).
Proof.
  intros Hn.
  destruct (CompiledResolve_validateAppJson_fails w appJson Hn)
    as (evs & Hy & Hf).
  now apply (decides_yields _ evs).
Qed.

Lemma CompiledResolve_profileStage_decides (w : World) :
  decides (CompiledResolve.profileStage w)
    match read_json w (CompiledResolve.easJsonPath w) with
    | Ok easJson => profile_ok easJson
    | Throws _ => false
    end.
Proof.
  unfold read_json, CompiledResolve.profileStage.
  destruct (fs_readFileSync w (CompiledResolve.easJsonPath w)) as [raw | e].
  - destruct (JSON_parse w raw) as [easJson | e] eqn:Hparse.
    + destruct (CompiledResolve_validateEasJson_fails easJson) as (evs & Hy & Hf).
      apply (decides_yields _ evs); [| exact Hf].
      intros st. unfold try_catch, bind, lift, ret. rewrite Hparse.
      now rewrite Hy.
    + apply (decides_yields _ [finding FAIL ("Error reading eas.json: " ++ e)]);
        [| reflexivity].
      intros st. unfold try_catch, bind, lift, ret. rewrite Hparse. unfold throw.
      apply logStatus_emit.
  - apply (decides_yields _ [finding FAIL ("Error reading eas.json: " ++ e)]);
      [| reflexivity].
    intros st. unfold try_catch, bind, lift, throw. apply logStatus_emit.
Qed.

Lemma getResolvedExpoConfig_yields (w : World) (stdout : string) (parsed : jsval) :
  expo_config_json w = Ok stdout -> JSON_parse w stdout = Ok parsed ->
  Js.truthy (Js.get (unwrap parsed) "slug") = true ->
  yields (CompiledResolve.getResolvedExpoConfig w)
    (JObj [("expo", unwrap parsed)])
    [Out (nl ++ "--- Resolving Expo Configuration ---");
     finding PASS "Configuration evaluated successfully."].
Proof.
  intros Hcli Hparse Hslug st.
  destruct (getResolvedExpoConfig_cases w st)
    as [(stdout' & parsed' & Hcli' & Hparse' & _ & Hres) | (Hbad & _)].
  - rewrite Hcli in Hcli'. injection Hcli' as <-.
    rewrite Hparse in Hparse'. injection Hparse' as <-. exact Hres.
  - rewrite (Hbad _ _ Hcli Hparse) in Hslug. discriminate Hslug.
Qed.

Lemma getResolvedExpoConfig_aborts (w : World) (st : state) :
  (forall stdout parsed,
     expo_config_json w = Ok stdout -> JSON_parse w stdout = Ok parsed ->
     Js.truthy (Js.get (unwrap parsed) "slug") = false) ->
  aborted (fst (CompiledResolve.getResolvedExpoConfig w st)).
Proof.
  intros Hbad.
  destruct (getResolvedExpoConfig_cases w st)
    as [(stdout & parsed & Hcli & Hparse & Hslug & _) | (_ & ->)].
  - rewrite (Hbad _ _ Hcli Hparse) in Hslug. discriminate Hslug.
  - reflexivity.
Qed.

(** The checks of the revision that asks the Expo CLI either find
    everything in order and return with no [FAIL] printed, or can no
    longer end in success. *)
Lemma CompiledResolve_checks_decide (w : World) :
  (CompiledResolve_passes w /\
   exists evs, CompiledResolve.checks w initial = (Ret tt, emit evs initial) /\
               any_fail evs = false) \/
  (~ CompiledResolve_passes w /\ doomed (CompiledResolve.checks w initial)).
Proof.
  unfold CompiledResolve.checks, CompiledResolve.configStage.
  set (start := "Starting Expo Build Preflight..." ++ nl).
  destruct (CompiledResolve_environment_cases w (emit [Out start] initial))
    as [[Henv _] | [Hnenv Hgone]].
  2:{ right. split; [intros (H & _); contradiction |].
      apply (doomed_bind (fun _ => True)); [| CompiledResolve_traced].
      eapply doomed_after; [apply yields_console_log |].
      apply (doomed_bind (fun _ => True)); [| CompiledResolve_traced].
      apply aborted_doomed.
      destruct Hgone as [(passed & msg & -> & _) | (e & ->)]; reflexivity. }
  pose proof (CompiledResolve_levelZeroPointFive w Henv) as Hfive.
  assert (Hgone :
    (forall stdout parsed,
       expo_config_json w = Ok stdout -> JSON_parse w stdout = Ok parsed ->
       Js.truthy (Js.get (unwrap parsed) "slug") = false) ->
    ~ CompiledResolve_passes w /\
    doomed
      (bind (bind (console_log start)
               (fun _ => bind (CompiledResolve.checkLevelZeroPointFive w)
                 (fun _ => bind (CompiledResolve.getResolvedExpoConfig w)
                   (fun appJson =>
                      bind (CompiledResolve.checkLevelZeroBasics w appJson)
                        (fun _ => CompiledResolve.validateAppJson w appJson)))))
         (fun _ => CompiledResolve.profileStage w) initial)).
  { intros Hbad. split.
    - intros (_ & stdout & parsed & easJson & Hcli & Hparse & _ & _ & Hslug & _).
      rewrite (Hbad _ _ Hcli Hparse) in Hslug. discriminate Hslug.
    - apply (doomed_bind (fun _ => True)); [| CompiledResolve_traced].
      eapply doomed_after; [apply yields_console_log |].
      eapply doomed_after; [exact Hfive |].
      apply (doomed_bind (fun _ => True)); [| CompiledResolve_traced].
      apply aborted_doomed. now apply getResolvedExpoConfig_aborts. }
  destruct (expo_config_json w) as [stdout | e] eqn:Hcli;
    [| right; apply Hgone; intros; discriminate].
  destruct (JSON_parse w stdout) as [parsed | e] eqn:Hparse;
    [| right; apply Hgone; intros s p [= <-] Hp; congruence].
  destruct (Js.truthy (Js.get (unwrap parsed) "slug")) eqn:Hslug;
    [| right; apply Hgone; intros s p [= <-] Hp; congruence].
  clear Hgone.
  set (expo := unwrap parsed) in *.
  set (appJson := JObj [("expo", expo)]).
  assert (Hexpo : is_nullish expo = false).
  { destruct expo; try discriminate Hslug; reflexivity. }
  pose proof (getResolvedExpoConfig_yields w stdout parsed Hcli Hparse Hslug)
    as Hresolve. fold expo appJson in Hresolve.
  set (ok :=
         andb (andb (andb (fs_existsSync w (CompiledResolve.easJsonPath w))
                       (foundation_ok w appJson))
                 (CompiledResolve_config_ok w expo))
           match read_json w (CompiledResolve.easJsonPath w) with
           | Ok easJson => profile_ok easJson
           | Throws _ => false
           end).
  assert (Hdecides :
    decides
      (bind (bind (console_log start)
               (fun _ => bind (CompiledResolve.checkLevelZeroPointFive w)
                 (fun _ => bind (CompiledResolve.getResolvedExpoConfig w)
                   (fun appJson =>
                      bind (CompiledResolve.checkLevelZeroBasics w appJson)
                        (fun _ => CompiledResolve.validateAppJson w appJson)))))
         (fun _ => CompiledResolve.profileStage w)) ok).
  { apply (decides_bind (fun _ => True));
      [| apply CompiledResolve_profileStage_decides | CompiledResolve_traced].
    eapply decides_after; [apply yields_console_log | reflexivity |].
    eapply decides_after; [exact Hfive | reflexivity |].
    eapply decides_after; [exact Hresolve | reflexivity |].
    apply (decides_bind (fun _ => True));
      [ now apply CompiledResolve_basics_decide
      | now apply (CompiledResolve_validateAppJson_decides w appJson)
      | CompiledResolve_traced ]. }
  assert (Hparts : CompiledResolve_passes w <-> ok = true).
  { unfold ok, CompiledResolve_passes, foundation_ok. fold expo.
    change (Js.get appJson "expo") with expo. split.
    - intros (_ & stdout' & parsed' & easJson & Hcli' & Hparse' & Heas & Hread
              & _ & Hid & Hlock & Hconfig & Hprofile).
      rewrite Hcli' in Hcli. injection Hcli as ->.
      rewrite Hparse' in Hparse. injection Hparse as ->.
      fold expo in Hid, Hconfig.
      now rewrite Heas, Hread, Hid, Hlock, Hconfig, Hprofile.
    - intros Hok.
      apply andb_true_iff in Hok. destruct Hok as [Hok Hprofile].
      apply andb_true_iff in Hok. destruct Hok as [Hok Hconfig].
      apply andb_true_iff in Hok. destruct Hok as [Heas Hok].
      apply andb_true_iff in Hok. destruct Hok as [Hid Hlock].
      destruct (read_json w (CompiledResolve.easJsonPath w)) as [easJson | e];
        [| discriminate Hprofile].
      split; [exact Henv |]. exists stdout, parsed, easJson.
      fold expo. now repeat split. }
  unfold decides in Hdecides. destruct ok.
  - left. split; [now apply Hparts |].
    destruct Hdecides as (evs & Hy & Hclean). exists evs. now split.
  - right. split; [| apply Hdecides].
    intros Hpass. apply Hparts in Hpass. discriminate Hpass.
Qed.


(** ** When the revision of check_assets.js that asks the Expo CLI succeeds *)

Lemma Compiled_checkFileExistence_yields (w : World) (p name : string) :
  let full := path_join_cwd w (CheckAssetsCompiled.strip_dot_slash p) in
  yields (CheckAssetsCompiled.checkFileExistence w (JStr p) name)
    (if fs_existsSync w full then JStr full else JNull)
    [if fs_existsSync w full
     then finding PASS (CheckAssetsCompiled.file_exists name p)
     else finding FAIL (CheckAssetsCompiled.file_not_found name p)].
Proof.
  intros full. unfold CheckAssetsCompiled.checkFileExistence. fold full.
  destruct (fs_existsSync w full); simpl;
    apply (yields_bind _ _ tt _ [_] []);
    first [apply yields_logStatus | apply yields_ret].
Qed.

Lemma Compiled_checkDimensions_decides (w : World) (full name : string) :
  decides (CheckAssetsCompiled.checkDimensions w (JStr full) name 1024 1024)
    match image_size w with
    | None => true
    | Some sizeOf =>
        if Js.truthy (JStr full) then
          match sizeOf full with
          | Ok (width, height) => andb (width =? 1024) (height =? 1024)
          | Throws _ => false
          end
        else true
    end.
Proof.
  unfold CheckAssetsCompiled.checkDimensions.
  destruct (image_size w) as [sizeOf |]; [| apply decides_ret].
  destruct (Js.truthy (JStr full)); simpl negb; cbv iota; [| apply decides_ret].
  simpl Js.toString.
  destruct (sizeOf full) as [[width height] | e]; unfold decides.
  - destruct (width =? 1024) eqn:Ew; destruct (height =? 1024) eqn:Eh; simpl;
      [ eexists; split;
        [ intros st; unfold try_catch, bind, lift, ret; rewrite Ew, Eh;
          apply logStatus_emit
        | reflexivity ]
      | | | ];
      (intros st; eapply doomed_returned;
       [ intros st'; unfold try_catch, bind, lift, ret; rewrite Ew, Eh;
         apply logStatus_emit
       | reflexivity ]).
  - intros st. eapply doomed_returned.
    + intros st'. unfold try_catch, bind, lift, throw. apply logStatus_emit.
    + reflexivity.
Qed.

Ltac CheckAssetsCompiled_traced :=
  intros;
  unfold CheckAssetsCompiled.globalIconCheck, CheckAssetsCompiled.splashCheck,
    CheckAssetsCompiled.adaptiveIconCheck, CheckAssetsCompiled.foregroundCheck,
    CheckAssetsCompiled.backgroundCheck, CheckAssetsCompiled.iosIconCheck,
    CheckAssetsCompiled.checkFileExistence, CheckAssetsCompiled.checkDimensions;
  traced_all ltac:(first [exact I | reflexivity]).

Lemma Compiled_image_decides (w : World) (v : jsval) (name : string) :
  decides (bind (CheckAssetsCompiled.checkFileExistence w v name)
             (fun path => CheckAssetsCompiled.checkDimensions w path name 1024 1024))
    (CheckAssetsCompiled_image_ok w true v).
Proof.
  destruct v as [| | b | n | p | items | props];
    try (intros st; apply aborted_doomed; exact I).
  unfold CheckAssetsCompiled_image_ok, image_ok.
  pose proof (Compiled_checkFileExistence_yields w p name) as Hy. cbv zeta in Hy.
  set (full := path_join_cwd w (CheckAssetsCompiled.strip_dot_slash p)) in *.
  destruct (fs_existsSync w full) eqn:Hexists.
  - pose proof (Compiled_checkDimensions_decides w full name) as Hd.
    simpl andb. unfold decides in *.
    destruct (match image_size w with
              | Some sizeOf => _
              | None => true
              end).
    + destruct Hd as (evs & Yd & Fd). eexists. split.
      * eapply yields_bind; [exact Hy | exact Yd].
      * now rewrite any_fail_app, Fd.
    + intros st. eapply doomed_after; [exact Hy | apply Hd].
  - simpl andb. intros st.
    apply (doomed_bind (fun _ => True)); [| CheckAssetsCompiled_traced].
    eapply doomed_returned; [exact Hy | reflexivity].
Qed.

Lemma Compiled_image_existence_decides (w : World) (v : jsval) (name : string) :
  decides (bind (CheckAssetsCompiled.checkFileExistence w v name)
             (fun _ => ret tt))
    (CheckAssetsCompiled_image_ok w false v).
Proof.
  destruct v as [| | b | n | p | items | props];
    try (intros st; apply aborted_doomed; exact I).
  unfold CheckAssetsCompiled_image_ok, image_ok. rewrite andb_true_r.
  pose proof (Compiled_checkFileExistence_yields w p name) as Hy. cbv zeta in Hy.
  destruct (fs_existsSync w
              (path_join_cwd w (CheckAssetsCompiled.strip_dot_slash p)));
    unfold decides.
  - eexists. split; [eapply yields_bind; [exact Hy | apply yields_ret] |].
    reflexivity.
  - intros st. eapply doomed_returned;
      [eapply yields_bind; [exact Hy | apply yields_ret] | reflexivity].
Qed.

Lemma Compiled_globalIconCheck_decides (w : World) (expo : jsval) :
  is_nullish expo = false ->
  decides (CheckAssetsCompiled.globalIconCheck w expo)
    (andb (Js.truthy (Js.get expo "icon"))
       (CheckAssetsCompiled_image_ok w true (Js.get expo "icon"))).
Proof.
  intros Hn. unfold CheckAssetsCompiled.globalIconCheck.
  rewrite bind_prop by assumption.
  destruct (Js.truthy (Js.get expo "icon")); simpl andb.
  - apply Compiled_image_decides.
  - apply (decides_logStatus FAIL).
Qed.

Lemma Compiled_splashCheck_decides (w : World) (expo : jsval) :
  is_nullish expo = false ->
  decides (CheckAssetsCompiled.splashCheck w expo)
    (CheckAssetsCompiled_optional_image_ok w false
       (Js.get (Js.get expo "splash") "image")).
Proof.
  intros Hn.
  unfold CheckAssetsCompiled.splashCheck, CheckAssetsCompiled_optional_image_ok.
  rewrite bind_prop by assumption.
  destruct (Js.truthy (Js.get (Js.get expo "splash") "image")) eqn:Himage.
  - assert (Hsplash : Js.truthy (Js.get expo "splash") = true).
    { destruct (Js.get expo "splash"); try discriminate Himage; reflexivity. }
    rewrite Hsplash. simpl. apply Compiled_image_existence_decides.
  - rewrite andb_false_r. simpl. apply (decides_logStatus WARN).
Qed.

Lemma Compiled_foregroundCheck_decides (w : World) (androidIcon : jsval) :
  decides (CheckAssetsCompiled.foregroundCheck w androidIcon)
    (CheckAssetsCompiled_optional_image_ok w true
       (Js.get androidIcon "foregroundImage")).
Proof.
  unfold CheckAssetsCompiled.foregroundCheck,
    CheckAssetsCompiled_optional_image_ok.
  destruct (Js.truthy (Js.get androidIcon "foregroundImage")); simpl.
  - apply Compiled_image_decides.
  - apply (decides_logStatus WARN).
Qed.

Lemma Compiled_backgroundCheck_decides (w : World) (androidIcon : jsval) :
  decides (CheckAssetsCompiled.backgroundCheck w androidIcon)
    (orb (Js.truthy (Js.get androidIcon "backgroundColor"))
       (andb (Js.truthy (Js.get androidIcon "backgroundImage"))
          (CheckAssetsCompiled_image_ok w true
             (Js.get androidIcon "backgroundImage")))).
Proof.
  unfold CheckAssetsCompiled.backgroundCheck.
  destruct (Js.truthy (Js.get androidIcon "backgroundColor")); simpl.
  - apply (decides_logStatus PASS).
  - destruct (Js.truthy (Js.get androidIcon "backgroundImage")); simpl.
    + apply Compiled_image_decides.
    + apply (decides_logStatus FAIL).
Qed.

Lemma Compiled_adaptiveIconCheck_decides (w : World) (expo : jsval) :
  is_nullish expo = false ->
  let androidIcon := Js.get (Js.get expo "android") "adaptiveIcon" in
  decides (CheckAssetsCompiled.adaptiveIconCheck w expo)
    (orb (negb (Js.truthy androidIcon))
       (andb (CheckAssetsCompiled_optional_image_ok w true
                (Js.get androidIcon "foregroundImage"))
          (orb (Js.truthy (Js.get androidIcon "backgroundColor"))
             (andb (Js.truthy (Js.get androidIcon "backgroundImage"))
                (CheckAssetsCompiled_image_ok w true
                   (Js.get androidIcon "backgroundImage")))))).
Proof.
  intros Hn androidIcon. unfold CheckAssetsCompiled.adaptiveIconCheck.
  rewrite bind_prop by assumption. cbv zeta. fold androidIcon.
  destruct (Js.truthy androidIcon); simpl negb; simpl orb.
  - apply (decides_bind (fun _ => True)).
    + apply Compiled_foregroundCheck_decides.
    + apply Compiled_backgroundCheck_decides.
    + CheckAssetsCompiled_traced.
  - apply decides_ret.
Qed.

Lemma Compiled_iosIconCheck_decides (w : World) (expo : jsval) :
  is_nullish expo = false ->
  decides (CheckAssetsCompiled.iosIconCheck w expo)
    (CheckAssetsCompiled_optional_image_ok w true
       (Js.get (Js.get expo "ios") "icon")).
Proof.
  intros Hn.
  unfold CheckAssetsCompiled.iosIconCheck, CheckAssetsCompiled_optional_image_ok.
  rewrite bind_prop by assumption.
  destruct (Js.truthy (Js.get (Js.get expo "ios") "icon")); simpl.
  - apply Compiled_image_decides.
  - apply decides_ret.
Qed.

Lemma Compiled_asset_checks_decide (w : World) (expo : jsval) :
  is_nullish expo = false ->
  decides (bind (CheckAssetsCompiled.globalIconCheck w expo) (fun _ =>
           bind (CheckAssetsCompiled.splashCheck w expo) (fun _ =>
           bind (CheckAssetsCompiled.adaptiveIconCheck w expo) (fun _ =>
           CheckAssetsCompiled.iosIconCheck w expo))))
    (CheckAssetsCompiled_assets_ok w expo).
Proof.
  intros Hn. unfold CheckAssetsCompiled_assets_ok.
  apply (decides_bind (fun _ => True));
    [now apply Compiled_globalIconCheck_decides | | CheckAssetsCompiled_traced].
  apply (decides_bind (fun _ => True));
    [now apply Compiled_splashCheck_decides | | CheckAssetsCompiled_traced].
  apply (decides_bind (fun _ => True));
    [now apply Compiled_adaptiveIconCheck_decides | | CheckAssetsCompiled_traced].
  now apply Compiled_iosIconCheck_decides.
Qed.

Lemma unwrap_not_nullish (parsed : jsval) :
  is_nullish parsed = false -> is_nullish (unwrap parsed) = false.
Proof.
  intros Hn. unfold unwrap, Js.or.
  destruct (Js.truthy (Js.get parsed "exp")) eqn:Hexp.
  - now apply truthy_not_nullish.
  - exact Hn.
Qed.

Lemma Compiled_load_sizeOf_yields (w : World) :
  exists evs, yields (CheckAssetsCompiled.load_sizeOf w) tt evs /\
              any_fail evs = false.
Proof.
  unfold CheckAssetsCompiled.load_sizeOf. destruct (image_size w).
  - exists []. split; [apply yields_ret | reflexivity].
  - eexists. split; [apply yields_logStatus | reflexivity].
Qed.

Lemma CheckAssetsCompiled_checks_decide (w : World) :
  let script := bind (CheckAssetsCompiled.load_sizeOf w)
                  (fun _ => CheckAssetsCompiled.checks w) in
  (CheckAssetsCompiled_passes w /\
   exists evs, script initial = (Ret tt, emit evs initial) /\
               any_fail evs = false) \/
  (~ CheckAssetsCompiled_passes w /\ doomed (script initial)).
Proof.
  intros script. unfold script, CheckAssetsCompiled.checks.
  destruct (Compiled_load_sizeOf_yields w) as (evs0 & Hload & Hclean0).
  rewrite (bind_yields _ _ _ _ _ Hload).
  rewrite (bind_yields _ _ _ _ _ (yields_console_log _)).
  rewrite emit_emit.
  set (evs1 := (evs0 ++ _)%list).
  assert (Hclean1 : any_fail evs1 = false).
  { unfold evs1. now rewrite any_fail_app, Hclean0. }
  destruct (CheckAssetsCompiled_loadConfig_cases w (emit evs1 initial))
    as [(stdout & parsed & Hcli & Hparse & Hnull & Hconfig) | (Hbad & Hconfig)].
  - rewrite (bind_returned _ _ _ _ _ Hconfig).
    pose proof (Compiled_asset_checks_decide w _ (unwrap_not_nullish _ Hnull))
      as Hdecides.
    destruct (CheckAssetsCompiled_assets_ok w (unwrap parsed)) eqn:Hassets;
      unfold decides in Hdecides.
    + left. split; [now exists stdout, parsed |].
      destruct Hdecides as (evs & Hyields & Hclean).
      exists (evs1 ++ evs)%list. split.
      * now rewrite Hyields, emit_emit.
      * now rewrite any_fail_app, Hclean1, Hclean.
    + right. split; [| apply Hdecides].
      intros (stdout' & parsed' & Hcli' & Hparse' & _ & Hassets').
      rewrite Hcli in Hcli'. injection Hcli' as <-.
      rewrite Hparse in Hparse'. injection Hparse' as <-. congruence.
  - right. split.
    + intros (stdout & parsed & Hcli & Hparse & Hnull & _).
      rewrite (Hbad _ _ Hcli Hparse) in Hnull. discriminate.
    + now rewrite (bind_exited _ _ _ _ _ Hconfig).
Qed.


(** ** The envelope of the Expo CLI, revision by revision *)

Lemma WrappedResolve_cases (w : World) (st : state) :
  let header := Out (nl ++ "--- Resolving Expo Configuration ---") in
  (exists stdout parsed,
     expo_config_json w = Ok stdout /\ JSON_parse w stdout = Ok parsed /\
     Js.truthy (Js.get parsed "exp") = true /\
     WrappedResolve.getResolvedExpoConfig w st
     = (Ret (JObj [("expo", Js.get parsed "exp")]),
        emit [header;
              finding PASS "Configuration evaluated successfully (supports app.config.js/ts)."]
          st)) \/
  ((forall stdout parsed,
      expo_config_json w = Ok stdout -> JSON_parse w stdout = Ok parsed ->
      Js.truthy (Js.get parsed "exp") = false) /\
   WrappedResolve.getResolvedExpoConfig w st
   = (Exited 1,
      emit [header;
            finding FAIL "Failed to evaluate Expo config. Ensure your app.config.js has no syntax errors."]
        st)).
Proof.
  intros header. unfold WrappedResolve.getResolvedExpoConfig.
  rewrite (bind_yields _ _ _ _ _ (yields_console_log _)).
  destruct (expo_config_json w) as [stdout | e] eqn:Hcli.
  2:{ right. split; [intros; discriminate |].
      unfold try_catch, bind at 1, lift, throw.
      rewrite fail_and_exit. now rewrite emit_emit. }
  destruct (JSON_parse w stdout) as [parsed | e] eqn:Hparse.
  2:{ right. split; [intros s p [= <-] H; congruence |].
      unfold try_catch. rewrite (bind_yields _ _ _ _ _ (yields_lift stdout)).
      rewrite Hparse. unfold bind at 1, lift, throw.
      rewrite fail_and_exit. now rewrite emit_nil, emit_emit. }
  destruct (Js.truthy (Js.get parsed "exp")) eqn:Hexp.
  - left. exists stdout, parsed. repeat split; try assumption.
    assert (Hnull : is_nullish parsed = false).
    { destruct parsed; try discriminate Hexp; reflexivity. }
    unfold try_catch. rewrite (bind_yields _ _ _ _ _ (yields_lift stdout)).
    rewrite Hparse, (bind_yields _ _ _ _ _ (yields_lift parsed)).
    rewrite (bind_yields _ _ _ _ _ (yields_prop parsed "exp" Hnull)).
    rewrite Hexp, !emit_nil. cbn [negb]. unfold bind, ret.
    now rewrite logStatus_emit, emit_emit.
  - right. split.
    + intros s p [= <-] H. assert (p = parsed) by congruence. now subst p.
    + unfold try_catch. rewrite (bind_yields _ _ _ _ _ (yields_lift stdout)).
      rewrite Hparse, (bind_yields _ _ _ _ _ (yields_lift parsed)).
      rewrite !emit_nil.
      destruct (is_nullish parsed) eqn:Hnull.
      * destruct parsed; try discriminate Hnull; unfold bind at 1; simpl;
          rewrite fail_and_exit; now rewrite emit_emit.
      * rewrite (bind_yields _ _ _ _ _ (yields_prop parsed "exp" Hnull)).
        rewrite Hexp, !emit_nil. cbn [negb]. unfold throw. cbv beta iota.
        rewrite fail_and_exit. now rewrite emit_emit.
Qed.

(** X13.  The revisions of [validate_expo_config.js] that ask the Expo CLI
    differ on the envelope of what it prints.  The one that wants the
    wrapped envelope returns [parsed.exp] whenever it is there (truthy),
    slug or no slug, and otherwise prints one [FAIL] and leaves with
    status 1; it never throws.  So a bare configuration with a [slug], which
    the revision that accepts both envelopes resolves, is turned away by
    it; and on a wrapped configuration the two agree exactly when that
    configuration has a [slug]. *)
Theorem wrapped_envelope_is_required
  (w : World) (stdout : string) (parsed : jsval) (st : state) :
  expo_config_json w = Ok stdout -> JSON_parse w stdout = Ok parsed ->
  let exp := Js.get parsed "exp" in
  let header := Out (nl ++ "--- Resolving Expo Configuration ---") in
  let failed :=
    (@Exited jsval 1,
     emit [header;
           finding FAIL "Failed to evaluate Expo config. Ensure your app.config.js has no syntax errors."]
       st) in
  (Js.truthy exp = true ->
   WrappedResolve.getResolvedExpoConfig w st
   = (Ret (JObj [("expo", exp)]),
      emit [header;
            finding PASS "Configuration evaluated successfully (supports app.config.js/ts)."]
        st) /\
   (Js.truthy (Js.get exp "slug") = true ->
    fst (CompiledResolve.getResolvedExpoConfig w st) = Ret (JObj [("expo", exp)])) /\
   (Js.truthy (Js.get exp "slug") = false ->
    CompiledResolve.getResolvedExpoConfig w st = failed)) /\
  (Js.truthy exp = false ->
   WrappedResolve.getResolvedExpoConfig w st = failed /\
   (Js.truthy (Js.get parsed "slug") = true ->
    fst (CompiledResolve.getResolvedExpoConfig w st)
    = Ret (JObj [("expo", parsed)]))).
Proof.
  intros Hcli Hparse exp header failed.
  assert (Hwrapped :
    forall b, Js.truthy exp = b ->
      if b then
        WrappedResolve.getResolvedExpoConfig w st
        = (Ret (JObj [("expo", exp)]),
           emit [header;
                 finding PASS "Configuration evaluated successfully (supports app.config.js/ts)."]
             st)
      else WrappedResolve.getResolvedExpoConfig w st = failed).
  { intros b Hb.
    destruct (WrappedResolve_cases w st)
      as [(stdout' & parsed' & Hcli' & Hparse' & Hexp & Hres) | (Hbad & Hres)].
    - rewrite Hcli in Hcli'. injection Hcli' as <-.
      rewrite Hparse in Hparse'. injection Hparse' as <-.
      fold exp in Hexp. rewrite Hexp in Hb. subst b. exact Hres.
    - pose proof (Hbad _ _ Hcli Hparse) as Hexp. fold exp in Hexp.
      rewrite Hexp in Hb. subst b. exact Hres. }
  assert (Hboth :
    forall b, Js.truthy (Js.get (unwrap parsed) "slug") = b ->
      if b then
        fst (CompiledResolve.getResolvedExpoConfig w st)
        = Ret (JObj [("expo", unwrap parsed)])
      else CompiledResolve.getResolvedExpoConfig w st = failed).
  { intros b Hb.
    destruct (getResolvedExpoConfig_cases w st)
      as [(stdout' & parsed' & Hcli' & Hparse' & Hslug & Hres) | (Hbad & Hres)].
    - rewrite Hcli in Hcli'. injection Hcli' as <-.
      rewrite Hparse in Hparse'. injection Hparse' as <-.
      rewrite Hslug in Hb. subst b. now rewrite Hres.
    - rewrite (Hbad _ _ Hcli Hparse) in Hb. subst b. exact Hres. }
  unfold unwrap, Js.or in Hboth. fold exp in Hboth. split.
  - intros Hexp. rewrite Hexp in Hboth.
    split; [exact (Hwrapped true Hexp) |]. split.
    + intros Hslug. exact (Hboth true Hslug).
    + intros Hslug. exact (Hboth false Hslug).
  - intros Hexp. rewrite Hexp in Hboth.
    split; [exact (Hwrapped false Hexp) |].
    intros Hslug. exact (Hboth true Hslug).
Qed.

Lemma wrapped_envelope_is_required_witness :
  let c := Sample.expo_with Sample.android in
  let bare := Sample.project Sample.all_files (Ok Sample.app) (Ok Sample.eas)
                (Ok c) (Ok EmptyString) None in
  exit_status (fst (WrappedResolve.getResolvedExpoConfig bare initial)) = 1 /\
  fst (CompiledResolve.getResolvedExpoConfig bare initial)
  = Ret (JObj [("expo", c)]).
Proof.
  intros c bare.
  destruct (wrapped_envelope_is_required bare "expo config" c initial
              eq_refl eq_refl) as [_ Hbare].
  destruct (Hbare eq_refl) as [Hwrapped Hboth].
  split; [now rewrite Hwrapped | exact (Hboth eq_refl)].
Defined.

(** ** The verdict of the revision of check_assets.js that asks the Expo CLI *)


(** ** What the Git rule takes for a clean tree *)

Lemma trim_start_empty (s : string) :
  Js.trim_start s = EmptyString <-> blank s = true.
Proof.
  induction s as [| c s IH]; simpl; [tauto |].
  destruct (Js.is_space c); simpl; [exact IH |].
  split; discriminate.
Qed.

Lemma blank_rev_string (s acc : string) :
  blank (Js.rev_string s acc) = andb (blank s) (blank acc).
Proof.
  revert acc. induction s as [| c s IH]; intros acc; simpl; [reflexivity |].
  rewrite IH. simpl. destruct (Js.is_space c); destruct (blank s); reflexivity.
Qed.

Lemma blank_trim_start (s : string) :
  blank (Js.trim_start s) = blank s.
Proof.
  induction s as [| c s IH]; simpl; [reflexivity |].
  destruct (Js.is_space c) eqn:Hc; simpl; [exact IH | now rewrite Hc].
Qed.

Lemma rev_string_empty (s acc : string) :
  Js.rev_string s acc = EmptyString -> s = EmptyString.
Proof.
  revert acc. induction s as [| c s IH]; intros acc; simpl; [reflexivity |].
  intros H. pose proof (IH _ H) as Hs. subst s. discriminate H.
Qed.

Lemma trim_empty (s : string) : Js.trim s = EmptyString <-> blank s = true.
Proof.
  unfold Js.trim. split.
  - intros H. apply rev_string_empty in H. apply trim_start_empty in H.
    rewrite blank_rev_string, blank_trim_start in H.
    now rewrite andb_true_r in H.
  - intros H. apply trim_start_empty in H. rewrite H. reflexivity.
Qed.


(** ** The sample project, once more *)

Example acme_compiled_assets_pass :
  fst (CheckAssetsCompiled.main Sample.acme) = Exited 0 /\
  findings (console (snd (CheckAssetsCompiled.main Sample.acme))) =
  [ {| severity := PASS; message := "[Global Icon] File exists: assets/icon.png" |};
    {| severity := PASS;
       message := "[Global Icon] Dimensions correct (1024x1024)." |};
    {| severity := WARN; message := "No custom splash screen image configured." |} ].
Proof. split; reflexivity. Qed.

(** ** The rules on the configuration, revision against revision *)


